(** * videoscriber: a shallow embedding of the subtitle pipeline and of the
    HTTP handlers, with the properties of its specification.

    The Go program has two packages of interest:
    - [internal/pkg/subtitles]: the orchestrator ([GenerateFromAudioData],
      [processFile] and its helpers);
    - [internal/app/web]: the HTTP handlers ([createSubtitles],
      [listSubtitles], [subtitleFile], [deleteSubtitle], [subtitlesZip]).

    Go strings are [string], byte slices are [list byte], errors are their
    messages, the file system is a tree of directories, and every function
    that touches the file system or a collaborator passes the state
    explicitly. *)

From Stdlib Require Import ZArith NArith Lia Ascii String List Permutation Sorted OrdersEx.
From Stdlib Require Import DecimalString.
From Stdlib.Strings Require Import Byte.
From stdpp Require Import base tactics option list strings gmap sorting.

Local Open Scope string_scope.
Local Open Scope list_scope.

(** ** Go values *)

(** A Go [error] is modelled by its message; [fmt.Errorf("ctx: %w", err)]
    prefixes the message of the wrapped error. *)
Definition error := string.

Inductive result (A : Type) : Type :=
| Ok (a : A)
| Err (e : error).
Arguments Ok {A} a.
Arguments Err {A} e.

(** A Go [[]byte]. *)
Definition bytes := list Byte.byte.

Definition wrap (ctx : string) (e : error) : error := ctx +:+ ": " +:+ e.

(** ** Package [strings] and [path] of the Go standard library *)

Module GoString.

(** [HasPrefix s p]. *)
Fixpoint HasPrefix (s p : string) : bool :=
  match p, s with
  | EmptyString, _ => true
  | String _ _, EmptyString => false
  | String b p', String a s' => if Ascii.eqb a b then HasPrefix s' p' else false
  end.

(** [s[n:]]. *)
Fixpoint drop (n : nat) (s : string) : string :=
  match n, s with
  | O, _ => s
  | S n', String _ s' => drop n' s'
  | S _, EmptyString => EmptyString
  end.

(** [strings.HasSuffix(s, suffix)]. *)
Definition HasSuffix (s suffix : string) : bool :=
  (String.length suffix <=? String.length s)%nat
  && String.eqb (drop (String.length s - String.length suffix) s) suffix.

(** [strings.Replace(s, old, new, 1)]: the first occurrence of [old] in
    [s] is replaced by [new]; an empty [old] matches at the beginning of
    the string; without an occurrence [s] is returned unchanged. *)
Fixpoint Replace1 (s old new : string) : string :=
  if HasPrefix s old then new +:+ drop (String.length old) s
  else match s with
       | EmptyString => EmptyString
       | String a s' => String a (Replace1 s' old new)
       end.

(** [strings.Contains(s, "/")]-like test for one byte. *)
Fixpoint ContainsByte (c : ascii) (s : string) : bool :=
  match s with
  | EmptyString => false
  | String a s' => if Ascii.eqb a c then true else ContainsByte c s'
  end.

(** [strings.Split(s, "/")]: never empty, [Split "" = [""]]. *)
Fixpoint Split (s : string) : list string :=
  match s with
  | EmptyString => [EmptyString]
  | String a s' =>
      if Ascii.eqb a "/" then EmptyString :: Split s'
      else match Split s' with
           | h :: t => String a h :: t
           | [] => [String a EmptyString]
           end
  end.

(** [strings.Join(elems, "/")]. *)
Fixpoint Join (elems : list string) : string :=
  match elems with
  | [] => EmptyString
  | [e] => e
  | e :: rest => e +:+ "/" +:+ Join rest
  end.

(** [strings.LastIndex(s, "*")] split: the part before the last [*] and
    the part after it, when there is one. *)
Fixpoint CutLast (c : ascii) (s : string) : option (string * string) :=
  match s with
  | EmptyString => None
  | String a s' =>
      match CutLast c s' with
      | Some (pre, suf) => Some (String a pre, suf)
      | None => if Ascii.eqb a c then Some (EmptyString, s') else None
      end
  end.

End GoString.

Module GoPath.
Import GoString.

(** The suffix of one path element that starts at its final dot. *)
Fixpoint extOfElem (s : string) : string :=
  match s with
  | EmptyString => EmptyString
  | String a s' =>
      match extOfElem s' with
      | EmptyString => if Ascii.eqb a "." then s else EmptyString
      | e => e
      end
  end.

(** [path.Ext]: "the suffix beginning at the final dot in the final
    slash-separated element of path; it is empty if there is no dot". *)
Definition Ext (p : string) : string := extOfElem (List.last (Split p) EmptyString).

Definition isEmpty (s : string) : bool :=
  match s with EmptyString => true | _ => false end.

(** [path.Base]: the last element of the path, trailing slashes removed
    first; ["."] for the empty path and ["/"] for a path of slashes. *)
Definition Base (p : string) : string :=
  if isEmpty p then "."
  else match List.filter (fun c => negb (isEmpty c)) (Split p) with
       | [] => "/"
       | c :: cs => List.last cs c
       end.

(** One element of [path.Clean]'s left-to-right pass; [st] is the stack of
    the elements kept so far, the most recent first. *)
Definition cleanStep (rooted : bool) (st : list string) (c : string) : list string :=
  if String.eqb c "" || String.eqb c "." then st
  else if String.eqb c ".." then
    match st with
    | top :: rest => if String.eqb top ".." then c :: st else rest
    | [] => if rooted then [] else [c]
    end
  else c :: st.

(** [path.Clean]: no empty and no ["."] element, every inner [".."]
    removed with the element before it, [".."] at the start of a rooted
    path dropped; ["."] when nothing is left. *)
Definition Clean (p : string) : string :=
  let rooted := HasPrefix p "/" in
  let body := Join (List.rev (List.fold_left (cleanStep rooted) (Split p) [])) in
  if rooted then "/" +:+ body
  else if isEmpty body then "." else body.

(** [path.Join(a, b)]: the non-empty arguments joined by a slash and
    cleaned; the empty string when both are empty. *)
Definition Join2 (a b : string) : string :=
  match isEmpty a, isEmpty b with
  | true, true => EmptyString
  | true, false => Clean b
  | false, true => Clean a
  | false, false => Clean (a +:+ "/" +:+ b)
  end.

End GoPath.

(** ** The file system and package [os]

    The working directory of the process is the root of a tree.  The
    entries of a directory are kept in the order in which the operating
    system hands them out, which is arbitrary; [os.ReadDir] sorts them by
    name. *)

Module GoOS.
Import GoString.

Unset Elimination Schemes.
Inductive node : Type :=
| File (data : bytes)
| Dir (entries : list (string * node)).
Set Elimination Schemes.

Section node_ind.
Variable P : node -> Prop.
Hypothesis HFile : forall data, P (File data).
Hypothesis HDir : forall es, Forall (fun e => P (snd e)) es -> P (Dir es).

Fixpoint node_ind (n : node) : P n :=
  match n with
  | File data => HFile data
  | Dir es =>
      HDir es
        ((fix go (l : list (string * node)) : Forall (fun e => P (snd e)) l :=
            match l with
            | [] => Forall_nil_2 _
            | e :: l' => Forall_cons_2 _ _ _ (node_ind (snd e)) (go l')
            end) es)
  end.
End node_ind.

Record DirEntry := { Name : string; IsDir : bool }.

Definition isDir (n : node) : bool :=
  match n with Dir _ => true | File _ => false end.

Definition ENOENT : error := "no such file or directory".
Definition EEXIST : error := "file exists".
Definition EISDIR : error := "is a directory".
Definition ENOTDIR : error := "not a directory".
Definition ENOTEMPTY : error := "directory not empty".

(** *** Entries of one directory *)

Fixpoint assoc (k : string) (es : list (string * node)) : option node :=
  match es with
  | [] => None
  | (k', v) :: es' => if String.eqb k k' then Some v else assoc k es'
  end.

Fixpoint setEntry (k : string) (v : node) (es : list (string * node)) : list (string * node) :=
  match es with
  | [] => [(k, v)]
  | (k', v') :: es' => if String.eqb k k' then (k, v) :: es' else (k', v') :: setEntry k v es'
  end.

Fixpoint delEntry (k : string) (es : list (string * node)) : list (string * node) :=
  match es with
  | [] => []
  | (k', v') :: es' => if String.eqb k k' then es' else (k', v') :: delEntry k es'
  end.

(** *** Path resolution

    A path is resolved from the working directory, element by element;
    empty elements and ["."] are skipped.  The tree has no parent of the
    working directory and no absolute paths: a path that starts with a
    slash or keeps a [".."] element does not resolve. *)

Definition skipElem (c : string) : bool := String.eqb c "" || String.eqb c ".".

Definition components (p : string) : option (list string) :=
  if GoPath.isEmpty p then None
  else if HasPrefix p "/" then None
  else
    let cs := List.filter (fun c => negb (skipElem c)) (Split p) in
    if List.existsb (String.eqb "..") cs then None else Some cs.

Fixpoint lookupAt (cs : list string) (n : node) : option node :=
  match cs with
  | [] => Some n
  | c :: cs' =>
      match n with
      | Dir es => match assoc c es with
                  | Some ch => lookupAt cs' ch
                  | None => None
                  end
      | File _ => None
      end
  end.

Fixpoint putAt (cs : list string) (v : node) (n : node) : option node :=
  match cs, n with
  | [], _ => None
  | [c], Dir es => Some (Dir (setEntry c v es))
  | c :: cs', Dir es =>
      match assoc c es with
      | Some ch => match putAt cs' v ch with
                   | Some ch' => Some (Dir (setEntry c ch' es))
                   | None => None
                   end
      | None => None
      end
  | _ :: _, File _ => None
  end.

Fixpoint delAt (cs : list string) (n : node) : option node :=
  match cs, n with
  | [], _ => None
  | [c], Dir es => match assoc c es with
                   | Some _ => Some (Dir (delEntry c es))
                   | None => None
                   end
  | c :: cs', Dir es =>
      match assoc c es with
      | Some ch => match delAt cs' ch with
                   | Some ch' => Some (Dir (setEntry c ch' es))
                   | None => None
                   end
      | None => None
      end
  | _ :: _, File _ => None
  end.

Definition lookup (p : string) (fs : node) : option node :=
  match components p with
  | Some cs => lookupAt cs fs
  | None => None
  end.

(** *** [os.Lstat], [os.ReadDir], [os.Remove] *)

Definition Lstat (p : string) (fs : node) : result DirEntry :=
  match lookup p fs with
  | Some n => Ok {| Name := GoPath.Base p; IsDir := isDir n |}
  | None => Err ENOENT
  end.

(** Sorting by a string key, byte-wise as Go compares strings. *)
Fixpoint insertBy {A : Type} (key : A -> string) (x : A) (l : list A) : list A :=
  match l with
  | [] => [x]
  | y :: l' => if String.leb (key x) (key y) then x :: l else y :: insertBy key x l'
  end.

Definition sortBy {A : Type} (key : A -> string) (l : list A) : list A :=
  List.fold_right (insertBy key) [] l.

(** [ReadDir] "returns all its directory entries sorted by filename". *)
Definition sortByName (l : list DirEntry) : list DirEntry := sortBy Name l.

Definition entryOf (e : string * node) : DirEntry :=
  {| Name := fst e; IsDir := isDir (snd e) |}.

Definition ReadDir (p : string) (fs : node) : result (list DirEntry) :=
  match lookup p fs with
  | Some (Dir es) => Ok (sortByName (List.map entryOf es))
  | Some (File _) => Err ENOTDIR
  | None => Err ENOENT
  end.

(** [os.Remove] "removes the named file or (empty) directory". *)
Definition Remove (p : string) (fs : node) : result node :=
  match components p with
  | Some cs =>
      match lookupAt cs fs with
      | Some (Dir (_ :: _)) => Err ENOTEMPTY
      | Some _ => match delAt cs fs with
                  | Some fs' => Ok fs'
                  | None => Err "invalid argument"
                  end
      | None => Err ENOENT
      end
  | None => Err ENOENT
  end.

(** *** Opening files

    [os.Create] creates or truncates the named file; the byte slice
    written next becomes its content.  [os.Open] followed by [io.ReadAll]
    returns the content of a regular file; on a directory the open
    succeeds and the read fails. *)

Definition Create (p : string) (fs : node) : result node :=
  match components p with
  | Some cs =>
      match lookupAt cs fs with
      | Some (Dir _) => Err EISDIR
      | _ => match putAt cs (File []) fs with
             | Some fs' => Ok fs'
             | None => Err ENOENT
             end
      end
  | None => Err ENOENT
  end.

(** [f.Write(data)] on the file opened at [p]: the data is appended to
    what the handle wrote before.  A handle whose file was unlinked in the
    meantime writes to a file that is no longer in the tree. *)
Definition Write (p : string) (data : bytes) (fs : node) : node :=
  match components p with
  | Some cs =>
      match lookupAt cs fs with
      | Some (File old) => match putAt cs (File (old ++ data)) fs with
                           | Some fs' => fs'
                           | None => fs
                           end
      | _ => fs
      end
  | None => fs
  end.

Definition Open (p : string) (fs : node) : result node :=
  match lookup p fs with
  | Some n => Ok n
  | None => Err ENOENT
  end.

Definition ReadAll (f : node) : result (bytes) :=
  match f with
  | File data => Ok data
  | Dir _ => Err EISDIR
  end.

(** *** [os.CreateTemp]

    The pattern must not contain a path separator; the random string
    replaces the last [*] of the pattern or is appended to it.  The file
    is opened with [O_CREATE|O_EXCL]; on a name that exists the next
    random string is tried, 10000 times at most. *)

Definition errPatternHasSeparator : error := "pattern contains path separator".

Definition prefixAndSuffix (pattern : string) : result (string * string) :=
  if ContainsByte "/" pattern then Err errPatternHasSeparator
  else match CutLast "*" pattern with
       | Some (pre, suf) => Ok (pre, suf)
       | None => Ok (pattern, EmptyString)
       end.

Fixpoint lastByte (s : string) : option ascii :=
  match s with
  | EmptyString => None
  | String a EmptyString => Some a
  | String _ s' => lastByte s'
  end.

Definition joinPath (dir name : string) : string :=
  match lastByte dir with
  | Some "/"%char => dir +:+ name
  | _ => dir +:+ "/" +:+ name
  end.

Definition itoa (n : N) : string := NilEmpty.string_of_uint (N.to_uint n).

(** [OpenFile(name, O_RDWR|O_CREATE|O_EXCL, 0600)]: [None] stands for
    the error [ErrExist]. *)
Definition OpenExcl (p : string) (fs : node) : option (result node) :=
  match components p with
  | Some cs =>
      match lookupAt cs fs with
      | Some _ => None
      | None => match putAt cs (File []) fs with
                | Some fs' => Some (Ok fs')
                | None => Some (Err ENOENT)
                end
      end
  | None => Some (Err ENOENT)
  end.

(** The source of [nextRandom]: the stream of numbers still to come. *)
Definition random := nat -> N.
Definition advance (k : nat) (r : random) : random := fun i => r (k + i)%nat.

Fixpoint createTempLoop (tries : nat) (prefix suffix : string) (r : random) (fs : node)
  : random * result (string * node) :=
  match tries with
  | O => (r, Err EEXIST)
  | S tries' =>
      let name := prefix +:+ itoa (r O) +:+ suffix in
      match OpenExcl name fs with
      | None => createTempLoop tries' prefix suffix (advance 1 r) fs
      | Some (Ok fs') => (advance 1 r, Ok (name, fs'))
      | Some (Err e) => (advance 1 r, Err e)
      end
  end.

Definition CreateTemp (dir pattern : string) (r : random) (fs : node)
  : random * result (string * node) :=
  match prefixAndSuffix pattern with
  | Err e => (r, Err e)
  | Ok (prefix, suffix) =>
      createTempLoop (100 * 100) (joinPath (if GoPath.isEmpty dir then "/tmp" else dir) prefix) suffix r fs
  end.

(** *** [os.Stat], [os.IsNotExist], [os.Mkdir]

    [os.Stat] tells an entry that is missing ([ENOENT]) from a path that
    runs through a regular file ([ENOTDIR]); [os.IsNotExist] holds of the
    first only.  [os.Mkdir] creates one directory: its parent must exist
    and the name must be free.  Permissions are not modelled. *)

Fixpoint statAt (cs : list string) (n : node) : result node :=
  match cs with
  | [] => Ok n
  | c :: cs' =>
      match n with
      | Dir es => match assoc c es with
                  | Some ch => statAt cs' ch
                  | None => Err ENOENT
                  end
      | File _ => Err ENOTDIR
      end
  end.

Definition Stat (p : string) (fs : node) : result DirEntry :=
  match components p with
  | Some cs =>
      match statAt cs fs with
      | Ok n => Ok {| Name := GoPath.Base p; IsDir := isDir n |}
      | Err e => Err e
      end
  | None => Err ENOENT
  end.

Definition IsNotExist (err : option error) : bool :=
  match err with
  | Some e => String.eqb e ENOENT
  | None => false
  end.

Fixpoint mkdirAt (cs : list string) (n : node) : result node :=
  match cs, n with
  | [], _ => Err EEXIST
  | _ :: _, File _ => Err ENOTDIR
  | [c], Dir es =>
      match assoc c es with
      | Some _ => Err EEXIST
      | None => Ok (Dir (setEntry c (Dir []) es))
      end
  | c :: cs', Dir es =>
      match assoc c es with
      | Some ch => match mkdirAt cs' ch with
                   | Ok ch' => Ok (Dir (setEntry c ch' es))
                   | Err e => Err e
                   end
      | None => Err ENOENT
      end
  end.

Definition Mkdir (p : string) (fs : node) : result node :=
  match components p with
  | Some cs => mkdirAt cs fs
  | None => Err ENOENT
  end.

End GoOS.

(** ** The collaborators' packages

    [github.com/alesr/audiostripper] and [github.com/alesr/whisperclient] are
    other repositories; only the types that [subtitles.go] builds and reads
    are declared here. *)

Module audiostripper.
Record ExtractAudioInput := { SampleRate : string; FilePath : string }.
(** The field [FilePath] of [ExtractAudioOutput]. *)
Record ExtractAudioOutput := { OutFilePath : string }.
End audiostripper.

Module whisperclient.
Inductive Language := LanguagePortuguese | LanguageCode (code : string).
Inductive Format := FormatSrt | FormatName (name : string).
Record TranscribeAudioInput :=
  { Name : string; Language_ : Language; Format_ : Format; Data : bytes }.
End whisperclient.

(** ** Package [subtitles] *)

Module subtitles.
Import GoOS.

(** An [io.Reader]: the bytes it delivers, then end of file ([None]) or
    an error. *)
Record Reader := { rbytes : bytes; rerr : option error }.

(** Input represents the input to the subtitle generator. *)
Record Input := { FileName : string; Data : Reader; Language : string }.

Inductive stage := Materialize | Extract | Read | Transcribe | Persist.

(** What an observer of one call sees: the calls to the transcription
    client, the log lines, and two marks that [processFile] leaves, one
    when a stage of goroutine [g] fails and one when it has written its
    subtitle file. *)
Inductive event :=
| EvTranscribe (inp : whisperclient.TranscribeAudioInput)
| EvLog (level msg : string)
| EvFailed (g : nat) (st : stage)
| EvPersisted (g : nat) (path : string) (data : bytes).

Definition subtitlePath (dir name : string) : string :=
  GoPath.Join2 dir (GoString.Replace1 name (GoPath.Ext name) ".srt").

Section WithCollaborators.
(** The state of whatever the collaborators talk to (the transcoder
    process, the remote API). *)
Context {E : Type}.

Record world := {
  fs : node;
  rnd : random;
  ext : E;
  errCh : list error;     (* the buffered channel, oldest first *)
  errCap : nat;           (* its capacity *)
  trace : list event      (* newest first *)
}.

Definition withFs (f : node) (w : world) : world :=
  {| fs := f; rnd := rnd w; ext := ext w; errCh := errCh w; errCap := errCap w; trace := trace w |}.
Definition withRnd (r : random) (w : world) : world :=
  {| fs := fs w; rnd := r; ext := ext w; errCh := errCh w; errCap := errCap w; trace := trace w |}.
Definition withExt (e : E) (w : world) : world :=
  {| fs := fs w; rnd := rnd w; ext := e; errCh := errCh w; errCap := errCap w; trace := trace w |}.
Definition emit (ev : event) (w : world) : world :=
  {| fs := fs w; rnd := rnd w; ext := ext w; errCh := errCh w; errCap := errCap w; trace := ev :: trace w |}.
(** [errCh <- e] when the buffer has room. *)
Definition send (e : error) (w : world) : world :=
  {| fs := fs w; rnd := rnd w; ext := ext w; errCh := errCh w ++ [e]; errCap := errCap w; trace := trace w |}.
(** [make(chan error, n)]. *)
Definition makeChan (n : nat) (w : world) : world :=
  {| fs := fs w; rnd := rnd w; ext := ext w; errCh := []; errCap := n; trace := trace w |}.

(** Subtitler is the subtitle generator.  The two collaborators are
    interface values: any function of the state they can reach. *)
Record Subtitler := {
  sampleRate : string;
  outputDir : string;
  tmpDir : string;
  audioStripper :
    audiostripper.ExtractAudioInput -> E * node -> (E * node) * result audiostripper.ExtractAudioOutput;
  whisperClient :
    whisperclient.TranscribeAudioInput -> E -> E * result bytes
}.

(** [io.Copy(dst, src)]: what the reader delivers is written to the
    file; the reader's error, if any, is the result. *)
Definition ioCopy (dst : string) (src : Reader) (w : world) : world * option error :=
  (withFs (Write dst (rbytes src) (fs w)) w, rerr src).

(** createVideoFile creates a temporary video file and returns its path.
    The file is deleted after when the caller finishes. *)
Definition createVideoFile (s : Subtitler) (name : string) (data : Reader) (w : world)
  : world * result string :=
  match CreateTemp (tmpDir s) name (rnd w) (fs w) with
  | (r, Err e) => (withRnd r w, Err (wrap "could not create video file" e))
  | (r, Ok (videoFile, fs1)) =>
      let w1 := emit (EvLog "DEBUG" "Created video file") (withFs fs1 (withRnd r w)) in
      match ioCopy videoFile data w1 with
      | (w2, Some e) => (w2, Err (wrap "could not write video file" e))
      | (w2, None) => (w2, Ok videoFile)
      end
  end.

(** extractAudio extracts the audio from the video file. *)
Definition extractAudio (s : Subtitler) (filepath sampleRate : string) (w : world)
  : world * result string :=
  let '((e, f), res) :=
    audioStripper s
      {| audiostripper.SampleRate := sampleRate; audiostripper.FilePath := filepath |}
      (ext w, fs w) in
  let w' := withFs f (withExt e w) in
  match res with
  | Err err => (w', Err (wrap "could not extract audio" err))
  | Ok out => (w', Ok (audiostripper.OutFilePath out))
  end.

(** requestSubtitle calls the Whisper API to generate subtitles for the
    given audio data. *)
Definition requestSubtitle (s : Subtitler) (audioData : bytes) (fileName sampleRate : string)
    (w : world) : world * result bytes :=
  let inp := {| whisperclient.Name := fileName;
                whisperclient.Language_ := whisperclient.LanguagePortuguese;
                whisperclient.Format_ := whisperclient.FormatSrt;
                whisperclient.Data := audioData |} in
  let '(e, res) := whisperClient s inp (ext w) in
  let w' := emit (EvTranscribe inp) (withExt e w) in
  match res with
  | Err err => (w', Err (wrap "could not generate subtitle" err))
  | Ok subtitleData => (w', Ok subtitleData)
  end.

Definition removeFile (s : Subtitler) (filePath : string) (w : world) : world :=
  match Remove filePath (fs w) with
  | Err e => emit (EvLog "ERROR" "Could not remove file") w
  | Ok f => withFs f w
  end.

Definition readFile (path : string) (f : node) : result bytes :=
  match Open path f with
  | Err e => Err (wrap "could not open file" e)
  | Ok h =>
      match ReadAll h with
      | Err e => Err (wrap "could not read file" e)
      | Ok data => Ok data
      end
  end.

Definition writeFile (path : string) (data : bytes) (f : node) : node * option error :=
  match Create path f with
  | Err e => (f, Some (wrap "could not create file" e))
  | Ok f1 => (Write path data f1, None)
  end.

(** [processFile]: the deferred calls run when the function returns,
    the last one registered first; [g] numbers the goroutine and is
    only used in the marks left in the trace. *)
Definition processFile (s : Subtitler) (g : nat) (inp : Input) (w : world) : world :=
  match createVideoFile s (FileName inp) (Data inp) w with
  | (w1, Err e) =>
      send (wrap "could not create video file" e) (emit (EvFailed g Materialize) w1)
  | (w1, Ok videoPath) =>
      let afterExtract :=
        match extractAudio s videoPath (sampleRate s) w1 with
        | (w2, Err e) =>
            send (wrap "could not extract audio" e) (emit (EvFailed g Extract) w2)
        | (w2, Ok audioFilePath) =>
            let afterRead :=
              match readFile audioFilePath (fs w2) with
              | Err e =>
                  send (wrap "could not read audio file" e) (emit (EvFailed g Read) w2)
              | Ok audioData =>
                  match requestSubtitle s audioData (FileName inp) (sampleRate s) w2 with
                  | (w3, Err e) =>
                      send (wrap "could not generate subtitle" e) (emit (EvFailed g Transcribe) w3)
                  | (w3, Ok subData) =>
                      let subPath := subtitlePath (outputDir s) (FileName inp) in
                      match writeFile subPath subData (fs w3) with
                      | (f, Some e) =>
                          send (wrap "could not write subtitle file" e)
                               (emit (EvFailed g Persist) (withFs f w3))
                      | (f, None) => emit (EvPersisted g subPath subData) (withFs f w3)
                      end
                  end
              end in
            (* defer s.removeFile(audioFilePath) *)
            removeFile s audioFilePath afterRead
        end in
      (* defer s.removeFile(videoPath) *)
      removeFile s videoPath afterExtract
  end.

(** *** The goroutines

    [GenerateFromAudioData] starts one goroutine per input.  A goroutine
    is at one of the points below; one step runs one stage of
    [processFile], one channel send or one deferred call, and the
    scheduler decides whose step comes next.  A send on a full channel
    blocks: the step changes nothing. *)
Inductive pc :=
| PCreate
| PExtract (videoPath : string)
| PRead (videoPath audioFilePath : string)
| PTranscribe (videoPath audioFilePath : string) (audioData : bytes)
| PPersist (videoPath audioFilePath : string) (subData : bytes)
| PSend (e : error) (deferred : list string)
| PReturn (deferred : list string) (failed : bool)
| PDone (failed : bool).

Definition step (s : Subtitler) (g : nat) (inp : Input) (w : world) (c : pc) : world * pc :=
  match c with
  | PCreate =>
      match createVideoFile s (FileName inp) (Data inp) w with
      | (w1, Err e) =>
          (emit (EvFailed g Materialize) w1, PSend (wrap "could not create video file" e) [])
      | (w1, Ok videoPath) => (w1, PExtract videoPath)
      end
  | PExtract videoPath =>
      match extractAudio s videoPath (sampleRate s) w with
      | (w2, Err e) =>
          (emit (EvFailed g Extract) w2, PSend (wrap "could not extract audio" e) [videoPath])
      | (w2, Ok audioFilePath) => (w2, PRead videoPath audioFilePath)
      end
  | PRead videoPath audioFilePath =>
      match readFile audioFilePath (fs w) with
      | Err e =>
          (emit (EvFailed g Read) w,
           PSend (wrap "could not read audio file" e) [audioFilePath; videoPath])
      | Ok audioData => (w, PTranscribe videoPath audioFilePath audioData)
      end
  | PTranscribe videoPath audioFilePath audioData =>
      match requestSubtitle s audioData (FileName inp) (sampleRate s) w with
      | (w3, Err e) =>
          (emit (EvFailed g Transcribe) w3,
           PSend (wrap "could not generate subtitle" e) [audioFilePath; videoPath])
      | (w3, Ok subData) => (w3, PPersist videoPath audioFilePath subData)
      end
  | PPersist videoPath audioFilePath subData =>
      let subPath := subtitlePath (outputDir s) (FileName inp) in
      match writeFile subPath subData (fs w) with
      | (f, Some e) =>
          (emit (EvFailed g Persist) (withFs f w),
           PSend (wrap "could not write subtitle file" e) [audioFilePath; videoPath])
      | (f, None) =>
          (emit (EvPersisted g subPath subData) (withFs f w),
           PReturn [audioFilePath; videoPath] false)
      end
  | PSend e deferred =>
      if (length (errCh w) <? errCap w)%nat then (send e w, PReturn deferred true)
      else (w, c)
  | PReturn (p :: deferred) failed => (removeFile s p w, PReturn deferred failed)
  | PReturn [] failed => (w, PDone failed)
  | PDone _ => (w, c)
  end.

Local Abbreviation goroutines := (list (Input * pc)).

Fixpoint run (s : Subtitler) (sched : list nat) (w : world) (gs : goroutines)
  : world * goroutines :=
  match sched with
  | [] => (w, gs)
  | g :: sched' =>
      match gs !! g with
      | Some (inp, c) =>
          let '(w', c') := step s g inp w c in
          run s sched' w' (<[g := (inp, c')]> gs)
      | None => run s sched' w gs
      end
  end.

Definition done (gc : Input * pc) : bool :=
  match snd gc with PDone _ => true | _ => false end.

(** GenerateFromAudioData generates subtitle from audio data.  [sched]
    is the order in which the scheduler lets the goroutines step;
    [wg.Wait()] returns when all of them are done, and the result is
    [None] for a schedule that ends before that. *)
Definition GenerateFromAudioData (s : Subtitler) (sched : list nat) (inputs : list Input)
    (w : world) : option (world * option error) :=
  let w0 := makeChan (length inputs) w in
  let '(w1, gs) := run s sched w0 (List.map (fun inp => (inp, PCreate)) inputs) in
  if forallb done gs then
    (* close(errCh); for e := range errCh { err = fmt.Errorf("%w", e) } *)
    let err := List.fold_left (fun (_ : option error) e => Some e) (errCh w1) None in
    match err with
    | Some e => Some (w1, Some (wrap "error while processing files" e))
    | None => Some (w1, None)
    end
  else None.

(** New returns a new subtitle generator.  The logger is the trace of the
    world. *)
Definition New (sampleRate outputDir tmpDir : string)
    (stripper :
       audiostripper.ExtractAudioInput -> E * node -> (E * node) * result audiostripper.ExtractAudioOutput)
    (whisperCli : whisperclient.TranscribeAudioInput -> E -> E * result bytes)
  : result Subtitler :=
  Ok {| sampleRate := sampleRate;
        outputDir := outputDir;
        tmpDir := tmpDir;
        audioStripper := stripper;
        whisperClient := whisperCli |}.

End WithCollaborators.
Arguments world : clear implicits.
Arguments Subtitler : clear implicits.

End subtitles.

(** ** Package [path/filepath]: [WalkDir]

    "WalkDir walks the file tree rooted at root, calling fn for each file
    or directory in the tree, including root.  The files are walked in
    lexical order."  The callback and [os.ReadDir] see the file system as
    it is when they are called.  The callbacks of this program return
    [nil] or a fresh error, never [SkipDir] or [SkipAll], which are
    therefore not modelled.  The recursion is bounded by [fuel], the
    number of nested directories that can still be entered; [None] means
    that the bound was reached. *)

Module filepath.
Import GoOS.

Definition Base := GoPath.Base.
Definition Ext := GoPath.Ext.
Definition Join := GoPath.Join2.

(** [fn(path, d, err)] on the file system and the variables that the
    closure captured. *)
Definition WalkDirFunc (A : Type) : Type :=
  string -> option DirEntry -> option error -> node * A -> (node * A) * option error.

(** The loop of [walkDir] over the entries of a directory, [walk] being
    the call for one entry. *)
Fixpoint walkEntries {A : Type}
    (walk : string -> DirEntry -> node * A -> option ((node * A) * option error))
    (path : string) (dirs : list DirEntry) (st : node * A)
  : option ((node * A) * option error) :=
  match dirs with
  | [] => Some (st, None)
  | d1 :: dirs' =>
      match walk (Join path (Name d1)) d1 st with
      | None => None
      | Some (st', Some err) => Some (st', Some err)
      | Some (st', None) => walkEntries walk path dirs' st'
      end
  end.

Fixpoint walkDir {A : Type} (fuel : nat) (path : string) (d : DirEntry)
    (walkDirFn : WalkDirFunc A) (st : node * A) : option ((node * A) * option error) :=
  match fuel with
  | O => None
  | S fuel' =>
      match walkDirFn path (Some d) None st with
      | (st1, Some err) => Some (st1, Some err)
      | (st1, None) =>
          if negb (IsDir d) then Some (st1, None)
          else
            match ReadDir path (fst st1) with
            | Err e =>
                (* Second call, to report ReadDir error. *)
                Some (walkDirFn path (Some d) (Some e) st1)
            | Ok dirs =>
                walkEntries (fun p d1 => walkDir fuel' p d1 walkDirFn) path dirs st1
            end
      end
  end.

Fixpoint depth (n : node) : nat :=
  match n with
  | File _ => O
  | Dir es => S (list_max (List.map (fun e => depth (snd e)) es))
  end.

Definition WalkDir {A : Type} (root : string) (fn : WalkDirFunc A) (st : node * A)
  : option ((node * A) * option error) :=
  match Lstat root (fst st) with
  | Err e => Some (fn root None (Some e) st)
  | Ok info => walkDir (S (depth (fst st))) root info fn st
  end.

End filepath.

(** ** Packages [net/http], [encoding/json], [archive/zip] *)

Module http.
Import GoOS.

Unset Elimination Schemes.
Inductive json :=
| JNull
| JString (s : string)
| JArray (elems : list json)
| JObject (members : list (string * json)).
Set Elimination Schemes.

(** What a handler writes to the body: text, a value sent through
    [json.Encoder.Encode], the bytes of a zip archive with the given
    entries, or the content of a file. *)
Inductive chunk :=
| Text (s : string)
| JSON (v : json)
| ZipArchive (entries : list (string * bytes))
| Bytes (b : bytes).

(** [http.ResponseWriter]: the header map that the handler fills, the
    status line with the headers that went out with it, and the body. *)
Record ResponseWriter := {
  header : gmap string string;
  wrote : option (nat * gmap string string);
  body : list chunk
}.

Definition newResponseWriter : ResponseWriter :=
  {| header := ∅; wrote := None; body := [] |}.

Definition SetHeader (k v : string) (w : ResponseWriter) : ResponseWriter :=
  {| header := <[k := v]> (header w); wrote := wrote w; body := body w |}.

(** Only the first [WriteHeader] counts. *)
Definition WriteHeader (code : nat) (w : ResponseWriter) : ResponseWriter :=
  match wrote w with
  | Some _ => w
  | None => {| header := header w; wrote := Some (code, header w); body := body w |}
  end.

(** "If WriteHeader has not yet been called, Write calls
    WriteHeader(http.StatusOK) before writing the data." *)
Definition Write (c : chunk) (w : ResponseWriter) : ResponseWriter :=
  let w' := WriteHeader 200 w in
  {| header := header w'; wrote := wrote w'; body := body w' ++ [c] |}.

Definition StatusBadRequest : nat := 400.
Definition StatusNotFound : nat := 404.
Definition StatusInternalServerError : nat := 500.
Definition StatusMovedPermanently : nat := 301.

(** [http.Error]. *)
Definition Error (w : ResponseWriter) (msg : string) (code : nat) : ResponseWriter :=
  Write (Text (msg +:+ String "010" EmptyString))
    (WriteHeader code
       (SetHeader "X-Content-Type-Options" "nosniff"
          (SetHeader "Content-Type" "text/plain; charset=utf-8" w))).

(** The response that the server sends when the handler returns: status
    200 and the headers set so far when nothing was written. *)
Record Response := { Status : nat; Headers : gmap string string; Body : list chunk }.

Definition finish (w : ResponseWriter) : Response :=
  match wrote w with
  | Some (code, h) => {| Status := code; Headers := h; Body := body w |}
  | None => {| Status := 200; Headers := header w; Body := [] |}
  end.

(** One part of a multipart body: the form field, the file name of its
    content disposition (empty for a plain value) and the content. *)
Record Part := { FormName : string; PartFileName : string; Content : bytes }.

(** A request: its path, the value of the route parameter [name], and
    the multipart body ([Malformed] when it does not parse). *)
Record Request := {
  URLPath : string;
  URLParam : string;
  Malformed : bool;
  Parts : list Part
}.

(** The payload of the body; the encoded body is at least this long. *)
Definition payloadSize (r : Request) : N :=
  List.fold_right (fun p n => (N.of_nat (length (Content p)) + n)%N) 0%N (Parts r).

(** [multipart.FileHeader]: [OnDisk] when the content went to a
    temporary file. *)
Record FileHeader := { Filename : string; Size : Z; content : bytes; OnDisk : bool }.

Definition ErrMessageTooLarge : error := "multipart: message too large".

(** [multipart.Reader.ReadForm(maxMemory)]: "The whole request body is
    parsed and up to a total of maxMemory bytes of its file parts are
    stored in memory, with the remainder stored on disk in temporary
    files."  Values that are not files are kept in memory, within
    [maxMemory] plus 10 MB.  [Part.FileName] is the base name of the file
    name sent.  The reader's limits on the number of parts and on the
    size of the part headers are left out. *)
Fixpoint readForm (parts : list Part) (maxFileMemoryBytes maxMemoryBytes : Z)
    (files : gmap string (list FileHeader)) : result (gmap string (list FileHeader)) :=
  match parts with
  | [] => Ok files
  | p :: parts' =>
      let n := Z.of_nat (length (Content p)) in
      if GoPath.isEmpty (FormName p) then readForm parts' maxFileMemoryBytes maxMemoryBytes files
      else if GoPath.isEmpty (PartFileName p) then
        if (maxMemoryBytes <? n)%Z then Err ErrMessageTooLarge
        else readForm parts' maxFileMemoryBytes (maxMemoryBytes - n) files
      else
        let filename := GoPath.Base (PartFileName p) in
        let old := default [] (files !! FormName p) in
        if (maxFileMemoryBytes <? n)%Z then
          (* too big, write to disk *)
          let fh := {| Filename := filename; Size := n; content := Content p; OnDisk := true |} in
          readForm parts' maxFileMemoryBytes maxMemoryBytes (<[FormName p := old ++ [fh]]> files)
        else
          let fh := {| Filename := filename; Size := n; content := Content p; OnDisk := false |} in
          readForm parts' (maxFileMemoryBytes - n) (maxMemoryBytes - n)
            (<[FormName p := old ++ [fh]]> files)
  end.

(** [r.ParseMultipartForm(maxMemory)]; the result is [r.MultipartForm.File]. *)
Definition ParseMultipartForm (r : Request) (maxMemory : Z)
  : result (gmap string (list FileHeader)) :=
  if Malformed r then Err "no multipart boundary param in Content-Type"
  else readForm (Parts r) maxMemory (maxMemory + 10 * 2 ^ 20) ∅.

(** [FileHeader.Open]: a reader of the stored content. *)
Definition Open (fh : FileHeader) : result subtitles.Reader :=
  Ok {| subtitles.rbytes := content fh; subtitles.rerr := None |}.

(** [http.ServeFile(w, r, name)] for a request without range or
    condition headers: "invalid URL path" for a URL with a [..] element, a
    redirect for a URL that ends in [/index.html], 404 for a missing file,
    a redirect to the URL with a final slash for a directory, the content
    otherwise.  The headers that describe the content (length,
    modification time, accepted ranges) are left out; a Content-Type that
    is set already is kept. *)
Definition containsDotDot (p : string) : bool :=
  List.existsb (String.eqb "..") (GoString.Split p).

(** [localRedirect(w, r, newPath)]. *)
Definition localRedirect (w : ResponseWriter) (newPath : string) : ResponseWriter :=
  WriteHeader StatusMovedPermanently (SetHeader "Location" newPath w).

Definition ServeFile (w : ResponseWriter) (r : Request) (name : string) (fs : node)
  : ResponseWriter :=
  if containsDotDot (URLPath r) then Error w "invalid URL path" StatusBadRequest
  else if GoString.HasSuffix (URLPath r) "/index.html" then localRedirect w "./"
  else
    match GoOS.lookup name fs with
    | None => Error w "404 page not found" StatusNotFound
    | Some (Dir es) =>
        match lastByte (URLPath r) with
        | Some "/"%char =>
            (* the index page or the listing of the directory *)
            Write (Text (GoString.Join (List.map Name (sortByName (List.map entryOf es)))))
              (SetHeader "Content-Type" "text/html; charset=utf-8" w)
        | _ => localRedirect w (GoPath.Base (URLPath r) +:+ "/")
        end
    | Some (File data) => Write (Bytes data) w
    end.

End http.

Module zip.
(** [zip.Writer] on a buffer: the entries written so far, the last one
    first, and whether [Close] was called. *)
Record Writer := { entries : list (string * bytes); closed : bool }.

Definition NewWriter : Writer := {| entries := []; closed := false |}.

Definition uint16max : nat := 256 * 256 - 1.

(** [Create] "adds a file to the zip file using the provided name". *)
Definition Create (name : string) (z : Writer) : result Writer :=
  if closed z then Err "zip: write to closed file"
  else if (uint16max <? String.length name)%nat then Err "zip: FileHeader.Name too long"
  else Ok {| entries := (name, []) :: entries z; closed := closed z |}.

(** [io.Copy(zipEntry, data)] on the entry created last. *)
Definition Copy (data : bytes) (z : Writer) : Writer :=
  match entries z with
  | (name, old) :: rest => {| entries := (name, old ++ data) :: rest; closed := closed z |}
  | [] => z
  end.

Definition Close (z : Writer) : Writer * option error :=
  if closed z then (z, Some "zip: writer closed twice")
  else ({| entries := entries z; closed := true |}, None).

(** [buffer.Bytes()] after [Close]: the archive, entries in the order of
    their creation. *)
Definition archive (z : Writer) : list (string * bytes) := List.rev (entries z).
End zip.

(** ** Package [web]: the handlers *)

Module web.
Import GoOS http.

Definition subtitlesDir : string := "subtitles".
Definition maxFileSize : Z := Z.shiftl 1 30. (* 1GB *)

(** What a handler works on: the file system, the response writer and
    the lines of the logger. *)
Record conn := { w : ResponseWriter; logs : list string }.

Definition newConn : conn := {| w := newResponseWriter; logs := [] |}.
Definition onWriter (f : ResponseWriter -> ResponseWriter) (c : conn) : conn :=
  {| w := f (w c); logs := logs c |}.

(** [h.e(w, message, err, statusCode)]. *)
Definition e (c : conn) (message : string) (err : option error) (statusCode : nat) : conn :=
  {| w := Error (w c) message statusCode;
     logs := match err with
             | Some err => logs c ++ ["Responding with error: " +:+ err]
             | None => logs c ++ ["Responding with error: " +:+ message]
             end |}.

(** A Go slice of strings: [nil] or a list. *)
Definition slice := option (list string).
Definition append (s : slice) (x : string) : slice :=
  match s with
  | None => Some [x]
  | Some l => Some (l ++ [x])
  end.
Definition encodeSlice (s : slice) : json :=
  match s with
  | None => JNull
  | Some l => JArray (List.map JString l)
  end.

(** [listSubtitlesResponse] and its encoding. *)
Record listSubtitlesResponse := { Subtitles : slice }.
Definition encodeList (r : listSubtitlesResponse) : json :=
  JObject [("subtitles", encodeSlice (Subtitles r))].

Section Upload.
(** The [subtitler] interface, with whatever state it works on. *)
Context {S : Type}.
Variable GenerateFromAudioData : list subtitles.Input -> S -> S * option error.

(** The loop over [files] that opens each part and builds the inputs. *)
Fixpoint openAll (files : list FileHeader) (acc : list subtitles.Input)
  : result (list subtitles.Input) :=
  match files with
  | [] => Ok acc
  | header :: files' =>
      match Open header with
      | Err err => Err err
      | Ok uploadedFile =>
          openAll files'
            (acc ++ [{| subtitles.FileName := Filename header;
                        subtitles.Data := uploadedFile;
                        subtitles.Language := "pt" (* hardcoded for now *) |}])
      end
  end.

Definition createSubtitles (r : Request) (st : S * conn) : S * conn :=
  let '(s, c) := st in
  match ParseMultipartForm r maxFileSize with
  | Err err => (s, e c "Failed to parse the request" (Some err) StatusBadRequest)
  | Ok form =>
      match form !! "file" with
      | None | Some [] => (s, e c "No file part in request" None StatusBadRequest)
      | Some files =>
          match openAll files [] with
          | Err err =>
              (s, e c "Failed to open the uploaded file" (Some err) StatusInternalServerError)
          | Ok genSubtitleInput =>
              match GenerateFromAudioData genSubtitleInput s with
              | (s', Some err) =>
                  (s', e c "Failed to generate subtitles" (Some err) StatusInternalServerError)
              | (s', None) =>
                  let response := JObject [("message", JString "Subtitles generated successfully")] in
                  (s', onWriter (fun w => Write (JSON response)
                                            (SetHeader "Content-Type" "application/json" w)) c)
              end
          end
      end
  end.
End Upload.

(** The callbacks check [err] first; [file] is [nil] only together with
    an error. *)
Definition walkErr (err : error) : error := wrap "could not walk in the directory" err.

Definition listSubtitlesFn : filepath.WalkDirFunc listSubtitlesResponse :=
  fun filePath file err st =>
    match err, file with
    | Some err, _ => (st, Some (walkErr err))
    | None, None => (st, None)
    | None, Some file =>
        if IsDir file then (st, None)
        else if negb (String.eqb (filepath.Ext (Name file)) ".srt") then (st, None)
        else
          let name := filepath.Base filePath in
          ((fst st, {| Subtitles := append (Subtitles (snd st)) name |}), None)
    end.

Definition listSubtitles (r : Request) (st : node * conn) : option (node * conn) :=
  let '(fs, c) := st in
  match filepath.WalkDir subtitlesDir listSubtitlesFn (fs, {| Subtitles := None |}) with
  | None => None
  | Some ((fs', listResp), err) =>
      let c1 := match err with
                | Some err => e c "Failed to compile zip file" (Some err) StatusInternalServerError
                | None => c
                end in
      Some (fs', onWriter (fun w => Write (JSON (encodeList listResp))
                                      (SetHeader "Content-Type" "application/json" w)) c1)
  end.

Definition subtitleFileFn (r : Request) (subName : string) : filepath.WalkDirFunc conn :=
  fun filePath file err st =>
    match err, file with
    | Some err, _ => (st, Some (walkErr err))
    | None, None => (st, None)
    | None, Some file =>
        if String.eqb (Name file) subName then
          ((fst st,
            onWriter (fun w =>
              ServeFile
                (SetHeader "Content-Disposition" ("attachment; filename=" +:+ subName)
                   (SetHeader "Content-Type" "application/x-subrip" w))
                r filePath (fst st)) (snd st)), None)
        else (st, None)
    end.

Definition subtitleFile (r : Request) (st : node * conn) : option (node * conn) :=
  let subName := URLParam r in
  match filepath.WalkDir subtitlesDir (subtitleFileFn r subName) st with
  | None => None
  | Some ((fs', c), Some err) =>
      Some (fs', e c "Failed to compile zip file" (Some err) StatusInternalServerError)
  | Some ((fs', c), None) => Some (fs', c)
  end.

Definition deleteSubtitleFn (subName : string) : filepath.WalkDirFunc conn :=
  fun filePath file err st =>
    match err, file with
    | Some err, _ => (st, Some (walkErr err))
    | None, None => (st, None)
    | None, Some file =>
        if String.eqb (Name file) subName then
          match Remove filePath (fst st) with
          | Err err => (st, Some (wrap "could not remove subtitle" err))
          | Ok fs' => ((fs', snd st), None)
          end
        else (st, None)
    end.

Definition deleteSubtitle (r : Request) (st : node * conn) : option (node * conn) :=
  let subName := URLParam r in
  match filepath.WalkDir subtitlesDir (deleteSubtitleFn subName) st with
  | None => None
  | Some ((fs', c), Some err) =>
      Some (fs', e c "Failed to compile zip file" (Some err) StatusInternalServerError)
  | Some ((fs', c), None) => Some (fs', c)
  end.

Definition subtitlesZipFn : filepath.WalkDirFunc zip.Writer :=
  fun filePath file err st =>
    match err, file with
    | Some err, _ => (st, Some (walkErr err))
    | None, None => (st, None)
    | None, Some file =>
        if IsDir file then (st, None)
        else if negb (String.eqb (filepath.Ext (Name file)) ".srt") then (st, None)
        else
          let name := filepath.Base filePath in
          match zip.Create name (snd st) with
          | Err err => (st, Some (wrap "could not create zip entry" err))
          | Ok zipEntry =>
              match GoOS.Open filePath (fst st) with
              | Err err => ((fst st, zipEntry), Some (wrap "could not open file" err))
              | Ok data =>
                  match ReadAll data with
                  | Err err => ((fst st, zipEntry), Some (wrap "could not copy data" err))
                  | Ok content => ((fst st, zip.Copy content zipEntry), None)
                  end
              end
          end
    end.

Definition subtitlesZip (r : Request) (st : node * conn) : option (node * conn) :=
  let '(fs, c) := st in
  let zipWritter := zip.NewWriter in
  match filepath.WalkDir subtitlesDir subtitlesZipFn (fs, zipWritter) with
  | None => None
  | Some ((fs', zipWritter), err) =>
      let c1 := match err with
                | Some err => e c "Failed to compile zip file" (Some err) StatusInternalServerError
                | None => c
                end in
      match zip.Close zipWritter with
      | (_, Some err) =>
          Some (fs', onWriter (fun w => Error w err StatusInternalServerError) c1)
      | (zipWritter, None) =>
          (* the deferred second Close fails and its error is dropped *)
          Some (fs', onWriter (fun w =>
                       Write (ZipArchive (zip.archive zipWritter))
                         (SetHeader "Content-Disposition" "attachment; filename=legendas.zip"
                            (SetHeader "Content-Type" "application/zip" w))) c1)
      end
  end.

End web.

(** ** Package [main]: the start of the program

    [main] parses the flags, prepares the two directories, builds the
    subtitler and hands it to the web application.  What is modelled is
    the part between the parsed flags and the subtitler; the web
    application that [main] starts and stops afterwards is not. *)

Module main.
Import GoOS.

Definition sampleRate : string := "3800".
Definition whisperAIModel : string := "whisper-1".
Definition subtitlesDir : string := "subtitles".
Definition tmpDir : string := "tmp".

(** The process: its file system and the lines of its logger, each a
    level and a message. *)
Definition proc : Type := node * list (string * string).

Definition logLine (level msg : string) (st : proc) : proc :=
  (fst st, snd st ++ [(level, msg)]).

(** How a function ends that may call [os.Exit]. *)
Inductive outcome (A : Type) : Type :=
| Returns (a : A) (st : proc)
| Exits (code : nat) (st : proc).
Arguments Returns {A} a st.
Arguments Exits {A} code st.

Definition makeDir (path : string) (st : proc) : outcome unit :=
  let err := match Stat path (fst st) with
             | Ok _ => None
             | Err err => Some err
             end in
  if IsNotExist err then
    let st1 := logLine "INFO" "Creating directory" st in
    match Mkdir path (fst st1) with
    | Err err => Exits 2 (logLine "ERROR" "Could not create directory" st1)
    | Ok fs' => Returns tt (fs', snd st1)
    end
  else Returns tt st.

Section Main.
Context {E : Type}.
(** [audiostripper.New(extractCmd)] and [whisperclient.New(client, key,
    model)], which live in other repositories. *)
Variable audioStripper :
  audiostripper.ExtractAudioInput -> E * node -> (E * node) * result audiostripper.ExtractAudioOutput.
Variable whisperAIClient :
  string -> string -> whisperclient.TranscribeAudioInput -> E -> E * result bytes.

Definition main (openAIKey : string) (st : proc) : outcome (subtitles.Subtitler E) :=
  if String.eqb openAIKey "" then
    Exits 1 (logLine "ERROR" "OpenAI API key is required" st)
  else
    match makeDir subtitlesDir st with
    | Exits code st1 => Exits code st1
    | Returns _ st1 =>
        match makeDir tmpDir st1 with
        | Exits code st2 => Exits code st2
        | Returns _ st2 =>
            match subtitles.New sampleRate subtitlesDir tmpDir audioStripper
                    (whisperAIClient openAIKey whisperAIModel) with
            | Err err => Exits 3 (logLine "ERROR" "Could not initialize subtitles" st2)
            | Ok subtitler => Returns subtitler st2
            end
        end
    end.
End Main.

End main.

(** ** The specification's reading of the subtitle path *)

Module Spec.

Fixpoint take (n : nat) (s : string) : string :=
  match n, s with
  | S n', String a s' => String a (take n' s')
  | _, _ => EmptyString
  end.

(** The name with its extension replaced by [".srt"]. *)
Definition replaceExt (name : string) : string :=
  take (String.length name - String.length (GoPath.Ext name)) name +:+ ".srt".

(** "joining the output directory with the original filename's base name,
    extension replaced by .srt". *)
Definition subtitlePathSpec (dir name : string) : string :=
  GoPath.Join2 dir (replaceExt (GoPath.Base name)).

(** "entries located directly in the output directory whose extension is
    .srt": their names. *)
Definition directSrtNames (out : GoOS.node) : list string :=
  match out with
  | GoOS.Dir es =>
      List.filter (fun name => String.eqb (GoPath.Ext name) ".srt") (List.map fst es)
  | GoOS.File _ => []
  end.

End Spec.

(** ** Concrete collaborators, worlds and requests *)

Module Scenario.
Import GoOS subtitles.

Definition b (s : string) : bytes := String.list_byte_of_string s.

(** A transcoder that writes the audio next to the video, as [.wav]. *)
Definition strip (i : audiostripper.ExtractAudioInput) (st : unit * node)
  : (unit * node) * result audiostripper.ExtractAudioOutput :=
  let out := audiostripper.FilePath i +:+ ".wav" in
  match lookup (audiostripper.FilePath i) (snd st) with
  | Some (File d) =>
      match Create out (snd st) with
      | Ok f1 => ((fst st, Write out d f1), Ok {| audiostripper.OutFilePath := out |})
      | Err er => (st, Err er)
      end
  | _ => (st, Err "exit status 1")
  end.

(** A transcription service that answers with a line naming the file. *)
Definition whisper (i : whisperclient.TranscribeAudioInput) (st : unit) : unit * result bytes :=
  (st, Ok (b ("SRT of " +:+ whisperclient.Name i))).

Definition s0 : Subtitler unit :=
  {| sampleRate := "3800"; outputDir := "subtitles"; tmpDir := "tmp";
     audioStripper := strip; whisperClient := whisper |}.

Definition fs0 : node := Dir [("subtitles", Dir []); ("tmp", Dir [])].

Definition w0 : world unit :=
  {| fs := fs0; rnd := fun k => N.of_nat (7 + k); ext := tt;
     errCh := []; errCap := 0; trace := [] |}.

Definition job (name content : string) (lang : string) : Input :=
  {| FileName := name; Data := {| rbytes := b content; rerr := None |}; Language := lang |}.

(** An upload whose stream breaks after three bytes. *)
Definition jobBroken : Input :=
  {| FileName := "b.mov";
     Data := {| rbytes := b "vid"; rerr := Some "unexpected EOF" |};
     Language := "pt" |}.

(** Output directories. *)
Definition fsOne : node := Dir [("subtitles", Dir [("a.srt", File (b "A"))]); ("tmp", Dir [])].
Definition outNested : node :=
  Dir [("sub", Dir [("x.srt", File (b "X"))]); ("a.srt", File (b "A"))].
Definition fsNested : node := Dir [("subtitles", outNested)].
(** The same files, handed out by the operating system in another order. *)
Definition outNested' : node :=
  Dir [("a.srt", File (b "A")); ("sub", Dir [("x.srt", File (b "X"))])].
Definition fsNested' : node := Dir [("subtitles", outNested')].

Definition get (name : string) : http.Request :=
  {| http.URLPath := "/subtitles/" +:+ name; http.URLParam := name;
     http.Malformed := false; http.Parts := [] |}.

(** An upload of one file of 2^30 + 1 bytes. *)
Definition bigContent : bytes := List.repeat "000"%byte (N.to_nat (2 ^ 30 + 1)).
Definition bigUpload : http.Request :=
  {| http.URLPath := "/upload"; http.URLParam := "";
     http.Malformed := false;
     http.Parts := [{| http.FormName := "file"; http.PartFileName := "big.mp4";
                       http.Content := bigContent |}] |}.
Definition bigInput : Input :=
  {| FileName := "big.mp4"; Data := {| rbytes := bigContent; rerr := None |}; Language := "pt" |}.

(** A subtitler that only records the calls it receives. *)
Definition recorder (inputs : list Input) (calls : list (list Input))
  : list (list Input) * option error :=
  (calls ++ [inputs], None).

End Scenario.

(** ** Vocabulary for the properties of the pipeline *)

Module PipelineDefs.
Import GoOS subtitles.

Definition withLanguage (lang : string) (inp : Input) : Input :=
  {| FileName := FileName inp; Data := Data inp; Language := lang |}.

(** The goroutine has put its error on the channel. *)
Definition hasSent (c : pc) : bool :=
  match c with PReturn _ true | PDone true => true | _ => false end.
(** A stage of the goroutine has failed. *)
Definition hasFailed (c : pc) : bool :=
  match c with PSend _ _ | PReturn _ true | PDone true => true | _ => false end.
(** The goroutine has written its subtitle file. *)
Definition hasPersisted (c : pc) : bool :=
  match c with PReturn _ false | PDone false => true | _ => false end.
Definition isMark (ev : event) : bool :=
  match ev with EvFailed _ _ | EvPersisted _ _ _ => true | _ => false end.

Section WithCollaborators.
Context {E : Type}.

(** [w'] differs from [w] by effects on the file system and on the
    collaborators and by trace entries that are not marks. *)
Definition quiet (w w' : world E) : Prop :=
  errCh w' = errCh w /\ errCap w' = errCap w /\
  exists evs, trace w' = evs ++ trace w /\ Forall (fun ev => isMark ev = false) evs.

(** The trace grows by entries whose transcription calls satisfy [P]. *)
Definition calls (P : whisperclient.TranscribeAudioInput -> Prop) (w w' : world E) : Prop :=
  exists evs, trace w' = evs ++ trace w /\ forall ti, In (EvTranscribe ti) evs -> P ti.

End WithCollaborators.
End PipelineDefs.

(** ** Vocabulary for the properties of the directory walks *)

Module TreeDefs.
Import GoOS.

(** A name that a directory entry can bear: not empty, not ["."] or
    [".."], without a slash, at most 255 bytes. *)
Definition validName (c : string) : bool :=
  negb (String.eqb c "") && negb (String.eqb c ".") && negb (String.eqb c "..")
  && negb (GoString.ContainsByte "/" c) && (String.length c <=? 255)%nat.

Fixpoint nodupb (l : list string) : bool :=
  match l with
  | [] => true
  | x :: l' => negb (List.existsb (String.eqb x) l') && nodupb l'
  end.

(** A well-formed tree: in every directory the names are valid and
    distinct. *)
Fixpoint wf (n : node) : bool :=
  match n with
  | File _ => true
  | Dir es =>
      nodupb (List.map fst es)
      && List.forallb (fun e => validName (fst e) && wf (snd e)) es
  end.

(** The tree with the entries of every directory in the order of
    [os.ReadDir]. *)
Fixpoint sortTree (n : node) : node :=
  match n with
  | File d => File d
  | Dir es => Dir (sortBy fst (List.map (fun e => (fst e, sortTree (snd e))) es))
  end.

(** The calls of the callback on a walk of [n] found at [path] under
    the name [name], directories entered in the order of their entries:
    the path, the entry and the node. *)
Fixpoint visits (path name : string) (n : node) : list (string * DirEntry * node) :=
  (path, {| Name := name; IsDir := isDir n |}, n)
  :: match n with
     | File _ => []
     | Dir es => List.flat_map (fun e => visits (filepath.Join path (fst e)) (fst e) (snd e)) es
     end.

(** The callback on each visit in turn, until it returns an error. *)
Fixpoint runVisits {A : Type} (fn : filepath.WalkDirFunc A)
    (vs : list (string * DirEntry * node)) (st : node * A) : (node * A) * option error :=
  match vs with
  | [] => (st, None)
  | v :: vs' =>
      match fn (fst (fst v)) (Some (snd (fst v))) None st with
      | (st1, Some err) => (st1, Some err)
      | (st1, None) => runVisits fn vs' st1
      end
  end.

(** The regular files below [n]: the names on the way down from [n], and
    the content. *)
Fixpoint filesUnder (n : node) : list (list string * bytes) :=
  match n with
  | File d => [([], d)]
  | Dir es =>
      List.flat_map
        (fun e => List.map (fun pd => (fst e :: fst pd, snd pd)) (filesUnder (snd e))) es
  end.

(** The regular files below [n] by name and content; [name] is the name
    of [n] itself. *)
Definition namedFiles (name : string) (n : node) : list (string * bytes) :=
  List.map (fun pd => (List.last (fst pd) name, snd pd)) (filesUnder n).

(** Those whose name has the extension [".srt"]. *)
Definition isSrt (name : string) : bool := String.eqb (filepath.Ext name) ".srt".
Definition srtFiles (name : string) (n : node) : list (string * bytes) :=
  List.filter (fun nd => isSrt (fst nd)) (namedFiles name n).

Definition noSlash (c : string) : Prop := GoString.ContainsByte "/" c = false.

Definition keyLe {A : Type} (key : A -> string) (x y : A) : Prop :=
  String.le (key x) (key y).

(** Every visited entry satisfies [ok]. *)
Definition allOk (ok : DirEntry -> Prop) (vs : list (string * DirEntry * node)) : Prop :=
  Forall (fun v => ok (snd (fst v))) vs.

(** A step per regular file, folded over a list of files. *)
Definition foldFiles {A : Type} (stepf : string -> bytes -> A -> A)
    (l : list (string * bytes)) (a : A) : A :=
  List.fold_left (fun a nd => stepf (fst nd) (snd nd) a) l a.

(** What the callbacks of [listSubtitles] and [subtitlesZip] do with a
    regular file. *)
Definition sliceOf (l : list string) : web.slice :=
  match l with [] => None | _ => Some l end.

Definition listStep (name : string) (_ : bytes) (r : web.listSubtitlesResponse)
  : web.listSubtitlesResponse :=
  if isSrt name then {| web.Subtitles := web.append (web.Subtitles r) name |} else r.

Definition zipStep (name : string) (data : bytes) (z : zip.Writer) : zip.Writer :=
  if isSrt name
  then {| zip.entries := (name, data) :: zip.entries z; zip.closed := zip.closed z |}
  else z.

(** What can be observed at a path: nothing, a directory, or a file and
    its content. *)
Definition observe (cs : list string) (n : node) : option (option bytes) :=
  match lookupAt cs n with
  | None => None
  | Some (Dir _) => Some None
  | Some (File d) => Some (Some d)
  end.

(** Two trees hold the same files: the same observation at every path. *)
Definition sameFiles (t1 t2 : node) : Prop := forall cs, observe cs t1 = observe cs t2.

(** The paths of a walk as lists of names, and their lexical order: a
    path comes before its extensions, and otherwise the first names that
    differ decide. *)
Fixpoint pathLe (p q : list string) : bool :=
  match p, q with
  | [], _ => true
  | _ :: _, [] => false
  | a :: p', b :: q' => if String.eqb a b then pathLe p' q' else String.leb a b
  end.

Definition pathLeP (p q : list string) : Prop := pathLe p q = true.

(** The names of the entries below [n], at any depth. *)
Fixpoint entryNames (n : node) : list string :=
  match n with
  | File _ => []
  | Dir es => List.flat_map (fun e => fst e :: entryNames (snd e)) es
  end.

Fixpoint walkPaths (n : node) : list (list string) :=
  []
  :: match n with
     | File _ => []
     | Dir es => List.flat_map (fun e => List.map (cons (fst e)) (walkPaths (snd e))) es
     end.

End TreeDefs.

(** ** Vocabulary for the properties of names, uploads and marks *)

Module MoreDefs.
Import GoOS subtitles.

(** A name that [path.Clean] keeps as it is: not empty, not ["."] or
    [".."], without a slash. *)
Definition plainName (c : string) : bool :=
  negb (String.eqb c "") && negb (String.eqb c ".") && negb (String.eqb c "..")
  && negb (GoString.ContainsByte "/" c).

(** A directory that holds regular files only. *)
Definition flat (es : list (string * node)) : bool :=
  List.forallb (fun e => negb (isDir (snd e))) es.




(** The parts of a multipart body that are files of the form field
    ["file"]. *)
Definition isFilePart (p : http.Part) : bool :=
  String.eqb (http.FormName p) "file" && negb (GoPath.isEmpty (http.PartFileName p)).

(** The input that [createSubtitles] builds for a file part. *)
Definition inputOf (p : http.Part) : Input :=
  {| FileName := GoPath.Base (http.PartFileName p);
     Data := {| rbytes := http.Content p; rerr := None |};
     Language := "pt" |}.

(** The inputs of the calls to the transcription client among [evs], the
    newest first. *)
Definition transcribeCalls (evs : list event) : list whisperclient.TranscribeAudioInput :=
  List.flat_map (fun ev => match ev with EvTranscribe ti => [ti] | _ => [] end) evs.

(** The input that [createSubtitles] builds for a file header of the
    parsed form. *)
Definition toInput (h : http.FileHeader) : Input :=
  {| FileName := http.Filename h;
     Data := {| rbytes := http.content h; rerr := None |};
     Language := "pt" |}.

Section WithCollaborators.
Context {E : Type}.

(** The trace grows from [w] to [w'] by entries whose calls to the
    transcription client are [l]. *)
Definition callsExactly (l : list whisperclient.TranscribeAudioInput) (w w' : world E) : Prop :=
  exists evs, trace w' = evs ++ trace w /\ transcribeCalls evs = l.

End WithCollaborators.

End MoreDefs.

(** ** More worlds and requests *)

Module MoreScenario.
Import GoOS subtitles Scenario.

(** A working directory without the output directory. *)
Definition fsNoOutput : node := Dir [("tmp", Dir [])].

Definition reader (content : string) : Reader := {| rbytes := b content; rerr := None |}.



(** An upload with a plain value, two files of the field ["file"], the
    first sent with a directory, and a file of another field. *)
Definition upload : http.Request :=
  {| http.URLPath := "/upload"; http.URLParam := "";
     http.Malformed := false;
     http.Parts :=
       [{| http.FormName := "language"; http.PartFileName := ""; http.Content := b "pt" |};
        {| http.FormName := "file"; http.PartFileName := "clips/a.mp4"; http.Content := b "A" |};
        {| http.FormName := "cover"; http.PartFileName := "c.png"; http.Content := b "C" |};
        {| http.FormName := "file"; http.PartFileName := "b.mov"; http.Content := b "B" |}] |}.

(** A transcription client built from a key and a model. *)
Definition whisperWith (key model : string) := whisper.

End MoreScenario.

(** * Properties *)

Example sp1 : subtitles.subtitlePath "subtitles" "a.mp4" = "subtitles/a.srt".
Proof. vm_compute. reflexivity. Qed.
Example sp2 : subtitles.subtitlePath "subtitles" "video" = "subtitles/.srtvideo".
Proof. vm_compute. reflexivity. Qed.
Example sp3 : subtitles.subtitlePath "subtitles" "a.mp4.mp4" = "subtitles/a.srt.mp4".
Proof. vm_compute. reflexivity. Qed.
Example sp4 : subtitles.subtitlePath "subtitles" "d/a.mp4" = "subtitles/d/a.srt".
Proof. vm_compute. reflexivity. Qed.
Example sp5 : subtitles.subtitlePath "subtitles" "../a.mp4" = "a.srt".
Proof. vm_compute. reflexivity. Qed.
Example cl1 : map GoPath.Clean ["a//b/./c/"; ""; "/.."; "../a/.."; "../.."; "a/../.."; "/a/b/../c"]
  = ["a/b/c"; "."; "/"; ".."; "../.."; ".."; "/a/c"].
Proof. vm_compute. reflexivity. Qed.
Example bs1 : map GoPath.Base ["a/b"; "a/b/"; ""; "///"; "x"] = ["b"; "b"; "."; "/"; "x"].
Proof. vm_compute. reflexivity. Qed.
Example ex1 : map GoPath.Ext ["a.b/c"; "a.b/c.d.e"; "x."; ".x"; "abc"; "a.b/"] = [""; ".e"; "."; ".x"; ""; ""].
Proof. vm_compute. reflexivity. Qed.

(** ** The subtitle path *)

Section SubtitlePath.
Import subtitles Spec Scenario GoOS.

(** C3. [subtitlePath] replaces the first occurrence of the extension
    string, and puts [".srt"] in front of a name without extension: for
    the names ["video"] and ["a.mp4.mp4"] the Persist stage writes to
    ["subtitles/.srtvideo"] and ["subtitles/a.srt.mp4"], where the
    specification names ["subtitles/video.srt"] and
    ["subtitles/a.mp4.srt"]. *)
Theorem subtitlePath_replaces_first_occurrence :
  subtitlePath "subtitles" "video" = "subtitles/.srtvideo"
  /\ subtitlePathSpec "subtitles" "video" = "subtitles/video.srt"
  /\ subtitlePath "subtitles" "a.mp4.mp4" = "subtitles/a.srt.mp4"
  /\ subtitlePathSpec "subtitles" "a.mp4.mp4" = "subtitles/a.mp4.srt"
  /\ (exists w',
        GenerateFromAudioData s0 (List.repeat 0%nat 8) [job "video" "data" "pt"] w0 = Some (w', None)
        /\ lookup "subtitles/.srtvideo" (fs w') = Some (File (b "SRT of video"))
        /\ lookup "subtitles/video.srt" (fs w') = None).
Proof.
  repeat split; try (vm_compute; reflexivity).
  eexists. split; [vm_compute; reflexivity|].
  split; vm_compute; reflexivity.
Qed.

End SubtitlePath.

(** ** Cleanup of the temporary files *)

Section Cleanup.
Import subtitles Scenario GoOS.

(** C1. When the copy of the upload into the temporary video file fails,
    [createVideoFile] returns the error without the path, [processFile]
    returns before it registers the deferred removal, and the file that
    [os.CreateTemp] created stays in the temp directory after the run. *)
Theorem temp_video_left_when_copy_fails :
  exists w',
    GenerateFromAudioData s0 [0; 0; 0]%nat [jobBroken] w0
    = Some (w', Some "error while processing files: could not create video file: could not write video file: unexpected EOF")
    /\ lookup "tmp/b.mov7" (fs w0) = None
    /\ lookup "tmp/b.mov7" (fs w') = Some (File (b "vid"))
    /\ fs w' = Dir [("subtitles", Dir []); ("tmp", Dir [("b.mov7", File (b "vid"))])].
Proof.
  eexists. split; [vm_compute; reflexivity|].
  repeat split; vm_compute; reflexivity.
Qed.

End Cleanup.

(** ** The handlers that look for one name *)

Section ByName.
Import web http Scenario GoOS.

(** C7. The walk hands the output directory itself to the callback, and
    the callback of [subtitleFile] compares names without looking at the
    kind of entry: for the name ["subtitles"], which no entry of the output
    directory bears, the handler sets the subtitle headers and serves the
    directory, a redirect with status 301. *)
Theorem subtitleFile_matches_the_output_directory :
  lookup "subtitles/subtitles" fsOne = None
  /\ exists c,
      subtitleFile (get "subtitles") (fsOne, newConn) = Some (fsOne, c)
      /\ Status (finish (w c)) = 301%nat
      /\ Headers (finish (w c)) !! "Content-Type" = Some "application/x-subrip"
      /\ Headers (finish (w c)) !! "Content-Disposition" = Some "attachment; filename=subtitles"
      /\ Headers (finish (w c)) !! "Location" = Some "subtitles/".
Proof.
  split; [vm_compute; reflexivity|].
  eexists. split; [vm_compute; reflexivity|].
  repeat split; vm_compute; reflexivity.
Qed.

(** C8. For the same reason [deleteSubtitle] calls [os.Remove] on the
    output directory when the name is ["subtitles"]: an empty output
    directory is removed and the walk then fails on reading it; one with
    files is kept and the removal fails.  Both answer with status 500,
    although no entry of the directory bears the name. *)
Theorem deleteSubtitle_matches_the_output_directory :
  (exists c,
      deleteSubtitle (get "subtitles") (fs0, newConn) = Some (Dir [("tmp", Dir [])], c)
      /\ Status (finish (w c)) = 500%nat
      /\ logs c = ["Responding with error: could not walk in the directory: no such file or directory"])
  /\ lookup "subtitles/subtitles" fsOne = None
  /\ (exists c,
      deleteSubtitle (get "subtitles") (fsOne, newConn) = Some (fsOne, c)
      /\ Status (finish (w c)) = 500%nat
      /\ logs c = ["Responding with error: could not remove subtitle: directory not empty"]).
Proof.
  split; [|split].
  - eexists. split; [vm_compute; reflexivity|]. split; vm_compute; reflexivity.
  - vm_compute; reflexivity.
  - eexists. split; [vm_compute; reflexivity|]. split; vm_compute; reflexivity.
Qed.

End ByName.

(** ** The pipeline under any schedule *)

Section Pipeline.
Import GoOS subtitles PipelineDefs.
Context {E : Type}.
Implicit Types (w : world E) (s : Subtitler E).


Lemma quiet_trans w1 w2 w3 : quiet w1 w2 -> quiet w2 w3 -> quiet w1 w3.
Proof.
  intros (H1 & H2 & e1 & H3 & H4) (H5 & H6 & e2 & H7 & H8).
  repeat split; try congruence.
  exists (e2 ++ e1). split.
  - rewrite H7, H3. by rewrite app_assoc.
  - by apply Forall_app.
Qed.

Lemma quiet_withRnd r w : quiet w (withRnd r w).
Proof. repeat split. exists []. split; [reflexivity|constructor]. Qed.
Lemma quiet_withExt e w : quiet w (withExt e w).
Proof. repeat split. exists []. split; [reflexivity|constructor]. Qed.

Lemma createVideoFile_quiet s name data w w1 r :
  createVideoFile s name data w = (w1, r) -> quiet w w1.
Proof.
  unfold createVideoFile, ioCopy. intros H.
  destruct (CreateTemp _ _ _ _) as [rn [[v f1]|e]]; simpl in H.
  - assert (quiet w (withFs (Write v (rbytes data) f1) (emit (EvLog "DEBUG" "Created video file") (withFs f1 (withRnd rn w))))) as Hq.
    { repeat split. exists [EvLog "DEBUG" "Created video file"]. split; [reflexivity|by constructor]. }
    destruct (rerr data); inversion H; subst; exact Hq.
  - inversion H; subst. apply quiet_withRnd.
Qed.

Lemma extractAudio_quiet s p r w w1 res :
  extractAudio s p r w = (w1, res) -> quiet w w1.
Proof.
  unfold extractAudio. intros H.
  destruct (audioStripper _ _ _) as [[e f] [out|err]]; inversion H; subst;
    (repeat split; exists []; split; [reflexivity|constructor]).
Qed.

Lemma requestSubtitle_quiet s d n r w w1 res :
  requestSubtitle s d n r w = (w1, res) -> quiet w w1.
Proof.
  unfold requestSubtitle. intros H.
  destruct (whisperClient _ _ _) as [e [out|err]]; inversion H; subst;
    (repeat split; eexists [_]; split; [reflexivity|by constructor]).
Qed.









(** *** The invariant of a run *)












End Pipeline.

(** ** The call to the transcription client *)

Section Transcribe.
Import GoOS subtitles PipelineDefs MoreDefs.
Context {E : Type}.
Implicit Types (w : world E) (s : Subtitler E).

Lemma calls_refl P w w' : trace w' = trace w -> calls P w w'.
Proof. intros H. exists []. split; [done|]. intros ? []. Qed.

Lemma calls_trans P w1 w2 w3 : calls P w1 w2 -> calls P w2 w3 -> calls P w1 w3.
Proof.
  intros (e1 & H1 & H2) (e2 & H3 & H4). exists (e2 ++ e1). split.
  - rewrite H3, H1. by rewrite app_assoc.
  - intros ti Hin. apply in_app_or in Hin as [?|?]; eauto.
Qed.

Lemma calls_emit P ev w :
  (forall ti, ev = EvTranscribe ti -> P ti) -> calls P w (emit ev w).
Proof. intros H. exists [ev]. split; [done|]. intros ti [->|[]]. by apply H. Qed.

Lemma calls_failed P e g st w : calls P w (send e (emit (EvFailed g st) w)).
Proof. exists [EvFailed g st]. split; [done|]. intros ti [?|[]]. discriminate. Qed.

Lemma calls_persisted P g p d f w : calls P w (emit (EvPersisted g p d) (withFs f w)).
Proof. exists [EvPersisted g p d]. split; [done|]. intros ti [?|[]]. discriminate. Qed.

Lemma calls_failed_fs P e g st f w : calls P w (send e (emit (EvFailed g st) (withFs f w))).
Proof. exists [EvFailed g st]. split; [done|]. intros ti [?|[]]. discriminate. Qed.

Lemma createVideoFile_calls P s name data w w1 r :
  createVideoFile s name data w = (w1, r) -> calls P w w1.
Proof.
  unfold createVideoFile, ioCopy. intros H.
  destruct (CreateTemp _ _ _ _) as [rn [[v f1]|e]]; simpl in H.
  - assert (calls P w (withFs (Write v (rbytes data) f1)
             (emit (EvLog "DEBUG" "Created video file") (withFs f1 (withRnd rn w))))) as Hq.
    { exists [EvLog "DEBUG" "Created video file"]. split; [done|]. intros ti [?|[]]. discriminate. }
    destruct (rerr data); inversion H; subst; exact Hq.
  - inversion H; subst. by apply calls_refl.
Qed.

Lemma extractAudio_calls P s p r w w1 res :
  extractAudio s p r w = (w1, res) -> calls P w w1.
Proof.
  unfold extractAudio. intros H.
  destruct (audioStripper _ _ _) as [[e f] [out|err]]; inversion H; subst; by apply calls_refl.
Qed.

Lemma removeFile_calls P s p w : calls P w (removeFile s p w).
Proof.
  unfold removeFile. destruct (Remove _ _); [by apply calls_refl|].
  apply calls_emit. discriminate.
Qed.

Lemma requestSubtitle_calls s d n r w w1 res :
  requestSubtitle s d n r w = (w1, res) ->
  trace w1 = EvTranscribe {| whisperclient.Name := n;
                             whisperclient.Language_ := whisperclient.LanguagePortuguese;
                             whisperclient.Format_ := whisperclient.FormatSrt;
                             whisperclient.Data := d |} :: trace w.
Proof.
  unfold requestSubtitle. intros H.
  destruct (whisperClient _ _ _) as [e [out|err]]; inversion H; subst; done.
Qed.

Lemma processFile_ignores_Language s g inp lang w :
  processFile s g (withLanguage lang inp) w = processFile s g inp w.
Proof. reflexivity. Qed.

Lemma transcribeCalls_app evs1 evs2 :
  transcribeCalls (evs1 ++ evs2) = transcribeCalls evs1 ++ transcribeCalls evs2.
Proof. unfold transcribeCalls. by rewrite List.flat_map_app. Qed.

Lemma callsExactly_trans l1 l2 w1 w2 w3 :
  callsExactly l1 w1 w2 -> callsExactly l2 w2 w3 -> callsExactly (l2 ++ l1) w1 w3.
Proof.
  intros (e1 & H1 & <-) (e2 & H2 & <-). exists (e2 ++ e1). split.
  - by rewrite H2, H1, app_assoc.
  - apply transcribeCalls_app.
Qed.

Lemma callsExactly_nil w w' evs :
  trace w' = evs ++ trace w -> transcribeCalls evs = [] -> callsExactly [] w w'.
Proof. intros. by exists evs. Qed.

Lemma createVideoFile_exact s name data w w1 r :
  createVideoFile s name data w = (w1, r) -> callsExactly [] w w1.
Proof.
  unfold createVideoFile, ioCopy. intros H.
  destruct (CreateTemp _ _ _ _) as [rn [[v f1]|e]]; simpl in H.
  - destruct (rerr data); simplify_eq;
      by apply (callsExactly_nil _ _ [EvLog "DEBUG" "Created video file"]).
  - simplify_eq. by apply (callsExactly_nil _ _ []).
Qed.

Lemma extractAudio_exact s p r w w1 res :
  extractAudio s p r w = (w1, res) -> callsExactly [] w w1.
Proof.
  unfold extractAudio. intros H.
  destruct (audioStripper _ _ _) as [[e f] [out|err]]; simplify_eq;
    by apply (callsExactly_nil _ _ []).
Qed.

Lemma removeFile_exact s p w :
  callsExactly [] w (removeFile s p w) /\ ext (removeFile s p w) = ext w.
Proof.
  unfold removeFile. destruct (Remove _ _); (split; [|done]).
  - by apply (callsExactly_nil _ _ []).
  - by apply (callsExactly_nil _ _ [EvLog "ERROR" "Could not remove file"]).
Qed.

Lemma requestSubtitle_exact s d n r w w1 res :
  requestSubtitle s d n r w = (w1, res) ->
  callsExactly [{| whisperclient.Name := n;
                   whisperclient.Language_ := whisperclient.LanguagePortuguese;
                   whisperclient.Format_ := whisperclient.FormatSrt;
                   whisperclient.Data := d |}] w w1
  /\ (ext w1, res)
     = (let '(e, res) := whisperClient s
                           {| whisperclient.Name := n;
                              whisperclient.Language_ := whisperclient.LanguagePortuguese;
                              whisperclient.Format_ := whisperclient.FormatSrt;
                              whisperclient.Data := d |} (ext w) in
        (e, match res with
            | Err err => Err (wrap "could not generate subtitle" err)
            | Ok subtitleData => Ok subtitleData
            end)).
Proof.
  unfold requestSubtitle. intros H.
  destruct (whisperClient _ _ _) as [e [out|err]]; simplify_eq; (split; [|done]);
    by eexists [_].
Qed.

(** When the three stages before it succeed, [processFile] calls the
    transcription client, once, and keeps the state in which the client
    leaves the service. *)
Lemma processFile_calls_client s g inp w w1 v w2 a d :
  createVideoFile s (FileName inp) (Data inp) w = (w1, Ok v) ->
  extractAudio s v (sampleRate s) w1 = (w2, Ok a) ->
  readFile a (fs w2) = Ok d ->
  callsExactly [{| whisperclient.Name := FileName inp;
                   whisperclient.Language_ := whisperclient.LanguagePortuguese;
                   whisperclient.Format_ := whisperclient.FormatSrt;
                   whisperclient.Data := d |}] w (processFile s g inp w)
  /\ ext (processFile s g inp w)
     = fst (whisperClient s
              {| whisperclient.Name := FileName inp;
                 whisperclient.Language_ := whisperclient.LanguagePortuguese;
                 whisperclient.Format_ := whisperclient.FormatSrt;
                 whisperclient.Data := d |} (ext w2)).
Proof.
  intros Hc Hx Hr. unfold processFile. rewrite Hc, Hx, Hr.
  pose proof (createVideoFile_exact _ _ _ _ _ _ Hc) as C1.
  pose proof (extractAudio_exact _ _ _ _ _ _ Hx) as C2.
  destruct (requestSubtitle s d (FileName inp) (sampleRate s) w2) as [w3 res] eqn:Hq.
  destruct (requestSubtitle_exact _ _ _ _ _ _ _ Hq) as [C3 He].
  match goal with |- context [removeFile s a ?x] => set (wr := x) end.
  assert (callsExactly [] w3 wr /\ ext wr = ext w3) as [C4 He4].
  { unfold wr. destruct res as [sub|e].
    - destruct (writeFile _ _ _) as [f [e|]]; (split; [|done]).
      + by apply (callsExactly_nil _ _ [EvFailed g Persist]).
      + by eapply (callsExactly_nil _ _ [_]).
    - split; [|done]. by apply (callsExactly_nil _ _ [EvFailed g Transcribe]). }
  destruct (removeFile_exact s a wr) as [C5 He5].
  destruct (removeFile_exact s v (removeFile s a wr)) as [C6 He6].
  split.
  - pose proof (callsExactly_trans _ _ _ _ _ C1
                  (callsExactly_trans _ _ _ _ _ C2
                     (callsExactly_trans _ _ _ _ _ C3
                        (callsExactly_trans _ _ _ _ _ C4
                           (callsExactly_trans _ _ _ _ _ C5 C6))))) as H.
    exact H.
  - rewrite He6, He5, He4.
    destruct (whisperClient s _ (ext w2)) as [e r0]. by simplify_eq/=.
Qed.

(** C6. When the three stages before it have succeeded, [processFile]
    calls the transcription client, exactly once, with the input's file
    name, the language Portuguese, the format SRT and the bytes read from
    the audio file that the extractor returned, and the service is left in
    the state in which that call leaves it.  Every call of the client that
    [processFile] makes carries these four values, and the input's
    [Language] field changes nothing in the run. *)
Theorem transcribe_input_is_fixed s g inp w :
  (forall lang, processFile s g (withLanguage lang inp) w = processFile s g inp w)
  /\ exists new, trace (processFile s g inp w) = new ++ trace w
     /\ (forall ti, In (EvTranscribe ti) new ->
          whisperclient.Name ti = FileName inp
          /\ whisperclient.Language_ ti = whisperclient.LanguagePortuguese
          /\ whisperclient.Format_ ti = whisperclient.FormatSrt
          /\ exists w1 videoPath w2 audioFilePath,
               createVideoFile s (FileName inp) (Data inp) w = (w1, Ok videoPath)
               /\ extractAudio s videoPath (sampleRate s) w1 = (w2, Ok audioFilePath)
               /\ readFile audioFilePath (fs w2) = Ok (whisperclient.Data ti))
     /\ (forall w1 videoPath w2 audioFilePath audioData,
          createVideoFile s (FileName inp) (Data inp) w = (w1, Ok videoPath) ->
          extractAudio s videoPath (sampleRate s) w1 = (w2, Ok audioFilePath) ->
          readFile audioFilePath (fs w2) = Ok audioData ->
          transcribeCalls new
          = [{| whisperclient.Name := FileName inp;
                whisperclient.Language_ := whisperclient.LanguagePortuguese;
                whisperclient.Format_ := whisperclient.FormatSrt;
                whisperclient.Data := audioData |}]
          /\ ext (processFile s g inp w)
             = fst (whisperClient s
                      {| whisperclient.Name := FileName inp;
                         whisperclient.Language_ := whisperclient.LanguagePortuguese;
                         whisperclient.Format_ := whisperclient.FormatSrt;
                         whisperclient.Data := audioData |} (ext w2))).
Proof.
  split; [intros lang; apply processFile_ignores_Language|].
  set (P := fun ti => whisperclient.Name ti = FileName inp
          /\ whisperclient.Language_ ti = whisperclient.LanguagePortuguese
          /\ whisperclient.Format_ ti = whisperclient.FormatSrt
          /\ exists w1 videoPath w2 audioFilePath,
               createVideoFile s (FileName inp) (Data inp) w = (w1, Ok videoPath)
               /\ extractAudio s videoPath (sampleRate s) w1 = (w2, Ok audioFilePath)
               /\ readFile audioFilePath (fs w2) = Ok (whisperclient.Data ti)).
  assert (calls P w (processFile s g inp w)) as (new & Ht & Hnew).
  { unfold processFile.
    destruct (createVideoFile _ _ _ _) as [w1 [v|e]] eqn:Hc.
    2:{ eapply calls_trans; [by eapply createVideoFile_calls|apply calls_failed]. }
    eapply calls_trans; [by eapply createVideoFile_calls|].
    eapply calls_trans; [|apply removeFile_calls].
    destruct (extractAudio _ _ _ _) as [w2 [a|e]] eqn:Hx.
    2:{ eapply calls_trans; [by eapply extractAudio_calls|apply calls_failed]. }
    eapply calls_trans; [by eapply extractAudio_calls|].
    eapply calls_trans; [|apply removeFile_calls].
    destruct (readFile _ _) as [d|e] eqn:Hr.
    2:{ apply calls_failed. }
    assert (forall w3 res, requestSubtitle s d (FileName inp) (sampleRate s) w2 = (w3, res) ->
              calls P w2 w3) as Hreq.
    { intros w3 res H. apply requestSubtitle_calls in H.
      eexists [_]. split; [exact H|]. intros ti [[= <-]|[]]. unfold P. simpl.
      repeat split. by exists w1, v, w2, a. }
    destruct (requestSubtitle _ _ _ _ _) as [w3 [sub|e]] eqn:Hq.
    2:{ eapply calls_trans; [by eapply Hreq|apply calls_failed]. }
    eapply calls_trans; [by eapply Hreq|].
    destruct (writeFile _ _ _) as [f [e|]].
    - apply calls_failed_fs.
    - apply calls_persisted. }
  exists new. split; [done|]. split; [exact Hnew|].
  intros w1 v w2 a d Hc Hx Hr.
  destruct (processFile_calls_client s g inp w w1 v w2 a d Hc Hx Hr) as [(evs & Ht' & Hcalls) He].
  split; [|done].
  rewrite Ht in Ht'. apply app_inv_tail in Ht'. by subst.
Qed.

End Transcribe.

(** ** Paths built by the walk *)

Section Paths.
Import GoOS TreeDefs GoString.

Lemma append_cons a (s t : string) : String a s +:+ t = String a (s +:+ t).
Proof. reflexivity. Qed.
Lemma append_nil (t : string) : "" +:+ t = t.
Proof. reflexivity. Qed.

Lemma append_assoc (a b c : string) : (a +:+ b) +:+ c = a +:+ (b +:+ c).
Proof. induction a as [|x a IH]; [done|]. rewrite !append_cons. by rewrite IH. Qed.

Lemma validName_spec c :
  validName c = true ->
  c <> "" /\ c <> "." /\ c <> ".." /\ noSlash c /\ String.length c <= 255.
Proof.
  unfold validName. rewrite !andb_true_iff, !negb_true_iff, !String.eqb_neq.
  intros ((((? & ?) & ?) & ?) & ?%Nat.leb_le). done.
Qed.

Lemma ContainsByte_cons a c s :
  ContainsByte c (String a s) = false -> a <> c /\ ContainsByte c s = false.
Proof. simpl. destruct (Ascii.eqb_spec a c); [done|by split]. Qed.

Lemma Split_noSlash c : noSlash c -> Split c = [c].
Proof.
  unfold noSlash. induction c as [|a c IH]; [done|]. intros [Ha Hc]%ContainsByte_cons.
  simpl. destruct (Ascii.eqb_spec a "/"); [done|]. by rewrite IH.
Qed.

Lemma Split_app c s : noSlash c -> Split (c +:+ "/" +:+ s) = c :: Split s.
Proof.
  unfold noSlash. induction c as [|a c IH]; [done|]. intros [Ha Hc]%ContainsByte_cons.
  rewrite append_cons. simpl. destruct (Ascii.eqb_spec a "/"); [done|]. by rewrite IH.
Qed.

Lemma Split_Join cs : cs <> [] -> Forall noSlash cs -> Split (Join cs) = cs.
Proof.
  induction cs as [|c cs IH]; [done|]. intros _ Hall.
  apply Forall_cons in Hall as [Hc Hcs].
  destruct cs as [|c' cs]; [by apply Split_noSlash|].
  change (Join (c :: c' :: cs)) with (c +:+ "/" +:+ Join (c' :: cs)).
  rewrite Split_app by done. by rewrite IH.
Qed.

Lemma Join_snoc cs c : cs <> [] -> Join (cs ++ [c]) = Join cs +:+ "/" +:+ c.
Proof.
  induction cs as [|a cs IH]; [done|]. intros _.
  destruct cs as [|a' cs]; [done|].
  change (Join ((a :: a' :: cs) ++ [c])) with (a +:+ "/" +:+ Join ((a' :: cs) ++ [c])).
  rewrite IH by done.
  change (Join (a :: a' :: cs)) with (a +:+ "/" +:+ Join (a' :: cs)).
  by rewrite !append_assoc.
Qed.

Lemma isEmpty_false c : c <> "" -> GoPath.isEmpty c = false.
Proof. by destruct c. Qed.

Lemma Join_nonempty cs : cs <> [] -> Forall (fun c => c <> "") cs -> Join cs <> "".
Proof.
  destruct cs as [|c cs]; [done|]. intros _ [Hc _]%Forall_cons.
  destruct cs; [done|]. destruct c; [done|]. by rewrite (append_cons _ _ _ : Join (String _ _ :: _ :: _) = _).
Qed.

Lemma Forall_valid cs (P : string -> Prop) :
  (forall c, validName c = true -> P c) ->
  Forall (fun c => validName c = true) cs -> Forall P cs.
Proof. intros H Hall. by eapply Forall_impl. Qed.

Lemma HasPrefix_slash_Join cs :
  cs <> [] -> Forall (fun c => validName c = true) cs -> HasPrefix (Join cs) "/" = false.
Proof.
  destruct cs as [|c cs]; [done|]. intros _ [Hc _]%Forall_cons.
  apply validName_spec in Hc as (Hne & _ & _ & Hs & _).
  destruct c as [|a c]; [done|]. apply ContainsByte_cons in Hs as [Ha _].
  destruct cs; [|rewrite (append_cons _ _ _ : Join (String _ _ :: _ :: _) = _)];
    simpl; by destruct (Ascii.eqb_spec a "/").
Qed.

Lemma fold_cleanStep cs st :
  Forall (fun c => validName c = true) cs ->
  List.fold_left (GoPath.cleanStep false) cs st = List.rev cs ++ st.
Proof.
  revert st. induction cs as [|c cs IH]; intros st Hall; [done|].
  apply Forall_cons in Hall as [Hc Hcs]. simpl.
  apply validName_spec in Hc as (H1 & H2 & H3 & _).
  unfold GoPath.cleanStep at 2.
  apply String.eqb_neq in H1, H2, H3. rewrite H1, H2, H3. simpl.
  rewrite IH by done. by rewrite <- app_assoc.
Qed.

Lemma Clean_Join cs :
  cs <> [] -> Forall (fun c => validName c = true) cs -> GoPath.Clean (Join cs) = Join cs.
Proof.
  intros Hne Hall. unfold GoPath.Clean.
  rewrite HasPrefix_slash_Join by done.
  rewrite Split_Join; [|done|by eapply Forall_valid; [|done]; intros c (?&?&?&?&?)%validName_spec].
  rewrite fold_cleanStep by done. rewrite app_nil_r, rev_involutive.
  rewrite isEmpty_false; [done|].
  apply Join_nonempty; [done|]. eapply Forall_valid; [|done]. by intros c (?&?)%validName_spec.
Qed.

Lemma filepath_Join_snoc cs c :
  cs <> [] -> Forall (fun c => validName c = true) cs -> validName c = true ->
  filepath.Join (Join cs) c = Join (cs ++ [c]).
Proof.
  intros Hne Hall Hc. unfold filepath.Join, GoPath.Join2.
  rewrite isEmpty_false.
  2:{ apply Join_nonempty; [done|]. eapply Forall_valid; [|done]. by intros ? (?&?)%validName_spec. }
  rewrite isEmpty_false by (by apply validName_spec in Hc as (?&?)).
  rewrite <- Join_snoc by done. apply Clean_Join.
  - by destruct cs.
  - apply Forall_app. split; [done|]. by constructor.
Qed.

Lemma components_Join cs :
  cs <> [] -> Forall (fun c => validName c = true) cs -> components (Join cs) = Some cs.
Proof.
  intros Hne Hall. unfold components.
  rewrite isEmpty_false.
  2:{ apply Join_nonempty; [done|]. eapply Forall_valid; [|done]. by intros ? (?&?)%validName_spec. }
  rewrite HasPrefix_slash_Join by done.
  rewrite Split_Join; [|done|by eapply Forall_valid; [|done]; intros c (?&?&?&?&?)%validName_spec].
  assert (List.filter (fun c => negb (skipElem c)) cs = cs) as ->.
  { clear Hne. induction Hall as [|c cs Hc _ IH]; [done|]. simpl.
    apply validName_spec in Hc as (H1 & H2 & _).
    assert (skipElem c = false) as ->.
    { unfold skipElem. apply String.eqb_neq in H1, H2. by rewrite H1, H2. }
    simpl. by rewrite IH. }
  assert (List.existsb (String.eqb "..") cs = false) as ->; [|done].
  clear Hne. induction Hall as [|c cs Hc _ IH]; [done|]. cbn [List.existsb].
  apply validName_spec in Hc as (_ & _ & H3 & _).
  rewrite (String.eqb_sym ".." c). apply String.eqb_neq in H3. by rewrite H3.
Qed.

Lemma lookup_Join cs fs :
  cs <> [] -> Forall (fun c => validName c = true) cs -> lookup (Join cs) fs = lookupAt cs fs.
Proof. intros. unfold lookup. by rewrite components_Join. Qed.

Lemma Base_Join cs c :
  Forall (fun c => validName c = true) (cs ++ [c]) -> filepath.Base (Join (cs ++ [c])) = c.
Proof.
  intros Hall. unfold filepath.Base, GoPath.Base.
  assert (cs ++ [c] <> []) as Hne by (by destruct cs).
  rewrite isEmpty_false.
  2:{ apply Join_nonempty; [done|]. eapply Forall_valid; [|done]. by intros ? (?&?)%validName_spec. }
  rewrite Split_Join; [|done|by eapply Forall_valid; [|done]; intros ? (?&?&?&?&?)%validName_spec].
  assert (List.filter (fun c => negb (GoPath.isEmpty c)) (cs ++ [c]) = cs ++ [c]) as ->.
  { clear Hne. induction Hall as [|x l Hx _ IH]; [done|]. simpl.
    apply validName_spec in Hx as (H1 & _). rewrite isEmpty_false by done. simpl. by rewrite IH. }
  destruct cs as [|a cs]; [done|]. simpl. apply List.last_last.
Qed.

End Paths.

(** ** Sorted directories, well-formed trees, the walk *)

Section Sorting.
Import GoOS TreeDefs GoString.
Context {A : Type} (key : A -> string).


Lemma insertBy_Permutation x l : insertBy key x l ≡ₚ x :: l.
Proof.
  induction l as [|y l IH]; [done|]. simpl.
  destruct (String.leb (key x) (key y)); [done|].
  rewrite IH. apply perm_swap.
Qed.

Lemma sortBy_Permutation l : sortBy key l ≡ₚ l.
Proof.
  induction l as [|x l IH]; [done|]. simpl.
  rewrite insertBy_Permutation. by rewrite IH.
Qed.

Lemma insertBy_Sorted x l : Sorted (keyLe key) l -> Sorted (keyLe key) (insertBy key x l).
Proof.
  induction 1 as [|y l Hl IH Hhd]; simpl; [by repeat constructor|].
  destruct (String.leb (key x) (key y)) eqn:Hxy.
  - constructor; [by constructor|]. constructor. unfold keyLe, String.le. by rewrite Hxy.
  - constructor; [done|].
    assert ((keyLe key) y x) as Hyx.
    { unfold keyLe, String.le. destruct (String.leb_total (key x) (key y)) as [H|H].
      - by rewrite H in Hxy.
      - by rewrite H. }
    destruct Hhd as [|z l' Hz]; simpl; [by constructor|].
    destruct (String.leb (key x) (key z)); by constructor.
Qed.

Lemma sortBy_Sorted l : Sorted (keyLe key) (sortBy key l).
Proof. induction l; simpl; [constructor|by apply insertBy_Sorted]. Qed.

Global Instance keyLe_trans : Transitive (keyLe key).
Proof. intros x y z. unfold keyLe. apply transitivity. Qed.

Lemma sortBy_unique l1 l2 :
  l1 ≡ₚ l2 -> NoDup (List.map key l1) -> sortBy key l1 = sortBy key l2.
Proof.
  intros Hp Hnd. apply (Sorted_unique_strong (keyLe key)).
  - intros x1 x2 H1 H2 H12 H21.
    assert (key x1 = key x2) as Hk by (by apply (anti_symm String.le)).
    rewrite sortBy_Permutation in H1, H2. rewrite <- Hp in H2.
    apply list_elem_of_In in H1, H2.
    clear -Hnd H1 H2 Hk. induction l1 as [|y l IH]; [done|].
    simpl in Hnd. apply NoDup_cons in Hnd as [Hy Hnd].
    destruct H1 as [->|H1], H2 as [->|H2]; [done| | |by apply IH].
    + destruct Hy. rewrite Hk. by apply list_elem_of_In, in_map.
    + destruct Hy. rewrite <- Hk. by apply list_elem_of_In, in_map.
  - apply sortBy_Sorted.
  - apply sortBy_Sorted.
  - by rewrite !sortBy_Permutation.
Qed.
End Sorting.

Section SortingMap.
Import GoOS.

Lemma sortBy_map {A B : Type} (key1 : A -> string) (key2 : B -> string) (f : A -> B) l :
  (forall x, key2 (f x) = key1 x) ->
  sortBy key2 (List.map f l) = List.map f (sortBy key1 l).
Proof.
  intros Hk. induction l as [|x l IH]; [done|]. simpl. rewrite IH.
  generalize (sortBy key1 l). intros l'. induction l' as [|y l' IH']; [done|].
  simpl. rewrite !Hk. destruct (String.leb (key1 x) (key1 y)); [done|]. simpl. by rewrite IH'.
Qed.
End SortingMap.

Section Trees.
Import GoOS TreeDefs GoString.

Lemma nodupb_NoDup l : nodupb l = true -> NoDup l.
Proof.
  induction l as [|x l IH]; [constructor|]. simpl.
  intros [Hx Hl]%andb_true_iff. constructor; [|by apply IH].
  intros Hin. apply negb_true_iff in Hx.
  assert (List.existsb (String.eqb x) l = true); [|congruence].
  apply List.existsb_exists. exists x. split; [by apply list_elem_of_In|apply String.eqb_refl].
Qed.

Lemma wf_Dir es :
  wf (Dir es) = true ->
  NoDup (List.map fst es)
  /\ Forall (fun e => validName (fst e) = true /\ wf (snd e) = true) es.
Proof.
  simpl. intros [Hn Hall]%andb_true_iff. split; [by apply nodupb_NoDup|].
  apply Forall_forall. intros e He.
  rewrite List.forallb_forall in Hall. apply list_elem_of_In, Hall in He.
  by apply andb_true_iff in He.
Qed.

Lemma assoc_In c ch es :
  NoDup (List.map fst es) -> In (c, ch) es -> assoc c es = Some ch.
Proof.
  induction es as [|[k v] es IH]; [done|]. simpl.
  intros [Hk Hnd]%NoDup_cons [[= -> ->]|Hin].
  - by rewrite String.eqb_refl.
  - destruct (String.eqb_spec c k) as [->|_]; [|by apply IH].
    destruct Hk. apply list_elem_of_In. by apply (in_map fst) in Hin.
Qed.

Lemma assoc_Some c ch es : assoc c es = Some ch -> In (c, ch) es.
Proof.
  induction es as [|[k v] es IH]; [done|]. simpl.
  destruct (String.eqb_spec c k) as [->|_]; [intros [= ->]; by left|]. intros H. right. by apply IH.
Qed.

Lemma depth_child e es : In e es -> filepath.depth (snd e) < filepath.depth (Dir es).
Proof.
  intros Hin. simpl. apply Nat.lt_succ_r.
  induction es as [|x es IH]; [done|]. simpl.
  destruct Hin as [->|Hin]; [lia|]. specialize (IH Hin). lia.
Qed.

Lemma isDir_sortTree n : isDir (sortTree n) = isDir n.
Proof. by destruct n. Qed.


End Trees.

Section Walk.
Import GoOS TreeDefs GoString.
Context {A : Type} (fn : filepath.WalkDirFunc A) (fs : node).
(** The entries on which the callback leaves the file system as it is. *)
Variable ok : DirEntry -> Prop.
Hypothesis readonly : forall p d a, ok d -> fst (fst (fn p (Some d) None (fs, a))) = fs.


Lemma runVisits_fs vs a : allOk ok vs -> fst (fst (runVisits fn vs (fs, a))) = fs.
Proof.
  revert a. induction vs as [|v vs IH]; intros a Hok; [done|]. simpl.
  apply Forall_cons in Hok as [Hv Hok].
  pose proof (readonly v.1.1 v.1.2 a Hv) as Hr.
  destruct (fn _ _ _ _) as [[f a1] [err|]]; simpl in *; subst; [done|by apply IH].
Qed.

Lemma runVisits_app vs1 vs2 st :
  runVisits fn (vs1 ++ vs2) st =
  match runVisits fn vs1 st with
  | (st1, Some err) => (st1, Some err)
  | (st1, None) => runVisits fn vs2 st1
  end.
Proof.
  revert st. induction vs1 as [|v vs1 IH]; intros st; [done|]. simpl.
  destruct (fn _ _ _ _) as [st1 [err|]]; [done|apply IH].
Qed.

Lemma lookupAt_snoc cs c ch es (f : node) :
  lookupAt cs f = Some (Dir es) -> assoc c es = Some ch ->
  lookupAt (cs ++ [c]) f = Some ch.
Proof.
  revert f. induction cs as [|x cs IH]; intros f Hl Ha.
  - simpl in *. simplify_eq. by rewrite Ha.
  - simpl in *. destruct f as [|es0]; [done|].
    destruct (assoc x es0) as [ch0|]; [|done]. by apply IH.
Qed.

Lemma walkDir_readonly n : forall cs name fuel a,
  wf n = true -> cs <> [] -> Forall (fun c => validName c = true) cs ->
  lookupAt cs fs = Some n -> filepath.depth n < fuel ->
  allOk ok (visits (Join cs) name (sortTree n)) ->
  filepath.walkDir fuel (Join cs) {| Name := name; IsDir := isDir n |} fn (fs, a)
  = Some (runVisits fn (visits (Join cs) name (sortTree n)) (fs, a)).
Proof.
  induction n as [data|es IH] using node_ind; intros cs name fuel a Hwf Hne Hcs Hlook Hfuel Hok.
  - destruct fuel as [|fuel]; [lia|]. simpl.
    destruct (fn _ _ _ _) as [st1 [err|]]; done.
  - destruct fuel as [|fuel]; [lia|].
    revert Hok.
    cbn [filepath.walkDir isDir sortTree visits runVisits fst snd negb IsDir].
    intros [Hok0 Hok]%Forall_cons. cbn [fst snd] in Hok0.
    pose proof (readonly (Join cs) {| Name := name; IsDir := true |} a Hok0) as Hr.
    destruct (fn _ _ _ _) as [[f a1] [err|]]; [done|]. simpl in Hr. subst f.
    cbn [fst]. unfold ReadDir. rewrite lookup_Join, Hlook by done.
    apply wf_Dir in Hwf as [Hnd Hall].
    unfold sortByName. revert Hok.
    rewrite (sortBy_map fst Name entryOf) by done.
    rewrite (sortBy_map fst fst (fun e => (e.1, sortTree e.2))) by done.
    assert (forall e, In e (sortBy fst es) -> In e es) as Hsub.
    { intros e He. apply list_elem_of_In. rewrite <- (sortBy_Permutation fst es).
      by apply list_elem_of_In. }
    revert a1. induction (sortBy fst es) as [|e l IHl]; intros a1 Hok; [done|].
    revert Hok. cbn [List.map filepath.walkEntries flat_map]. intros [Hok1 Hok2]%Forall_app.
    assert (In e es) as He by (apply Hsub; by left).
    pose proof (proj1 (Forall_forall _ _) Hall e (proj2 (list_elem_of_In _ _) He)) as [Hv Hw].
    rewrite Forall_forall in IH.
    change (entryOf e) with {| Name := e.1; IsDir := isDir e.2 |}.
    revert Hok1. cbn [Name fst snd].
    rewrite filepath_Join_snoc by done. intros Hok1.
    rewrite (IH e (proj2 (list_elem_of_In _ _) He) (cs ++ [e.1]) e.1 fuel a1).
    + rewrite runVisits_app. cbn [fst snd].
      pose proof (runVisits_fs (visits (Join (cs ++ [e.1])) e.1 (sortTree e.2)) a1 Hok1) as Hf.
      destruct (runVisits fn (visits _ _ _) (fs, a1)) as [[f a2] [err|]]; [done|].
      simpl in Hf. subst f. apply IHl; [|done]. intros e' He'. apply Hsub. by right.
    + done.
    + by destruct cs.
    + apply Forall_app. split; [done|]. by constructor.
    + eapply lookupAt_snoc; [done|]. destruct e as [k v]. by apply assoc_In.
    + pose proof (depth_child e es He). lia.
    + done.
Qed.

Lemma depth_lookup c (f n : node) : lookupAt [c] f = Some n -> filepath.depth n < filepath.depth f.
Proof.
  simpl. destruct f as [|es]; [done|]. destruct (assoc c es) as [ch|] eqn:Ha; [|done].
  intros [= ->]. apply assoc_Some in Ha. by apply (depth_child (c, n) es).
Qed.

(** [WalkDir] on the output directory [out] of a file system that the
    callback only reads. *)
Lemma WalkDir_readonly out a :
  lookupAt [web.subtitlesDir] fs = Some out -> wf out = true ->
  allOk ok (visits web.subtitlesDir web.subtitlesDir (sortTree out)) ->
  filepath.WalkDir web.subtitlesDir fn (fs, a)
  = Some (runVisits fn (visits web.subtitlesDir web.subtitlesDir (sortTree out)) (fs, a)).
Proof.
  intros Hlook Hwf Hok. unfold filepath.WalkDir, Lstat. cbn [fst].
  rewrite (lookup_Join [web.subtitlesDir]) by (done || by repeat constructor).
  rewrite Hlook.
  change (GoPath.Base web.subtitlesDir) with web.subtitlesDir.
  apply (walkDir_readonly out [web.subtitlesDir]); try done.
  - by repeat constructor.
  - pose proof (depth_lookup _ _ _ Hlook). lia.
Qed.
End Walk.

(** ** The regular files of a tree *)

Section Files.
Import GoOS TreeDefs GoString.


Lemma last_default (l : list string) d d' : l <> [] -> List.last l d = List.last l d'.
Proof.
  induction l as [|a l IH]; [done|]. intros _. simpl. destruct l; [done|]. by apply IH.
Qed.

Lemma last_cons (a d : string) l : List.last (a :: l) d = List.last l a.
Proof. destruct l as [|b l]; [done|]. change (List.last (a :: b :: l) d) with (List.last (b :: l) d). by apply last_default. Qed.

Lemma namedFiles_Dir name es :
  namedFiles name (Dir es) = List.flat_map (fun e => namedFiles (fst e) (snd e)) es.
Proof.
  unfold namedFiles. simpl. induction es as [|e es IH]; [done|]. simpl.
  rewrite List.map_app, IH. f_equal.
  rewrite List.map_map. apply List.map_ext. intros [p d]. simpl. f_equal. apply last_cons.
Qed.

Lemma flat_map_pointwise {X Y} (f g : X -> list Y) l :
  (forall x, In x l -> f x ≡ₚ g x) -> List.flat_map f l ≡ₚ List.flat_map g l.
Proof.
  induction l as [|x l IH]; intros Hfg; [done|]. simpl.
  rewrite (Hfg x) by (by left). rewrite IH; [done|]. intros; apply Hfg; by right.
Qed.

Lemma namedFiles_sortTree n : forall name, namedFiles name (sortTree n) ≡ₚ namedFiles name n.
Proof.
  induction n as [d|es IH] using node_ind; intros name; [done|].
  cbn [sortTree]. rewrite !namedFiles_Dir.
  rewrite (sortBy_Permutation fst).
  rewrite List.flat_map_concat_map, List.map_map, <- List.flat_map_concat_map.
  apply flat_map_pointwise. intros e He. simpl.
  rewrite Forall_forall in IH. apply IH. by apply list_elem_of_In.
Qed.

Lemma List_filter_Permutation {X} (f : X -> bool) l l' :
  l ≡ₚ l' -> List.filter f l ≡ₚ List.filter f l'.
Proof.
  induction 1 as [|x l l' _ IH|x y l|l1 l2 l3 _ IH12 _ IH23]; simpl.
  - done.
  - destruct (f x); [by constructor|done].
  - destruct (f x), (f y); try done. apply perm_swap.
  - by etrans.
Qed.

Lemma srtFiles_sortTree n name : srtFiles name (sortTree n) ≡ₚ srtFiles name n.
Proof. apply List_filter_Permutation, namedFiles_sortTree. Qed.

End Files.

(** Callbacks that skip directories and fold a step over the regular
    files. *)
Section FoldFiles.
Import GoOS TreeDefs GoString.
Context {A : Type} (fn : filepath.WalkDirFunc A) (fs : node).
Variable I : A -> Prop.
Variable stepf : string -> bytes -> A -> A.
Hypothesis Hdir : forall p name a,
  fn p (Some {| Name := name; IsDir := true |}) None (fs, a) = ((fs, a), None).
Hypothesis Hfile : forall cs name data a,
  Forall (fun c => validName c = true) (cs ++ [name]) ->
  lookupAt (cs ++ [name]) fs = Some (File data) -> I a ->
  fn (Join (cs ++ [name])) (Some {| Name := name; IsDir := false |}) None (fs, a)
  = ((fs, stepf name data a), None) /\ I (stepf name data a).


Lemma foldFiles_app l1 l2 a : foldFiles stepf (l1 ++ l2) a = foldFiles stepf l2 (foldFiles stepf l1 a).
Proof. apply List.fold_left_app. Qed.

Lemma runVisits_files n : forall cs name a,
  wf n = true -> Forall (fun c => validName c = true) (cs ++ [name]) ->
  lookupAt (cs ++ [name]) fs = Some n -> I a ->
  runVisits fn (visits (Join (cs ++ [name])) name (sortTree n)) (fs, a)
  = ((fs, foldFiles stepf (namedFiles name (sortTree n)) a), None)
  /\ I (foldFiles stepf (namedFiles name (sortTree n)) a).
Proof.
  induction n as [data|es IH] using node_ind; intros cs name a Hwf Hcs Hlook Ha.
  - cbn [sortTree visits runVisits isDir fst snd].
    destruct (Hfile cs name data a Hcs Hlook Ha) as [-> HI]. done.
  - cbn [sortTree visits runVisits isDir fst snd]. rewrite Hdir.
    rewrite namedFiles_Dir.
    apply wf_Dir in Hwf as [Hnd Hall].
    rewrite (sortBy_map fst fst (fun e => (e.1, sortTree e.2))) by done.
    assert (forall e, In e (sortBy fst es) -> In e es) as Hsub.
    { intros e He. apply list_elem_of_In. rewrite <- (sortBy_Permutation fst es).
      by apply list_elem_of_In. }
    revert a Ha. induction (sortBy fst es) as [|e l IHl]; intros a Ha; [done|].
    cbn [List.map flat_map fst snd].
    assert (In e es) as He by (apply Hsub; by left).
    pose proof (proj1 (Forall_forall _ _) Hall e (proj2 (list_elem_of_In _ _) He)) as [Hv Hw].
    rewrite Forall_forall in IH.
    rewrite filepath_Join_snoc by (done || by destruct cs).
    rewrite runVisits_app.
    destruct (IH e (proj2 (list_elem_of_In _ _) He) (cs ++ [name]) e.1 a) as [-> HI]; try done.
    + apply Forall_app. split; [done|]. by constructor.
    + eapply lookupAt_snoc; [done|]. destruct e as [k v]. by apply assoc_In.
    + rewrite !foldFiles_app. apply IHl; [|done].
      intros e' He'. apply Hsub. by right.
Qed.
End FoldFiles.

(** ** The handlers that walk the whole output directory *)

Section Handlers.
Import GoOS TreeDefs GoString web http.




Lemma append_sliceOf l x : append (sliceOf l) x = sliceOf (l ++ [x]).
Proof. destruct l; [done|]. simpl. by destruct (l ++ [x]) eqn:H; [destruct l|]. Qed.

Lemma foldFiles_list l : forall acc,
  foldFiles listStep l {| Subtitles := sliceOf acc |}
  = {| Subtitles := sliceOf (acc ++ List.map fst (List.filter (fun nd => isSrt (fst nd)) l)) |}.
Proof.
  induction l as [|[nm d] l IH]; intros acc; simpl; [by rewrite app_nil_r|].
  unfold listStep at 2. simpl. destruct (isSrt nm); simpl.
  - rewrite append_sliceOf, IH. by rewrite <- app_assoc.
  - apply IH.
Qed.

Lemma foldFiles_zip l : forall z,
  foldFiles zipStep l z
  = {| zip.entries := List.rev (List.filter (fun nd => isSrt (fst nd)) l) ++ zip.entries z;
       zip.closed := zip.closed z |}.
Proof.
  induction l as [|[nm d] l IH]; intros z; simpl; [by destruct z|].
  unfold zipStep at 2. simpl. destruct (isSrt nm); simpl.
  - rewrite IH. simpl. by rewrite <- app_assoc.
  - apply IH.
Qed.

Lemma listFn_dir fs p name a :
  listSubtitlesFn p (Some {| Name := name; IsDir := true |}) None (fs, a) = ((fs, a), None).
Proof. reflexivity. Qed.

Lemma listFn_file fs cs name data a :
  Forall (fun c => validName c = true) (cs ++ [name]) ->
  lookupAt (cs ++ [name]) fs = Some (File data) -> True ->
  listSubtitlesFn (Join (cs ++ [name])) (Some {| Name := name; IsDir := false |}) None (fs, a)
  = ((fs, listStep name data a), None) /\ True.
Proof.
  intros Hcs _ _. split; [|done]. unfold listSubtitlesFn, listStep. cbn [IsDir Name fst snd].
  rewrite Base_Join by done. unfold isSrt. destruct (String.eqb _ _); [done|by destruct a].
Qed.

Lemma zipFn_dir fs p name a :
  subtitlesZipFn p (Some {| Name := name; IsDir := true |}) None (fs, a) = ((fs, a), None).
Proof. reflexivity. Qed.

Lemma zipFn_file fs cs name data z :
  Forall (fun c => validName c = true) (cs ++ [name]) ->
  lookupAt (cs ++ [name]) fs = Some (File data) -> zip.closed z = false ->
  subtitlesZipFn (Join (cs ++ [name])) (Some {| Name := name; IsDir := false |}) None (fs, z)
  = ((fs, zipStep name data z), None) /\ zip.closed (zipStep name data z) = false.
Proof.
  intros Hcs Hlook Hz. unfold subtitlesZipFn, zipStep. cbn [IsDir Name fst snd].
  rewrite Base_Join by done. unfold isSrt. destruct (String.eqb _ _); cbn [negb]; [|by destruct z].
  unfold zip.Create. rewrite Hz.
  assert ((zip.uint16max <? String.length name)%nat = false) as ->.
  { apply Nat.ltb_ge. apply Forall_app in Hcs as [_ [Hn _]%Forall_cons].
    apply validName_spec in Hn as (_ & _ & _ & _ & Hlen). unfold zip.uint16max. lia. }
  cbn [fst snd]. unfold GoOS.Open. rewrite lookup_Join by (done || by destruct cs). rewrite Hlook.
  cbn [ReadAll]. unfold zip.Copy. cbn [zip.entries zip.closed app]. done.
Qed.

Lemma listSubtitles_walk fs out :
  lookupAt [subtitlesDir] fs = Some out -> wf out = true ->
  filepath.WalkDir subtitlesDir listSubtitlesFn (fs, {| Subtitles := None |})
  = Some ((fs, {| Subtitles := sliceOf (List.map fst (srtFiles subtitlesDir (sortTree out))) |}), None).
Proof.
  intros Hlook Hwf.
  rewrite (WalkDir_readonly listSubtitlesFn fs (fun _ => True)) with (out := out); try done.
  - destruct (runVisits_files listSubtitlesFn fs (fun _ => True) listStep (listFn_dir fs)
                (listFn_file fs) out [] subtitlesDir {| Subtitles := None |}) as [Hrun _]; try done.
    { by repeat constructor. }
    change (Join ([] ++ [subtitlesDir])) with subtitlesDir in Hrun. rewrite Hrun.
    by rewrite (foldFiles_list _ []).
  - intros p d a _. unfold listSubtitlesFn. destruct (IsDir d); [done|].
    by destruct (negb _).
  - apply Forall_forall. done.
Qed.

Lemma subtitlesZip_walk fs out :
  lookupAt [subtitlesDir] fs = Some out -> wf out = true ->
  filepath.WalkDir subtitlesDir subtitlesZipFn (fs, zip.NewWriter)
  = Some ((fs, {| zip.entries := List.rev (srtFiles subtitlesDir (sortTree out));
                  zip.closed := false |}), None).
Proof.
  intros Hlook Hwf.
  rewrite (WalkDir_readonly subtitlesZipFn fs (fun _ => True)) with (out := out); try done.
  - destruct (runVisits_files subtitlesZipFn fs (fun z => zip.closed z = false) zipStep
                (zipFn_dir fs) (zipFn_file fs) out [] subtitlesDir zip.NewWriter) as [Hrun _]; try done.
    { by repeat constructor. }
    change (Join ([] ++ [subtitlesDir])) with subtitlesDir in Hrun. rewrite Hrun.
    rewrite foldFiles_zip. simpl. by rewrite app_nil_r.
  - intros p d a _. unfold subtitlesZipFn. destruct (IsDir d); [done|].
    destruct (negb _); [done|]. destruct (zip.Create _ _); [|done]. cbn [fst snd].
    destruct (GoOS.Open _ _); [|done]. by destruct (ReadAll _).
  - apply Forall_forall. done.
Qed.

(** C4, as amended. On an output directory with valid, distinct names,
    [listSubtitles] answers with status 200 and a JSON object whose member
    ["subtitles"] lists exactly the names of the regular files with
    extension [".srt"] found below the output directory at any depth, the
    walk entering every subdirectory; the member is [null] when there is no
    such file. *)
Theorem listSubtitles_lists_the_tree r fs out :
  lookupAt [subtitlesDir] fs = Some out -> wf out = true ->
  exists c names,
    listSubtitles r (fs, newConn) = Some (fs, c)
    /\ logs c = []
    /\ finish (w c) =
         {| Status := 200;
            Headers := {[ "Content-Type" := "application/json" ]};
            Body := [JSON (JObject [("subtitles",
                       match names with [] => JNull | _ => JArray (List.map JString names) end)])] |}
    /\ names ≡ₚ List.map fst (srtFiles subtitlesDir out).
Proof.
  intros Hlook Hwf. unfold listSubtitles. rewrite (listSubtitles_walk fs out) by done.
  eexists _, (List.map fst (srtFiles subtitlesDir (sortTree out))).
  split; [reflexivity|]. split; [done|]. split.
  - unfold finish, onWriter, newConn. simpl. unfold encodeList, encodeSlice. simpl.
    rewrite insert_empty. by destruct (List.map fst _).
  - apply Permutation_map, srtFiles_sortTree.
Qed.

(** C9. On an output directory with valid, distinct names, [subtitlesZip]
    answers with status 200, the zip content type, the download name
    [legendas.zip], and an archive that holds exactly one entry per regular
    file with extension [".srt"] below the output directory (at any depth),
    named by the file's base name and holding the file's bytes. *)
Theorem subtitlesZip_archives_every_srt_file r fs out :
  lookupAt [subtitlesDir] fs = Some out -> wf out = true ->
  exists c entries,
    subtitlesZip r (fs, newConn) = Some (fs, c)
    /\ logs c = []
    /\ finish (w c) =
         {| Status := 200;
            Headers := {[ "Content-Disposition" := "attachment; filename=legendas.zip";
                          "Content-Type" := "application/zip" ]};
            Body := [ZipArchive entries] |}
    /\ entries ≡ₚ srtFiles subtitlesDir out.
Proof.
  intros Hlook Hwf. unfold subtitlesZip. rewrite (subtitlesZip_walk fs out) by done.
  eexists _, (srtFiles subtitlesDir (sortTree out)).
  split; [reflexivity|]. split; [done|]. split.
  - unfold finish, onWriter, newConn, zip.archive. simpl. rewrite rev_involutive.
    by rewrite insert_empty.
  - apply srtFiles_sortTree.
Qed.
End Handlers.

(** ** One goroutine alone *)

Section Alone.
Import GoOS subtitles PipelineDefs.
Context {E : Type}.
Implicit Types (w : world E) (s : Subtitler E).

Lemma quiet_room w w' :
  (length (errCh w) < errCap w)%nat -> quiet w w' ->
  (length (errCh w') <? errCap w')%nat = true.
Proof. intros H (-> & -> & _). by apply Nat.ltb_lt. Qed.

Lemma run_alone s inp w :
  (length (errCh w) < errCap w)%nat ->
  exists b, run s (List.repeat 0 9) w [(inp, PCreate)] = (processFile s 0 inp w, [(inp, PDone b)]).
Proof.
  intros Hroom. unfold processFile. simpl.
  destruct (createVideoFile _ _ _ _) as [w1 [v|e]] eqn:Hc;
    apply createVideoFile_quiet in Hc.
  2:{ simpl. rewrite (quiet_room _ _ Hroom Hc). simpl. by eexists. }
  simpl.
  destruct (extractAudio _ _ _ _) as [w2 [a|e]] eqn:Hx;
    apply extractAudio_quiet in Hx; pose proof (quiet_trans _ _ _ Hc Hx) as H2.
  2:{ simpl. rewrite (quiet_room _ _ Hroom H2). simpl. by eexists. }
  simpl.
  destruct (readFile _ _) as [d|e].
  2:{ simpl. rewrite (quiet_room _ _ Hroom H2). simpl. by eexists. }
  simpl.
  destruct (requestSubtitle _ _ _ _ _) as [w3 [sub|e]] eqn:Hq;
    apply requestSubtitle_quiet in Hq; pose proof (quiet_trans _ _ _ H2 Hq) as H3.
  2:{ simpl. rewrite (quiet_room _ _ Hroom H3). simpl. by eexists. }
  simpl.
  destruct (writeFile _ _ _) as [f [e|]].
  - simpl. rewrite (quiet_room _ _ Hroom H3). simpl. by eexists.
  - simpl. by eexists.
Qed.
End Alone.

(** ** The upload handler *)

Section UploadProps.
Import GoOS http web Scenario.

Lemma payloadSize_bigUpload : payloadSize bigUpload = (2 ^ 30 + 1)%N.
Proof.
  unfold payloadSize, bigUpload, bigContent. cbn [Parts List.fold_right Content].
  rewrite repeat_length. rewrite N2Nat.id. reflexivity.
Qed.

Lemma length_bigContent : Z.of_nat (length bigContent) = (2 ^ 30 + 1)%Z.
Proof. unfold bigContent. rewrite repeat_length. rewrite N_nat_Z. reflexivity. Qed.

Lemma ParseMultipartForm_bigUpload :
  ParseMultipartForm bigUpload maxFileSize
  = Ok {[ "file" := [{| Filename := "big.mp4"; Size := 2 ^ 30 + 1;
                        content := bigContent; OnDisk := true |}] ]}.
Proof.
  unfold ParseMultipartForm, bigUpload. cbn [Malformed Parts].
  cbn [readForm FormName PartFileName Content GoPath.isEmpty].
  rewrite length_bigContent.
  change (maxFileSize <? 2 ^ 30 + 1)%Z with true. cbn iota.
  rewrite lookup_empty. cbn [default app]. rewrite insert_empty. reflexivity.
Qed.

(** C5. [ParseMultipartForm] takes the number of bytes to keep in memory,
    not a bound on the body: an upload of one file of 2^30 + 1 bytes is
    parsed, the file goes to disk, and the handler calls the subtitler
    with it; with a subtitler that succeeds the answer is status 200. *)
Theorem upload_over_maxFileSize_reaches_the_subtitler :
  (Z.to_N maxFileSize < payloadSize bigUpload)%N
  /\ (forall (S : Type) (gen : list subtitles.Input -> S -> S * option error) (s : S) (c : conn),
        createSubtitles gen bigUpload (s, c) =
        match gen [bigInput] s with
        | (s', Some err) =>
            (s', e c "Failed to generate subtitles" (Some err) StatusInternalServerError)
        | (s', None) =>
            (s', onWriter
                   (fun w => Write (JSON (JObject [("message", JString "Subtitles generated successfully")]))
                               (SetHeader "Content-Type" "application/json" w)) c)
        end)
  /\ (exists c, createSubtitles recorder bigUpload ([], newConn) = ([[bigInput]], c)
                /\ Status (finish (w c)) = 200%nat).
Proof.
  split; [|split].
  - rewrite payloadSize_bigUpload. reflexivity.
  - intros S gen s c. unfold createSubtitles.
    rewrite ParseMultipartForm_bigUpload, lookup_singleton_eq.
    cbn [openAll Open Filename content app]. reflexivity.
  - eexists. unfold createSubtitles.
    rewrite ParseMultipartForm_bigUpload, lookup_singleton_eq.
    cbn [openAll Open Filename content app]. unfold recorder. split; reflexivity.
Qed.
End UploadProps.

(** ** The order of the walk *)

Section Determinism.
Import GoOS TreeDefs GoString web http.

Lemma observe_nil n : observe [] n = match n with Dir _ => Some None | File d => Some (Some d) end.
Proof. by destruct n. Qed.

Lemma observe_cons c cs es :
  observe (c :: cs) (Dir es) = match assoc c es with Some ch => observe cs ch | None => None end.
Proof. unfold observe. simpl. by destruct (assoc c es). Qed.

Lemma observe_Some_nil cs n : observe cs n <> None <-> lookupAt cs n <> None.
Proof. unfold observe. destruct (lookupAt cs n) as [[]|]; split; congruence. Qed.

Lemma In_assoc c es : In c (List.map fst es) -> exists ch, assoc c es = Some ch.
Proof.
  induction es as [|[k v] es IH]; [done|]. simpl.
  destruct (String.eqb_spec c k) as [->|Hne]; [eauto|]. intros [?|?]; [congruence|by apply IH].
Qed.

Lemma sameFiles_sortTree t1 : forall t2,
  wf t1 = true -> wf t2 = true -> sameFiles t1 t2 -> sortTree t1 = sortTree t2.
Proof.
  induction t1 as [d|es1 IH] using node_ind; intros t2 Hw1 Hw2 Hs.
  - specialize (Hs []). rewrite !observe_nil in Hs. destruct t2; by simplify_eq.
  - pose proof (Hs []) as H0. rewrite !observe_nil in H0. destruct t2 as [|es2]; [done|].
    apply wf_Dir in Hw1 as [Hnd1 Hall1]. apply wf_Dir in Hw2 as [Hnd2 Hall2].
    cbn [sortTree]. f_equal.
    assert (forall c ch1 ch2, assoc c es1 = Some ch1 -> assoc c es2 = Some ch2 ->
              sortTree ch1 = sortTree ch2) as Hch.
    { intros c ch1 ch2 H1 H2.
      pose proof (assoc_Some _ _ _ H1) as Hin1. pose proof (assoc_Some _ _ _ H2) as Hin2.
      rewrite Forall_forall in IH.
      apply (IH (c, ch1)); [by apply list_elem_of_In| | |].
      - rewrite Forall_forall in Hall1. by apply (Hall1 (c, ch1)), list_elem_of_In.
      - rewrite Forall_forall in Hall2. by apply (Hall2 (c, ch2)), list_elem_of_In.
      - intros cs. pose proof (Hs (c :: cs)) as Hc. rewrite !observe_cons in Hc.
        by rewrite H1, H2 in Hc. }
    assert (forall c, assoc c es1 = None <-> assoc c es2 = None) as Hnone.
    { intros c. pose proof (Hs [c]) as Hc. rewrite !observe_cons in Hc.
      destruct (assoc c es1) as [ch1|], (assoc c es2) as [ch2|]; try done.
      - rewrite observe_nil in Hc. by destruct ch1.
      - rewrite observe_nil in Hc. by destruct ch2. }
    assert (forall es, List.map fst (List.map (fun e : string * node => (e.1, sortTree e.2)) es)
                       = List.map fst es) as Hmm.
    { intros es. induction es as [|x es IHes]; [done|]. simpl. by rewrite IHes. }
    apply sortBy_unique; [|by rewrite Hmm].
    apply NoDup_Permutation.
    + apply NoDup_ListNoDup, (List.NoDup_map_inv fst). rewrite Hmm. by apply NoDup_ListNoDup.
    + apply NoDup_ListNoDup, (List.NoDup_map_inv fst). rewrite Hmm. by apply NoDup_ListNoDup.
    + intros [c t]. rewrite !list_elem_of_In, !List.in_map_iff. split.
      * intros ([c1 ch1] & Heq & Hin). simpl in Heq. injection Heq as <- <-.
        pose proof (assoc_In _ _ _ Hnd1 Hin) as H1.
        destruct (assoc c1 es2) as [ch2|] eqn:H2; [|apply Hnone in H2; congruence].
        exists (c1, ch2). split; [simpl; f_equal; symmetry; by eapply Hch|].
        by apply assoc_Some.
      * intros ([c2 ch2] & Heq & Hin). simpl in Heq. injection Heq as <- <-.
        pose proof (assoc_In _ _ _ Hnd2 Hin) as H2.
        destruct (assoc c2 es1) as [ch1|] eqn:H1; [|apply Hnone in H1; congruence].
        exists (c2, ch1). split; [simpl; f_equal; by eapply Hch|].
        by apply assoc_Some.
Qed.


Lemma sortBy_In {A} (key : A -> string) (l : list A) e : In e (sortBy key l) <-> In e l.
Proof. rewrite <- !list_elem_of_In. by rewrite sortBy_Permutation. Qed.

Lemma visits_paths n : forall cs name,
  wf n = true -> cs <> [] -> Forall (fun c => validName c = true) cs ->
  List.map (fun v => v.1.1) (visits (Join cs) name (sortTree n))
  = List.map (fun p => Join (cs ++ p)) (walkPaths (sortTree n)).
Proof.
  induction n as [d|es IH] using node_ind; intros cs name Hwf Hne Hcs.
  - simpl. by rewrite app_nil_r.
  - cbn [sortTree visits walkPaths List.map fst]. rewrite app_nil_r. f_equal.
    apply wf_Dir in Hwf as [Hnd Hall].
    rewrite (sortBy_map fst fst (fun e => (e.1, sortTree e.2))) by done.
    assert (forall e, In e (sortBy fst es) -> In e es) as Hsub by (intros e; apply sortBy_In).
    induction (sortBy fst es) as [|e l IHl]; [done|].
    cbn [List.map flat_map fst snd]. rewrite !List.map_app.
    rewrite IHl by (intros e' He'; apply Hsub; by right). f_equal.
    assert (In e es) as He by (apply Hsub; by left).
    pose proof (proj1 (Forall_forall _ _) Hall e (proj2 (list_elem_of_In _ _) He)) as [Hv Hw].
    rewrite Forall_forall in IH.
    rewrite filepath_Join_snoc by done.
    rewrite (IH e (proj2 (list_elem_of_In _ _) He) (cs ++ [e.1]) e.1); try done.
    + rewrite List.map_map. apply List.map_ext. intros p. by rewrite <- app_assoc.
    + by destruct cs.
    + apply Forall_app. split; [done|]. by constructor.
Qed.

Lemma pathLe_cons a p q : pathLe (a :: p) (a :: q) = pathLe p q.
Proof. simpl. by rewrite String.eqb_refl. Qed.

Lemma StronglySorted_map_cons a l :
  StronglySorted pathLeP l -> StronglySorted pathLeP (List.map (cons a) l).
Proof.
  induction 1 as [|p l Hl IH Hp]; simpl; constructor; [done|].
  clear -Hp. induction Hp as [|q l Hq _ IH]; simpl; constructor; [|done].
  unfold pathLeP. by rewrite pathLe_cons.
Qed.

Lemma walkPaths_sorted n : wf n = true -> StronglySorted pathLeP (walkPaths (sortTree n)).
Proof.
  induction n as [d|es IH] using node_ind; intros Hwf.
  - simpl. repeat constructor.
  - cbn [sortTree walkPaths]. constructor; [|by apply Forall_forall].
    apply wf_Dir in Hwf as [Hnd Hall].
    rewrite (sortBy_map fst fst (fun e => (e.1, sortTree e.2))) by done.
    assert (forall e, In e (sortBy fst es) -> In e es) as Hsub by (intros e; apply sortBy_In).
    assert (StronglySorted (keyLe fst) (sortBy fst es)) as Hss.
    { apply Sorted_StronglySorted; [apply keyLe_trans|apply sortBy_Sorted]. }
    assert (NoDup (List.map fst (sortBy fst es))) as Hnd'.
    { assert (List.map fst (sortBy fst es) ≡ₚ List.map fst es) as ->; [|done].
      apply Permutation_map, sortBy_Permutation. }
    induction (sortBy fst es) as [|e l IHl]; [constructor|].
    cbn [List.map flat_map fst snd].
    apply StronglySorted_inv in Hss as [Hss Hhd].
    cbn [List.map] in Hnd'. apply NoDup_cons in Hnd' as [Hne Hnd'].
    apply StronglySorted_app_2.
    + intros p1 p2 Hp1%list_elem_of_In Hp2%list_elem_of_In.
      apply List.in_map_iff in Hp1 as (q1 & <- & _).
      apply List.in_flat_map in Hp2 as ([c t] & Hin & Hp2).
      apply List.in_map_iff in Hin as (e' & [= <- <-] & Hin).
      cbn [fst snd] in Hp2. apply List.in_map_iff in Hp2 as (q2 & <- & _).
      unfold pathLeP. simpl.
      destruct (String.eqb_spec e.1 e'.1) as [Heq|_].
      * destruct Hne. rewrite Heq. apply list_elem_of_In. by apply in_map.
      * rewrite Forall_forall in Hhd. apply list_elem_of_In, Hhd in Hin.
        unfold keyLe, String.le in Hin. by apply Is_true_true.
    + apply StronglySorted_map_cons.
      assert (In e es) as He by (apply Hsub; by left).
      rewrite Forall_forall in IH. apply (IH e); [by apply list_elem_of_In|].
      rewrite Forall_forall in Hall. by apply (Hall e), list_elem_of_In.
    + apply IHl; [|done..]. intros e' He'. apply Hsub. by right.
Qed.

(** C10. Two file systems whose output directories hold the same files,
    whatever the order in which the operating system hands out the entries,
    get the same answer from [listSubtitles]; the callback is called along
    the walk of the sorted tree, whose paths, read as lists of names, are
    in lexical order. *)
Theorem listSubtitles_is_deterministic r fs1 fs2 out1 out2 :
  lookupAt [subtitlesDir] fs1 = Some out1 -> wf out1 = true ->
  lookupAt [subtitlesDir] fs2 = Some out2 -> wf out2 = true ->
  sameFiles out1 out2 ->
  (exists c, listSubtitles r (fs1, newConn) = Some (fs1, c)
             /\ listSubtitles r (fs2, newConn) = Some (fs2, c))
  /\ (forall a,
        filepath.WalkDir subtitlesDir listSubtitlesFn (fs1, a)
        = Some (runVisits listSubtitlesFn
                  (visits subtitlesDir subtitlesDir (sortTree out1)) (fs1, a)))
  /\ List.map (fun v => v.1.1) (visits subtitlesDir subtitlesDir (sortTree out1))
     = List.map (fun p => Join (subtitlesDir :: p)) (walkPaths (sortTree out1))
  /\ StronglySorted (fun p q => pathLe p q = true) (walkPaths (sortTree out1)).
Proof.
  intros Hl1 Hw1 Hl2 Hw2 Hsame.
  pose proof (sameFiles_sortTree out1 out2 Hw1 Hw2 Hsame) as Heq.
  split; [|split; [|split]].
  - unfold listSubtitles.
    rewrite (listSubtitles_walk fs1 out1), (listSubtitles_walk fs2 out2) by done.
    rewrite Heq. eexists. split; reflexivity.
  - intros a. apply (WalkDir_readonly listSubtitlesFn fs1 (fun _ => True)); try done.
    + intros p d a0 _. unfold listSubtitlesFn. destruct (IsDir d); [done|]. by destruct (negb _).
    + by apply Forall_forall.
  - apply (visits_paths out1 [subtitlesDir] subtitlesDir); try done. by repeat constructor.
  - by apply walkPaths_sorted.
Qed.
End Determinism.

(** ** Names that nothing bears *)

Section NoMatch.
Import GoOS TreeDefs GoString web http.

Lemma visits_names n : forall p name,
  List.map (fun v => Name v.1.2) (visits p name n) = name :: entryNames n.
Proof.
  induction n as [d|es IH] using node_ind; intros p name; [done|].
  cbn [visits List.map entryNames fst snd Name]. f_equal.
  induction es as [|e es IHes]; [done|].
  apply Forall_cons in IH as [He IH].
  cbn [flat_map]. rewrite List.map_app, He, IHes by done. done.
Qed.

Lemma entryNames_sortTree n : entryNames (sortTree n) ≡ₚ entryNames n.
Proof.
  induction n as [d|es IH] using node_ind; [done|].
  cbn [sortTree entryNames].
  rewrite (sortBy_Permutation fst).
  rewrite List.flat_map_concat_map, List.map_map, <- List.flat_map_concat_map.
  apply flat_map_pointwise. intros e He. simpl. constructor.
  rewrite Forall_forall in IH. apply IH. by apply list_elem_of_In.
Qed.

Lemma allOk_no_match sub p name n :
  ~ In sub (name :: entryNames n) ->
  allOk (fun d => Name d <> sub) (visits p name (sortTree n)).
Proof.
  intros Hno. apply Forall_forall. intros v Hv Heq. apply Hno.
  apply list_elem_of_In.
  assert (sub ∈ name :: entryNames (sortTree n)) as Hin.
  { rewrite <- (visits_names (sortTree n) p name). rewrite <- Heq.
    apply list_elem_of_In, (in_map (fun v => Name v.1.2)). by apply list_elem_of_In. }
  by rewrite entryNames_sortTree in Hin.
Qed.

Lemma runVisits_no_match {A} (fn : filepath.WalkDirFunc A) sub vs st :
  (forall p d st, Name d <> sub -> fn p (Some d) None st = (st, None)) ->
  allOk (fun d => Name d <> sub) vs -> runVisits fn vs st = (st, None).
Proof.
  intros Hfn. induction 1 as [|v vs Hv _ IH]; [done|]. simpl. by rewrite Hfn.
Qed.

Lemma subtitleFileFn_other r sub p d st :
  Name d <> sub -> subtitleFileFn r sub p (Some d) None st = (st, None).
Proof. intros H%String.eqb_neq. unfold subtitleFileFn. by rewrite H. Qed.

Lemma deleteSubtitleFn_other sub p d st :
  Name d <> sub -> deleteSubtitleFn sub p (Some d) None st = (st, None).
Proof. intros H%String.eqb_neq. unfold deleteSubtitleFn. by rewrite H. Qed.

(** A name that neither the output directory nor an entry below it
    bears: [subtitleFile] writes nothing, and the server answers with
    status 200, no header and no body. *)
Lemma subtitleFile_no_match r fs out c :
  lookupAt [subtitlesDir] fs = Some out -> wf out = true ->
  ~ In (URLParam r) (subtitlesDir :: entryNames out) ->
  subtitleFile r (fs, c) = Some (fs, c).
Proof.
  intros Hlook Hwf Hno. unfold subtitleFile.
  rewrite (WalkDir_readonly _ fs (fun d => Name d <> URLParam r)) with (out := out); try done.
  - rewrite (runVisits_no_match _ (URLParam r)); [done| |by apply allOk_no_match].
    intros. by apply subtitleFileFn_other.
  - intros p d a Hd. by rewrite subtitleFileFn_other.
  - by apply allOk_no_match.
Qed.

Lemma deleteSubtitle_no_match r fs out c :
  lookupAt [subtitlesDir] fs = Some out -> wf out = true ->
  ~ In (URLParam r) (subtitlesDir :: entryNames out) ->
  deleteSubtitle r (fs, c) = Some (fs, c).
Proof.
  intros Hlook Hwf Hno. unfold deleteSubtitle.
  rewrite (WalkDir_readonly _ fs (fun d => Name d <> URLParam r)) with (out := out); try done.
  - rewrite (runVisits_no_match _ (URLParam r)); [done| |by apply allOk_no_match].
    intros. by apply deleteSubtitleFn_other.
  - intros p d a Hd. by rewrite deleteSubtitleFn_other.
  - by apply allOk_no_match.
Qed.
End NoMatch.

(** ** What a successful write leaves *)

Section Writes.
Import GoOS subtitles PipelineDefs.

Lemma assoc_setEntry c v es : assoc c (setEntry c v es) = Some v.
Proof.
  induction es as [|[k x] es IH]; simpl; [by rewrite String.eqb_refl|].
  destruct (String.eqb_spec c k) as [->|Hne]; simpl.
  - by rewrite String.eqb_refl.
  - apply String.eqb_neq in Hne. by rewrite Hne.
Qed.

Lemma putAt_cons c c' cs v es :
  putAt (c :: c' :: cs) v (Dir es)
  = match assoc c es with
    | Some ch => match putAt (c' :: cs) v ch with
                 | Some ch' => Some (Dir (setEntry c ch' es))
                 | None => None
                 end
    | None => None
    end.
Proof. reflexivity. Qed.

Lemma putAt_lookupAt cs : forall v n n', putAt cs v n = Some n' -> lookupAt cs n' = Some v.
Proof.
  induction cs as [|c cs IH]; intros v n n' H; [by destruct n|].
  destruct n as [|es]; [destruct cs; discriminate|].
  destruct cs as [|c' cs].
  - simpl in H. simplify_eq. simpl. by rewrite assoc_setEntry.
  - rewrite putAt_cons in H. destruct (assoc c es) as [ch|]; [|done].
    destruct (putAt (c' :: cs) v ch) as [ch'|] eqn:Hp; [|done]. simplify_eq.
    cbn [lookupAt]. rewrite assoc_setEntry. by eapply IH.
Qed.

Lemma putAt_is_Some cs : forall v x n,
  cs <> [] -> lookupAt cs n = Some x -> exists n', putAt cs v n = Some n'.
Proof.
  induction cs as [|c cs IH]; intros v x n Hne H; [done|].
  destruct n as [|es]; [done|]. simpl in H.
  destruct (assoc c es) as [ch|] eqn:Ha; [|done].
  destruct cs as [|c' cs]; [simpl; eauto|].
  destruct (IH v x ch) as (ch' & Hp); [done..|].
  rewrite putAt_cons, Ha, Hp. eauto.
Qed.

(** A successful [writeFile] leaves a regular file with the data at the
    path. *)
Lemma writeFile_lookup p data f f' :
  writeFile p data f = (f', None) -> lookup p f' = Some (File data).
Proof.
  unfold writeFile, Create, Write, lookup. intros H.
  destruct (components p) as [cs|]; [|done].
  assert (exists f1, putAt cs (File []) f = Some f1 /\ f' =
            match lookupAt cs f1 with
            | Some (File old) => match putAt cs (File (old ++ data)) f1 with
                                 | Some fs' => fs'
                                 | None => f1
                                 end
            | _ => f1
            end) as (f1 & Hp & ->).
  { destruct (lookupAt cs f) as [[]|]; try done;
      destruct (putAt cs (File []) f) as [f1|]; simplify_eq; eauto. }
  pose proof (putAt_lookupAt _ _ _ _ Hp) as Hl. rewrite Hl.
  assert (cs <> []) as Hne by (intros ->; by destruct f).
  destruct (putAt_is_Some cs (File ([] ++ data)) _ f1 Hne Hl) as (f2 & Hp2).
  rewrite Hp2. by apply putAt_lookupAt in Hp2.
Qed.

(** The step that marks the subtitle as persisted has written it. *)
Lemma persist_step_writes {E} (s : Subtitler E) g inp (w w' : world E) v a sub ds :
  step s g inp w (PPersist v a sub) = (w', PReturn ds false) ->
  lookup (subtitlePath (outputDir s) (FileName inp)) (fs w') = Some (File sub)
  /\ trace w' = EvPersisted g (subtitlePath (outputDir s) (FileName inp)) sub :: trace w.
Proof.
  simpl. destruct (writeFile _ _ _) as [f [e|]] eqn:Hw; [done|].
  intros [= <- <-]. split; [|done]. simpl. by apply writeFile_lookup in Hw.
Qed.
End Writes.

(** ** Deleting a subtitle of a flat output directory *)

Section Delete.
Import GoOS TreeDefs GoString web http.

Lemma walkDir_S {A} fuel path d (fn : filepath.WalkDirFunc A) st :
  filepath.walkDir (S fuel) path d fn st
  = match fn path (Some d) None st with
    | (st1, Some err) => Some (st1, Some err)
    | (st1, None) =>
        if negb (IsDir d) then Some (st1, None)
        else
          match ReadDir path (fst st1) with
          | Err e => Some (fn path (Some d) (Some e) st1)
          | Ok dirs =>
              filepath.walkEntries (fun p d1 => filepath.walkDir fuel p d1 fn) path dirs st1
          end
    end.
Proof. reflexivity. Qed.

Lemma walkEntries_other {A} (fn : filepath.WalkDirFunc A) sub fuel p ds : forall st,
  (forall p d st, Name d <> sub -> fn p (Some d) None st = (st, None)) ->
  Forall (fun d => IsDir d = false /\ Name d <> sub) ds ->
  filepath.walkEntries (fun p d1 => filepath.walkDir (S fuel) p d1 fn) p ds st = Some (st, None).
Proof.
  intros st Hfn. induction 1 as [|d ds [Hd Hne] _ IH]; [done|].
  cbn [filepath.walkEntries filepath.walkDir]. rewrite Hfn by done. by rewrite Hd.
Qed.

Lemma assoc_delEntry k c es :
  NoDup (List.map fst es) ->
  assoc k (delEntry c es) = if String.eqb k c then None else assoc k es.
Proof.
  induction es as [|[k' v] es IH]; simpl; [by destruct (String.eqb k c)|].
  intros [Hk Hnd]%NoDup_cons.
  destruct (String.eqb_spec c k') as [->|Hc].
  - destruct (String.eqb_spec k k') as [->|_]; [|done].
    destruct (assoc k' es) eqn:Ha; [|done].
    destruct Hk. apply assoc_Some, (in_map fst) in Ha. by apply list_elem_of_In.
  - simpl. destruct (String.eqb_spec k k') as [->|_].
    + apply String.eqb_neq in Hc. rewrite String.eqb_sym in Hc. by rewrite Hc.
    + by apply IH.
Qed.

Lemma deleteSubtitleFn_match sub p d fs c :
  Name d = sub -> deleteSubtitleFn sub p (Some d) None (fs, c)
  = match Remove p fs with
    | Err err => ((fs, c), Some (wrap "could not remove subtitle" err))
    | Ok fs' => ((fs', c), None)
    end.
Proof. intros <-. unfold deleteSubtitleFn. by rewrite String.eqb_refl. Qed.

Lemma walkEntries_delete sub fuel fs fs' c ds :
  NoDup (List.map Name ds) ->
  Forall (fun d => IsDir d = false) ds ->
  In sub (List.map Name ds) ->
  Remove (filepath.Join subtitlesDir sub) fs = Ok fs' ->
  filepath.walkEntries (fun p d1 => filepath.walkDir (S fuel) p d1 (deleteSubtitleFn sub))
    subtitlesDir ds (fs, c) = Some ((fs', c), None).
Proof.
  intros Hnd Hflat Hin Hrm. induction ds as [|d ds IH]; [done|].
  apply NoDup_cons in Hnd as [Hd Hnd]. apply Forall_cons in Hflat as [Hf Hflat].
  cbn [filepath.walkEntries filepath.walkDir].
  destruct (decide (Name d = sub)) as [Heq|Hne].
  - rewrite deleteSubtitleFn_match by done. rewrite Heq, Hrm, Hf. cbn [negb].
    apply (walkEntries_other _ sub); [intros; by apply deleteSubtitleFn_other|].
    apply Forall_forall. intros x Hx. split; [by eapply Forall_forall in Hflat|].
    intros Hn. apply Hd. rewrite Heq, <- Hn. apply list_elem_of_In, in_map. by apply list_elem_of_In.
  - rewrite deleteSubtitleFn_other by done. rewrite Hf. cbn [negb].
    apply IH; [done..|]. destruct Hin as [?|?]; [done|done].
Qed.

(** An output directory of regular files and the name of one of them,
    other than the directory's own: [deleteSubtitle] removes that entry,
    writes nothing, and the server answers with status 200. *)
Lemma deleteSubtitle_removes_the_file r top es c data :
  assoc subtitlesDir top = Some (Dir es) ->
  wf (Dir es) = true ->
  Forall (fun e => isDir (snd e) = false) es ->
  URLParam r <> subtitlesDir ->
  assoc (URLParam r) es = Some (File data) ->
  deleteSubtitle r (Dir top, c)
  = Some (Dir (setEntry subtitlesDir (Dir (delEntry (URLParam r) es)) top), c).
Proof.
  intros Htop Hwf Hflat Hne Ha. pose proof (wf_Dir _ Hwf) as [Hnd Hval].
  assert (validName (URLParam r) = true) as Hv.
  { apply assoc_Some in Ha. rewrite Forall_forall in Hval.
    by apply list_elem_of_In, Hval in Ha as [? _]. }
  unfold deleteSubtitle, filepath.WalkDir. cbn [fst].
  unfold Lstat. rewrite (lookup_Join [subtitlesDir]) by (by repeat constructor).
  cbn [lookupAt]. rewrite Htop. cbn [isDir]. rewrite walkDir_S.
  rewrite deleteSubtitleFn_other by (intros Hq; apply Hne; by rewrite <- Hq).
  cbn [IsDir negb fst]. unfold ReadDir.
  rewrite (lookup_Join [subtitlesDir]) by (by repeat constructor).
  cbn [lookupAt]. rewrite Htop. cbn [filepath.depth].
  erewrite walkEntries_delete; [done|..].
  - unfold sortByName. rewrite (sortBy_map fst Name entryOf) by done.
    rewrite List.map_map. cbn [entryOf Name].
    eapply NoDup_Permutation_proper; [|exact Hnd].
    change (fun x : string * node => x.1) with (@fst string node).
    apply fmap_Permutation, sortBy_Permutation.
  - apply Forall_forall. intros d Hd. apply list_elem_of_In, sortBy_In in Hd.
    apply in_map_iff in Hd as (e & <- & He). rewrite Forall_forall in Hflat.
    by apply list_elem_of_In, Hflat in He.
  - apply in_map_iff. exists (entryOf (URLParam r, File data)). split; [done|].
    apply sortBy_In, in_map. by apply assoc_Some.
  - change subtitlesDir with (Join [subtitlesDir]) at 1.
    rewrite filepath_Join_snoc by (done || by repeat constructor).
    unfold Remove. rewrite components_Join by (done || by repeat constructor).
    cbn [app lookupAt delAt]. rewrite Htop, Ha. done.
Qed.
End Delete.

(** ** The subtitle path of a name with one dot *)

Section OneDot.
Import GoString GoPath TreeDefs subtitles Spec.

Lemma ContainsByte_app c s t :
  ContainsByte c (s +:+ t) = ContainsByte c s || ContainsByte c t.
Proof.
  induction s as [|a s IH]; [done|]. rewrite append_cons. simpl.
  by destruct (Ascii.eqb a c).
Qed.

Lemma extOfElem_noDot e : ContainsByte "." e = false -> extOfElem e = "".
Proof.
  induction e as [|a e IH]; [done|]. intros [Ha He]%ContainsByte_cons.
  simpl. rewrite IH by done. by destruct (Ascii.eqb_spec a ".").
Qed.

Lemma extOfElem_app stem e :
  ContainsByte "." e = false -> extOfElem (stem +:+ "." +:+ e) = "." +:+ e.
Proof.
  intros He. induction stem as [|a stem IH].
  - rewrite append_nil, append_cons, append_nil. simpl. by rewrite extOfElem_noDot.
  - rewrite append_cons. cbn [extOfElem]. rewrite IH. by rewrite append_cons.
Qed.

Lemma HasPrefix_refl s : HasPrefix s s = true.
Proof. induction s as [|a s IH]; [done|]. simpl. by rewrite Ascii.eqb_refl. Qed.

Lemma drop_all s : drop (String.length s) s = "".
Proof. by induction s. Qed.

Lemma append_nil_r (s : string) : s +:+ "" = s.
Proof. induction s as [|a s IH]; [done|]. by rewrite append_cons, IH. Qed.

Lemma Replace1_prefix s old new :
  HasPrefix s old = true -> Replace1 s old new = new +:+ drop (String.length old) s.
Proof. intros H. destruct s; cbn [Replace1]; by rewrite H. Qed.

Lemma Replace1_suffix stem ext new a :
  ContainsByte a stem = false ->
  Replace1 (stem +:+ String a ext) (String a ext) new = stem +:+ new.
Proof.
  induction stem as [|x stem IH].
  - intros _. rewrite !append_nil.
    rewrite Replace1_prefix by apply HasPrefix_refl. by rewrite drop_all, append_nil_r.
  - intros [Hx Hs]%ContainsByte_cons. rewrite !append_cons.
    cbn [Replace1 HasPrefix]. apply Ascii.eqb_neq in Hx. rewrite Hx. by rewrite IH.
Qed.

Lemma length_append (s t : string) :
  String.length (s +:+ t) = String.length s + String.length t.
Proof. induction s as [|a s IH]; [done|]. rewrite append_cons. simpl. by rewrite IH. Qed.

Lemma take_app s t : take (String.length (s +:+ t) - String.length t) (s +:+ t) = s.
Proof.
  rewrite length_append, Nat.add_sub.
  induction s as [|a s IH]; [by destruct t|]. rewrite append_cons. simpl. by rewrite IH.
Qed.

(** A file name with one dot, after a stem that is not empty: the path
    that the code computes is the one of the specification, the stem
    followed by [".srt"] under the output directory. *)
Lemma subtitlePath_one_dot dir stem e :
  stem <> "" ->
  ContainsByte "." stem = false -> noSlash stem ->
  ContainsByte "." e = false -> noSlash e ->
  subtitlePath dir (stem +:+ "." +:+ e) = Join2 dir (stem +:+ ".srt")
  /\ subtitlePathSpec dir (stem +:+ "." +:+ e) = Join2 dir (stem +:+ ".srt").
Proof.
  intros Hne Hd Hs He Hse.
  assert (noSlash (stem +:+ "." +:+ e)) as Hns.
  { unfold noSlash in *. rewrite !ContainsByte_app, Hs, Hse. done. }
  assert (Ext (stem +:+ "." +:+ e) = "." +:+ e) as Hext.
  { unfold Ext. rewrite Split_noSlash by done. cbn [List.last]. by apply extOfElem_app. }
  split.
  - unfold subtitlePath. rewrite Hext.
    rewrite (append_cons _ _ _ : "." +:+ e = String "." e).
    by rewrite Replace1_suffix.
  - unfold subtitlePathSpec, replaceExt.
    assert (Base (stem +:+ "." +:+ e) = stem +:+ "." +:+ e) as ->.
    { unfold Base. rewrite Split_noSlash by done.
      destruct stem as [|a stem]; [done|]. rewrite append_cons. done. }
    rewrite Hext. by rewrite take_app.
Qed.
End OneDot.

(** ** Instances *)

Section Witnesses.
Import GoOS TreeDefs GoString web http Scenario Spec.


(** C4, as stated, fails: with [sub/x.srt] and [a.srt] in the output
    directory the answer lists [x.srt] too, which is no entry of the output
    directory itself. *)
Lemma listSubtitles_descends_into_subdirectories :
  lookupAt [subtitlesDir] fsNested = Some outNested
  /\ directSrtNames outNested = ["a.srt"]
  /\ lookup "subtitles/x.srt" fsNested = None
  /\ lookup "subtitles/sub/x.srt" fsNested = Some (File (b "X"))
  /\ exists c,
       listSubtitles (get "") (fsNested, newConn) = Some (fsNested, c)
       /\ Body (finish (w c))
          = [JSON (JObject [("subtitles", JArray [JString "a.srt"; JString "x.srt"])])].
Proof.
  repeat split; try (vm_compute; reflexivity).
  eexists. split; vm_compute; reflexivity.
Qed.

(** C4 at the nested output directory. *)
Lemma listSubtitles_lists_the_tree_witness :
  exists c names,
    listSubtitles (get "") (fsNested, newConn) = Some (fsNested, c)
    /\ logs c = []
    /\ finish (w c) =
         {| Status := 200;
            Headers := {[ "Content-Type" := "application/json" ]};
            Body := [JSON (JObject [("subtitles",
                       match names with [] => JNull | _ => JArray (List.map JString names) end)])] |}
    /\ names ≡ₚ List.map fst (srtFiles subtitlesDir outNested).
Proof.
  apply (listSubtitles_lists_the_tree (get "") fsNested outNested); reflexivity.
Defined.

(** C9 at the nested output directory. *)
Lemma subtitlesZip_archives_every_srt_file_witness :
  exists c entries,
    subtitlesZip (get "zip") (fsNested, newConn) = Some (fsNested, c)
    /\ logs c = []
    /\ finish (w c) =
         {| Status := 200;
            Headers := {[ "Content-Disposition" := "attachment; filename=legendas.zip";
                          "Content-Type" := "application/zip" ]};
            Body := [ZipArchive entries] |}
    /\ entries ≡ₚ srtFiles subtitlesDir outNested.
Proof.
  apply (subtitlesZip_archives_every_srt_file (get "zip") fsNested outNested); reflexivity.
Defined.

Lemma sameFiles_outNested : sameFiles outNested outNested'.
Proof.
  intros [|c cs]; [reflexivity|]. unfold observe, outNested, outNested'. cbn [lookupAt assoc].
  destruct (String.eqb_spec c "sub") as [->|?]; [reflexivity|].
  destruct (String.eqb_spec c "a.srt") as [->|?]; reflexivity.
Defined.

(** C10 at the nested output directory and at its permutation. *)
Lemma listSubtitles_is_deterministic_witness :
  (exists c, listSubtitles (get "") (fsNested, newConn) = Some (fsNested, c)
             /\ listSubtitles (get "") (fsNested', newConn) = Some (fsNested', c))
  /\ (forall a,
        filepath.WalkDir subtitlesDir listSubtitlesFn (fsNested, a)
        = Some (runVisits listSubtitlesFn
                  (visits subtitlesDir subtitlesDir (sortTree outNested)) (fsNested, a)))
  /\ List.map (fun v => v.1.1) (visits subtitlesDir subtitlesDir (sortTree outNested))
     = List.map (fun p => Join (subtitlesDir :: p)) (walkPaths (sortTree outNested))
  /\ StronglySorted (fun p q => pathLe p q = true) (walkPaths (sortTree outNested)).
Proof.
  apply (listSubtitles_is_deterministic (get "") fsNested fsNested' outNested outNested');
    try reflexivity.
  exact sameFiles_outNested.
Defined.
End Witnesses.

(** * Further properties of the code *)

(** ** Files written and read back *)

Section FileFrame.
Import GoOS GoString subtitles.

Lemma assoc_setEntry_ne c c' v es : c' <> c -> assoc c' (setEntry c v es) = assoc c' es.
Proof.
  intros Hne. induction es as [|[k x] es IH]; simpl.
  - apply String.eqb_neq in Hne. by rewrite Hne.
  - destruct (String.eqb_spec c k) as [->|Hck]; simpl.
    + apply String.eqb_neq in Hne. by rewrite Hne.
    + destruct (String.eqb c' k); [done|apply IH].
Qed.

Lemma lookupAt_below_File cs : forall n x c more,
  lookupAt cs n = Some (File x) -> lookupAt (cs ++ c :: more) n = None.
Proof.
  induction cs as [|c0 cs IH]; intros n x c more H; simpl in *.
  - by simplify_eq.
  - destruct n as [|es]; [done|]. destruct (assoc c0 es); [by eapply IH|done].
Qed.

(** Putting a node where no directory is leaves every other file as it
    was. *)
Lemma putAt_frame cs : forall v n n' cs' x,
  putAt cs v n = Some n' ->
  (forall es, lookupAt cs n <> Some (Dir es)) ->
  cs' <> cs -> lookupAt cs' n = Some (File x) -> lookupAt cs' n' = Some (File x).
Proof.
  induction cs as [|c cs IH]; intros v n n' cs' x Hput Hnd Hne Hl; [by destruct n|].
  destruct n as [|es]; [by destruct cs|].
  destruct cs' as [|c' cs']; [done|].
  cbn [lookupAt] in Hl. destruct (assoc c' es) as [ch'|] eqn:Ha'; [|done].
  destruct cs as [|c0 cs].
  - simpl in Hput. simplify_eq. cbn [lookupAt].
    destruct (decide (c' = c)) as [->|Hc].
    + rewrite assoc_setEntry. cbn [lookupAt] in Hnd. rewrite Ha' in Hnd.
      destruct ch' as [d|es']; [|by destruct (Hnd es')].
      destruct cs'; [done|]. done.
    + rewrite assoc_setEntry_ne, Ha' by done. done.
  - rewrite putAt_cons in Hput. destruct (assoc c es) as [ch|] eqn:Ha; [|done].
    destruct (putAt (c0 :: cs) v ch) as [ch1|] eqn:Hp; [|done]. simplify_eq.
    cbn [lookupAt].
    destruct (decide (c' = c)) as [->|Hc].
    + rewrite assoc_setEntry. rewrite Ha in Ha'. simplify_eq.
      eapply IH; [done| |congruence|done].
      intros es' He. apply (Hnd es'). cbn [lookupAt]. by rewrite Ha.
    + rewrite assoc_setEntry_ne, Ha' by done. done.
Qed.

Lemma readFile_Ok p f x : readFile p f = Ok x <-> lookup p f = Some (File x).
Proof.
  unfold readFile, Open. destruct (lookup p f) as [[d|es]|]; simpl; split; intros H; by simplify_eq.
Qed.

Lemma writeFile_puts p data f f' :
  writeFile p data f = (f', None) ->
  exists cs f1, components p = Some cs
    /\ (forall es, lookupAt cs f <> Some (Dir es))
    /\ putAt cs (File []) f = Some f1
    /\ putAt cs (File data) f1 = Some f'.
Proof.
  unfold writeFile, Create, Write. intros H.
  destruct (components p) as [cs|]; [|done]. exists cs.
  assert ((forall es, lookupAt cs f <> Some (Dir es)) /\ exists f1, putAt cs (File []) f = Some f1 /\ f' =
            match lookupAt cs f1 with
            | Some (File old) => match putAt cs (File (old ++ data)) f1 with
                                 | Some fs' => fs'
                                 | None => f1
                                 end
            | _ => f1
            end) as (Hnd & f1 & Hp & ->).
  { destruct (lookupAt cs f) as [[]|]; try done;
      destruct (putAt cs (File []) f) as [f1|]; simplify_eq; eauto. }
  exists f1. split; [done|]. split; [done|]. split; [done|].
  pose proof (putAt_lookupAt _ _ _ _ Hp) as Hl. rewrite Hl.
  assert (cs <> []) as Hne by (intros ->; by destruct f).
  destruct (putAt_is_Some cs (File ([] ++ data)) _ f1 Hne Hl) as (f2 & Hp2).
  by rewrite Hp2.
Qed.

(** X1. What [writeFile] has written, [readFile] reads back, whatever
    was at the path before; every other file reads as it did. *)
Theorem writeFile_then_readFile p data f f' :
  writeFile p data f = (f', None) ->
  readFile p f' = Ok data
  /\ forall q x, components q <> components p -> readFile q f = Ok x -> readFile q f' = Ok x.
Proof.
  intros H. split.
  - apply readFile_Ok. by eapply writeFile_lookup.
  - intros q x Hq Hr. apply readFile_Ok in Hr. apply readFile_Ok.
    apply writeFile_puts in H as (cs & f1 & Hc & Hnd & Hp1 & Hp2).
    unfold lookup in *. rewrite Hc in Hq.
    destruct (components q) as [cs'|]; [|done].
    assert (cs' <> cs) as Hne by congruence.
    eapply putAt_frame; [exact Hp2| |done|].
    + intros es. by rewrite (putAt_lookupAt _ _ _ _ Hp1).
    + by eapply putAt_frame.
Qed.
End FileFrame.

(** ** The temporary video file *)

Section TempFiles.
Import GoOS GoString subtitles Scenario.
Context {E : Type}.
Implicit Types (w : world E) (s : Subtitler E).

Lemma createTempLoop_Ok tries : forall pre suf r fs r' name fs',
  createTempLoop tries pre suf r fs = (r', Ok (name, fs')) ->
  (exists k, name = pre +:+ itoa k +:+ suf) /\ OpenExcl name fs = Some (Ok fs').
Proof.
  induction tries as [|tries IH]; intros pre suf r fs r' name fs' H; [done|].
  simpl in H. destruct (OpenExcl _ fs) as [[f1|e]|] eqn:Ho.
  - simplify_eq. split; [by eexists|done].
  - done.
  - by eapply IH.
Qed.

Lemma OpenExcl_Ok name fs fs' :
  OpenExcl name fs = Some (Ok fs') ->
  exists cs, components name = Some cs /\ lookupAt cs fs = None
             /\ putAt cs (File []) fs = Some fs'.
Proof.
  unfold OpenExcl. destruct (components name) as [cs|]; [|done].
  destruct (lookupAt cs fs) eqn:Hl; [done|].
  destruct (putAt cs (File []) fs) as [f1|] eqn:Hp; [|done].
  intros [= <-]. by exists cs.
Qed.

Lemma HasPrefix_app (s t : string) : HasPrefix (s +:+ t) s = true.
Proof. induction s as [|a s IH]; [by destruct t|]. rewrite append_cons. simpl. by rewrite Ascii.eqb_refl. Qed.

Lemma HasPrefix_joinPath dir name rest : HasPrefix (joinPath dir name +:+ rest) dir = true.
Proof.
  unfold joinPath. destruct (lastByte dir) as [[[] [] [] [] [] [] [] []]|];
    rewrite ?append_assoc; apply HasPrefix_app.
Qed.

(** X2. The temporary video file of a successful [createVideoFile] is a
    new file below the temporary directory, for a file name without a
    slash; it holds the bytes that the reader delivered, and every file
    that existed before reads as it did. *)
Theorem createVideoFile_creates_a_new_file s name data w w1 p :
  createVideoFile s name data w = (w1, Ok p) ->
  ContainsByte "/" name = false
  /\ lookup p (fs w) = None
  /\ readFile p (fs w1) = Ok (rbytes data)
  /\ (tmpDir s <> "" -> HasPrefix p (tmpDir s) = true)
  /\ forall q x, readFile q (fs w) = Ok x -> readFile q (fs w1) = Ok x.
Proof.
  unfold createVideoFile, CreateTemp, prefixAndSuffix. intros H.
  destruct (ContainsByte "/" name) eqn:Hs; [done|]. split; [done|].
  set (ps := match CutLast "*" name with Some (pre, suf) => Ok (pre, suf) | None => Ok (name, "") end) in H.
  assert (exists pre suf, ps = Ok (pre, suf)) as (pre & suf & Hps).
  { unfold ps. destruct (CutLast "*" name) as [[]|]; eauto. }
  rewrite Hps in H.
  destruct (createTempLoop _ _ _ _ _) as [r [[v f1]|e]] eqn:Hloop; [|done].
  unfold ioCopy in H. cbn [fs withFs emit withRnd] in H.
  destruct (rerr data); [done|]. simplify_eq. cbn [fs withFs].
  apply createTempLoop_Ok in Hloop as [(k & Hname) Ho].
  apply OpenExcl_Ok in Ho as (cs & Hc & Hnone & Hput).
  pose proof (putAt_lookupAt _ _ _ _ Hput) as Hl1.
  assert (cs <> []) as Hne by (intros ->; by destruct (fs w)).
  destruct (putAt_is_Some cs (File ([] ++ rbytes data)) _ f1 Hne Hl1) as (f2 & Hp2).
  assert (Write p (rbytes data) f1 = f2) as ->.
  { unfold Write. by rewrite Hc, Hl1, Hp2. }
  split; [|split; [|split]].
  - unfold lookup. by rewrite Hc.
  - apply readFile_Ok. unfold lookup. rewrite Hc. by apply putAt_lookupAt in Hp2.
  - intros Hd. rewrite Hname. rewrite isEmpty_false by done. apply HasPrefix_joinPath.
  - intros q x Hq. apply readFile_Ok in Hq. apply readFile_Ok. unfold lookup in *.
    destruct (components q) as [cs'|]; [|done].
    assert (cs' <> cs) as Hne' by (intros ->; congruence).
    eapply putAt_frame; [exact Hp2| |done|].
    + intros es. by rewrite Hl1.
    + eapply putAt_frame; [exact Hput| |done|done]. intros es. by rewrite Hnone.
Qed.

(** X3. A file name with a slash never gets past the first stage:
    [processFile] creates and removes nothing, leaves the failure mark of
    the stage and puts one error on the channel. *)
Theorem processFile_rejects_a_name_with_a_slash s g inp w :
  ContainsByte "/" (FileName inp) = true ->
  fs (processFile s g inp w) = fs w
  /\ trace (processFile s g inp w) = EvFailed g Materialize :: trace w
  /\ exists e, errCh (processFile s g inp w) = errCh w ++ [e].
Proof.
  intros Hs. unfold processFile, createVideoFile, CreateTemp, prefixAndSuffix.
  rewrite Hs. simpl. eauto.
Qed.
End TempFiles.

(** ** The marks of a call *)

Section Marks.
Import GoOS GoString subtitles PipelineDefs MoreDefs.
Context {E : Type}.
Implicit Types (w : world E) (s : Subtitler E).









Lemma hasFailed_hasPersisted_done b :
  hasFailed (PDone b) = b /\ hasPersisted (PDone b) = negb b /\ hasSent (PDone b) = b.
Proof. by destruct b. Qed.







End Marks.

(** ** The error channel *)

Section Channel.
Import GoOS GoString subtitles PipelineDefs MoreDefs.
Context {E : Type}.
Implicit Types (w : world E) (s : Subtitler E).





Lemma run_nil s sched w : run s sched w [] = (w, []).
Proof. induction sched as [|g sched IH]; [done|]. simpl. apply IH. Qed.

(** Without inputs [GenerateFromAudioData] starts no goroutine and
    returns [nil] at once, under every schedule: nothing is read, written
    or logged. *)
Theorem GenerateFromAudioData_without_inputs s sched w :
  GenerateFromAudioData s sched [] w = Some (makeChan 0 w, None).
Proof. unfold GenerateFromAudioData. simpl. by rewrite run_nil. Qed.
End Channel.

(** ** The subtitle path of a name without a slash *)

Section PathInside.
Import GoOS GoString GoPath TreeDefs subtitles MoreDefs.

Lemma plainName_spec c :
  plainName c = true <-> c <> "" /\ c <> "." /\ c <> ".." /\ noSlash c.
Proof.
  unfold plainName, noSlash. rewrite !andb_true_iff, !negb_true_iff, !String.eqb_neq. tauto.
Qed.

Lemma validName_plainName c : validName c = true -> plainName c = true.
Proof. intros (?&?&?&?&_)%validName_spec. by apply plainName_spec. Qed.

Lemma cleanStep_plain st c : plainName c = true -> cleanStep false st c = c :: st.
Proof.
  intros (H1 & H2 & H3 & _)%plainName_spec. unfold cleanStep.
  apply String.eqb_neq in H1, H2, H3. by rewrite H1, H2, H3.
Qed.

Lemma HasPrefix_slash_plain c t : plainName c = true -> HasPrefix (c +:+ t) "/" = false.
Proof.
  intros (Hne & _ & _ & Hs)%plainName_spec. destruct c as [|a c]; [done|].
  apply ContainsByte_cons in Hs as [Ha _]. rewrite append_cons. simpl.
  by destruct (Ascii.eqb_spec a "/").
Qed.

Lemma Join2_plain d x :
  plainName d = true -> plainName x = true -> Join2 d x = d +:+ "/" +:+ x.
Proof.
  intros Hd Hx. pose proof (proj1 (plainName_spec d) Hd) as (Hd1 & _ & _ & Hd4).
  pose proof (proj1 (plainName_spec x) Hx) as (Hx1 & _ & _ & Hx4).
  unfold Join2. rewrite !isEmpty_false by done. unfold Clean.
  rewrite HasPrefix_slash_plain by done.
  rewrite Split_app, Split_noSlash by done.
  cbn [List.fold_left]. rewrite !cleanStep_plain by done. cbn [List.rev app Join].
  destruct d; [done|]. by rewrite append_cons.
Qed.

Lemma components_plain d x :
  plainName d = true -> plainName x = true -> components (d +:+ "/" +:+ x) = Some [d; x].
Proof.
  intros Hd Hx. pose proof (proj1 (plainName_spec d) Hd) as (Hd1 & Hd2 & Hd3 & Hd4).
  pose proof (proj1 (plainName_spec x) Hx) as (Hx1 & Hx2 & Hx3 & Hx4).
  unfold components. rewrite HasPrefix_slash_plain by done.
  assert (isEmpty (d +:+ "/" +:+ x) = false) as -> by (destruct d; [done|by rewrite append_cons]).
  rewrite Split_app, Split_noSlash by done.
  apply String.eqb_neq in Hd1, Hd2, Hx1, Hx2.
  cbn [List.filter]. unfold skipElem. rewrite Hd1, Hd2, Hx1, Hx2. cbn [orb negb List.existsb].
  rewrite (String.eqb_sym ".." d), (String.eqb_sym ".." x).
  apply String.eqb_neq in Hd3, Hx3. by rewrite Hd3, Hx3.
Qed.

Lemma ContainsByte_drop c n : forall s, ContainsByte c s = false -> ContainsByte c (drop n s) = false.
Proof.
  induction n as [|n IH]; intros s H; [done|]. destruct s as [|a s]; [done|].
  simpl. apply ContainsByte_cons in H as [_ H]. by apply IH.
Qed.

Lemma ContainsByte_Replace1 c s old new :
  ContainsByte c s = false -> ContainsByte c new = false ->
  ContainsByte c (Replace1 s old new) = false.
Proof.
  intros Hs Hn. induction s as [|a s IH].
  - cbn [Replace1]. destruct (HasPrefix "" old); [|done].
    rewrite ContainsByte_app, Hn. by apply ContainsByte_drop.
  - cbn [Replace1]. destruct (HasPrefix (String a s) old).
    + rewrite ContainsByte_app, Hn. by apply ContainsByte_drop.
    + pose proof Hs as [Ha Hs']%ContainsByte_cons. simpl.
      destruct (Ascii.eqb_spec a c); [done|]. by apply IH.
Qed.

(** Where [old] occurs, [Replace1] puts [new]. *)
Lemma Replace1_length pre : forall old post new,
  String.length new <= String.length (Replace1 (pre +:+ old +:+ post) old new).
Proof.
  induction pre as [|a pre IH]; intros old post new.
  - rewrite append_nil.
    assert (HasPrefix (old +:+ post) old = true) as Hp by apply HasPrefix_app.
    destruct (old +:+ post); cbn [Replace1]; rewrite Hp, length_append; lia.
  - rewrite append_cons. cbn [Replace1].
    destruct (HasPrefix _ old); [rewrite length_append; lia|].
    simpl. specialize (IH old post new). lia.
Qed.

Lemma extOfElem_suffix s : exists pre, s = pre +:+ extOfElem s.
Proof.
  induction s as [|a s (pre & IH)]; [by exists ""|]. cbn [extOfElem].
  destruct (extOfElem s) as [|b e] eqn:He.
  - destruct (Ascii.eqb a "."); [by exists ""|].
    exists (String a s). clear. induction (String a s) as [|x t IHt]; [done|].
    by rewrite append_cons, <- IHt.
  - exists (String a pre). by rewrite append_cons, <- IH.
Qed.

Lemma Replace1_ext_plain name :
  ContainsByte "/" name = false -> plainName (Replace1 name (Ext name) ".srt") = true.
Proof.
  intros Hn. apply plainName_spec.
  assert (4 <= String.length (Replace1 name (Ext name) ".srt")) as Hlen.
  { unfold Ext. rewrite Split_noSlash by done. cbn [List.last].
    destruct (extOfElem_suffix name) as (pre & Hpre).
    rewrite Hpre at 1. rewrite <- (append_nil_r (extOfElem name)) at 1.
    apply (Replace1_length pre (extOfElem name) "" ".srt"). }
  split; [|split; [|split]]; try (intros Heq; rewrite Heq in Hlen; simpl in Hlen; lia).
  by apply ContainsByte_Replace1.
Qed.

(** X6. For a file name without a slash the subtitle path lies directly
    in the output directory: it is the directory, a slash, and the name
    with [".srt"] put in place of the first occurrence of its extension,
    a name that is itself a single path element. *)
Theorem subtitlePath_stays_in_the_directory dir name :
  plainName dir = true -> ContainsByte "/" name = false ->
  subtitlePath dir name = dir +:+ "/" +:+ Replace1 name (Ext name) ".srt"
  /\ plainName (Replace1 name (Ext name) ".srt") = true
  /\ components (subtitlePath dir name) = Some [dir; Replace1 name (Ext name) ".srt"].
Proof.
  intros Hd Hn. pose proof (Replace1_ext_plain name Hn) as Hx.
  unfold subtitlePath. rewrite Join2_plain by done.
  split; [done|]. split; [done|]. by apply components_plain.
Qed.
End PathInside.

(** ** What the upload handler hands over and answers *)

Section UploadParts.
Import GoOS GoString TreeDefs web http MoreDefs.
Context {S : Type} (G : list subtitles.Input -> S -> S * option error).

Lemma openAll_map files : forall acc, openAll files acc = Ok (acc ++ List.map toInput files).
Proof.
  induction files as [|h files IH]; intros acc; simpl; [by rewrite app_nil_r|].
  rewrite IH. by rewrite <- app_assoc.
Qed.

Lemma readForm_file parts : forall m1 m2 files form,
  readForm parts m1 m2 files = Ok form ->
  exists hdrs,
    default [] (form !! "file") = default [] (files !! "file") ++ hdrs
    /\ List.map toInput hdrs = List.map inputOf (List.filter isFilePart parts).
Proof.
  induction parts as [|p parts IH]; intros m1 m2 files form H; simpl in H.
  - simplify_eq. exists []. by rewrite app_nil_r.
  - unfold isFilePart at 1. cbn [List.filter].
    destruct (GoPath.isEmpty (FormName p)) eqn:Hf.
    { assert (String.eqb (FormName p) "file" = false) as -> by (by destruct (FormName p)).
      by eapply IH. }
    destruct (GoPath.isEmpty (PartFileName p)) eqn:Hn.
    { rewrite andb_false_r. destruct (_ <? _)%Z; [done|]. by eapply IH. }
    rewrite andb_true_r.
    assert (forall b, (exists hdrs,
      default [] (form !! "file")
      = default [] (<[FormName p := default [] (files !! FormName p)
                        ++ [{| Filename := GoPath.Base (PartFileName p);
                               Size := Z.of_nat (length (Content p));
                               content := Content p; OnDisk := b |}]]> files !! "file") ++ hdrs
      /\ List.map toInput hdrs = List.map inputOf (List.filter isFilePart parts)) ->
      exists hdrs,
        default [] (form !! "file") = default [] (files !! "file") ++ hdrs
        /\ List.map toInput hdrs
           = List.map inputOf (if String.eqb (FormName p) "file"
                               then p :: List.filter isFilePart parts
                               else List.filter isFilePart parts)) as Hstep.
    { intros b (hdrs & Hd & Hm).
      destruct (String.eqb_spec (FormName p) "file") as [Heq|Hne].
      - rewrite Heq, lookup_insert_eq in Hd. simpl in Hd.
        eexists (_ :: hdrs). split; [by rewrite Hd, <- app_assoc|].
        simpl. by rewrite Hm.
      - rewrite lookup_insert_ne in Hd by done. by exists hdrs. }
    destruct (_ <? _)%Z; eapply Hstep; by eapply IH.
Qed.

(** X7. [createSubtitles] hands to the subtitler, in one call, one
    input per file part of the form field ["file"], in the order of the
    body: the base name of the part's file name, the part's bytes, and the
    language ["pt"]; parts of other fields and plain values are left out.
    Without such a part the subtitler is not called and the answer is
    400. *)
Theorem createSubtitles_hands_over_the_file_parts r form (s : S) c :
  ParseMultipartForm r maxFileSize = Ok form ->
  createSubtitles G r (s, c)
  = match List.filter isFilePart (Parts r) with
    | [] => (s, e c "No file part in request" None StatusBadRequest)
    | ps =>
        match G (List.map inputOf ps) s with
        | (s', Some err) =>
            (s', e c "Failed to generate subtitles" (Some err) StatusInternalServerError)
        | (s', None) =>
            (s', onWriter (fun w =>
                   Write (JSON (JObject [("message", JString "Subtitles generated successfully")]))
                     (SetHeader "Content-Type" "application/json" w)) c)
        end
    end.
Proof.
  intros Hparse. unfold createSubtitles. rewrite Hparse.
  unfold ParseMultipartForm in Hparse. destruct (Malformed r); [done|].
  apply readForm_file in Hparse as (hdrs & Hd & Hm).
  rewrite lookup_empty in Hd. simpl in Hd.
  destruct (List.filter isFilePart (Parts r)) as [|p ps] eqn:Hps.
  - destruct hdrs; [|done]. destruct (form !! "file") as [[|]|]; simplify_eq/=; done.
  - destruct hdrs as [|h hdrs]; [done|].
    destruct (form !! "file") as [files|]; simpl in Hd; [|done]. subst files.
    rewrite openAll_map. cbn [app]. by rewrite Hm.
Qed.
End UploadParts.

Section UploadAnswers.
Import GoOS GoString TreeDefs web http MoreDefs Scenario.

Lemma finish_e msg err code :
  finish (w (e newConn msg err code))
  = {| Status := code;
       Headers := {[ "X-Content-Type-Options" := "nosniff";
                     "Content-Type" := "text/plain; charset=utf-8" ]};
       Body := [Text (msg +:+ String "010" EmptyString)] |}
  /\ length (logs (e newConn msg err code)) = 1.
Proof.
  split; [|by destruct err]. unfold finish, e. simpl. by rewrite insert_empty.
Qed.

(** X8. Whatever the request and the subtitler, the answer of
    [createSubtitles] is one of five: the JSON message of success with
    status 200, or one of four fixed texts with status 400 or 500.  The
    text of the error itself goes to the log, in one line, never to the
    client; with status 400 the subtitler was not called. *)
Theorem createSubtitles_answers {S} (G : list subtitles.Input -> S -> S * option error) r (s : S) :
  exists s' c,
    createSubtitles G r (s, newConn) = (s', c)
    /\ ((finish (w c) =
           {| Status := 200;
              Headers := {[ "Content-Type" := "application/json" ]};
              Body := [JSON (JObject [("message", JString "Subtitles generated successfully")])] |}
         /\ logs c = [])
        \/ exists msg code,
             In (msg, code) [("Failed to parse the request", 400);
                             ("No file part in request", 400);
                             ("Failed to open the uploaded file", 500);
                             ("Failed to generate subtitles", 500)]
             /\ finish (w c) =
                  {| Status := code;
                     Headers := {[ "X-Content-Type-Options" := "nosniff";
                                   "Content-Type" := "text/plain; charset=utf-8" ]};
                     Body := [Text (msg +:+ String "010" EmptyString)] |}
             /\ length (logs c) = 1
             /\ (code = 400 -> s' = s)).
Proof.
  unfold createSubtitles.
  destruct (ParseMultipartForm r maxFileSize) as [form|err].
  2:{ eexists _, _. split; [done|]. right. eexists _, _. split; [by left|].
      split; [apply finish_e|]. split; [apply finish_e|done]. }
  destruct (form !! "file") as [[|h files]|].
  1,3: eexists _, _; (split; [done|]); right; eexists _, _; (split; [right; by left|]);
       (split; [apply finish_e|]); (split; [apply finish_e|done]).
  destruct (openAll (h :: files) []) as [inputs|err].
  2:{ eexists _, _. split; [done|]. right. eexists _, _. split; [right; right; by left|].
      split; [apply finish_e|]. split; [apply finish_e|done]. }
  destruct (G inputs s) as [s' [err|]].
  - eexists _, _. split; [done|]. right. eexists _, _. split; [right; right; right; by left|].
    split; [apply finish_e|]. split; [apply finish_e|done].
  - eexists _, _. split; [done|]. left. split; [|done].
    unfold finish. simpl. by rewrite insert_empty.
Qed.

Lemma Split_all_noSlash s : Forall noSlash (Split s).
Proof.
  induction s as [|a s IH]; [by repeat constructor|]. simpl.
  destruct (Ascii.eqb_spec a "/") as [->|Ha]; [by constructor|].
  destruct (Split s) as [|h t].
  - constructor; [|done]. unfold noSlash. simpl. by destruct (Ascii.eqb_spec a "/").
  - apply Forall_cons in IH as [Hh Ht]. constructor; [|done].
    unfold noSlash in *. simpl. by destruct (Ascii.eqb_spec a "/").
Qed.

Lemma Base_noSlash p : GoPath.Base p = "/" \/ noSlash (GoPath.Base p).
Proof.
  unfold GoPath.Base. destruct (GoPath.isEmpty p); [by right|].
  pose proof (Split_all_noSlash p) as Hall.
  assert (Forall noSlash (List.filter (fun c => negb (GoPath.isEmpty c)) (Split p))) as Hf.
  { apply Forall_forall. intros c (Hc & _)%list_elem_of_In%List.filter_In.
    rewrite Forall_forall in Hall. by apply Hall, list_elem_of_In. }
  destruct (List.filter _ _) as [|c cs]; [by left|]. right.
  apply Forall_cons in Hf as [Hc Hcs]. revert c Hc.
  induction cs as [|x cs IH]; intros c Hc; [done|].
  apply Forall_cons in Hcs as [Hx Hcs]. rewrite last_cons. by apply IH.
Qed.

(** X9. The file names that [createSubtitles] hands to the subtitler
    carry no directory: each is the base name of what the client sent and
    has no slash, unless it is the single slash; the language of every
    input is ["pt"], and the subtitler is called once at most. *)
Theorem createSubtitles_passes_base_names r c calls c' :
  createSubtitles recorder r ([], c) = (calls, c') ->
  length calls <= 1
  /\ forall inputs inp, In inputs calls -> In inp inputs ->
       (subtitles.FileName inp = "/" \/ ContainsByte "/" (subtitles.FileName inp) = false)
       /\ subtitles.Language inp = "pt".
Proof.
  unfold createSubtitles.
  destruct (ParseMultipartForm r maxFileSize) as [form|err] eqn:Hparse.
  2:{ intros [= <- <-]. split; [simpl; lia|]. intros ?? []. }
  unfold ParseMultipartForm in Hparse. destruct (Malformed r); [done|].
  apply readForm_file in Hparse as (hdrs & Hd & Hm).
  rewrite lookup_empty in Hd. simpl in Hd.
  destruct (form !! "file") as [[|h files]|].
  1,3: intros [= <- <-]; (split; [simpl; lia|]); intros ?? [].
  rewrite openAll_map. simpl in Hd. subst hdrs. cbn [app recorder].
  intros [= <- <-]. split; [simpl; lia|].
  intros inputs inp [<-|[]] Hin.
  change (toInput h :: List.map toInput files) with (List.map toInput (h :: files)) in Hin.
  rewrite Hm in Hin.
  apply in_map_iff in Hin as (p & <- & _). split; [|done]. apply Base_noSlash.
Qed.
End UploadAnswers.

(** ** The handlers without an output directory *)

Section Missing.
Import GoOS GoString TreeDefs web http.

Lemma WalkDir_missing {A} (fn : filepath.WalkDirFunc A) fs a :
  lookupAt [subtitlesDir] fs = None ->
  filepath.WalkDir subtitlesDir fn (fs, a) = Some (fn subtitlesDir None (Some ENOENT) (fs, a)).
Proof.
  intros H. unfold filepath.WalkDir, Lstat. cbn [fst].
  rewrite (lookup_Join [subtitlesDir]) by (done || by repeat constructor). by rewrite H.
Qed.

(** X10. Without an output directory [listSubtitles] reports the error
    and goes on: the answer has status 500 and the headers of the error,
    and its body is the error message followed by the JSON document of an
    empty list. *)
Theorem listSubtitles_without_output_directory r fs :
  lookupAt [subtitlesDir] fs = None ->
  exists c,
    listSubtitles r (fs, newConn) = Some (fs, c)
    /\ length (logs c) = 1
    /\ finish (w c) =
         {| Status := 500;
            Headers := {[ "X-Content-Type-Options" := "nosniff";
                          "Content-Type" := "text/plain; charset=utf-8" ]};
            Body := [Text ("Failed to compile zip file" +:+ String "010" EmptyString);
                     JSON (JObject [("subtitles", JNull)])] |}.
Proof.
  intros H. unfold listSubtitles. rewrite WalkDir_missing by done.
  eexists. split; [reflexivity|]. split; [done|].
  unfold finish. simpl. by rewrite insert_empty.
Qed.

(** X11. Without an output directory [subtitlesZip] reports the error
    and goes on as well: status 500, the headers of the error, and a body
    of the error message followed by an archive without entries. *)
Theorem subtitlesZip_without_output_directory r fs :
  lookupAt [subtitlesDir] fs = None ->
  exists c,
    subtitlesZip r (fs, newConn) = Some (fs, c)
    /\ length (logs c) = 1
    /\ finish (w c) =
         {| Status := 500;
            Headers := {[ "X-Content-Type-Options" := "nosniff";
                          "Content-Type" := "text/plain; charset=utf-8" ]};
            Body := [Text ("Failed to compile zip file" +:+ String "010" EmptyString);
                     ZipArchive []] |}.
Proof.
  intros H. unfold subtitlesZip. rewrite WalkDir_missing by done.
  eexists. split; [reflexivity|]. split; [done|].
  unfold finish. simpl. by rewrite insert_empty.
Qed.

(** X12. Without an output directory [subtitleFile] and [deleteSubtitle]
    answer with status 500 and the error message alone, for every name,
    and leave the file system as it is. *)
Theorem by_name_handlers_without_output_directory r fs :
  lookupAt [subtitlesDir] fs = None ->
  exists c,
    subtitleFile r (fs, newConn) = Some (fs, c)
    /\ deleteSubtitle r (fs, newConn) = Some (fs, c)
    /\ length (logs c) = 1
    /\ finish (w c) =
         {| Status := 500;
            Headers := {[ "X-Content-Type-Options" := "nosniff";
                          "Content-Type" := "text/plain; charset=utf-8" ]};
            Body := [Text ("Failed to compile zip file" +:+ String "010" EmptyString)] |}.
Proof.
  intros H. unfold subtitleFile, deleteSubtitle. rewrite !WalkDir_missing by done.
  eexists. split; [reflexivity|]. split; [reflexivity|]. split; [done|].
  unfold finish. simpl. by rewrite insert_empty.
Qed.
End Missing.

(** ** Fetching and deleting in a directory of regular files *)

Section ByNameFlat.
Import GoOS GoString TreeDefs web http MoreDefs.

Lemma flat_Forall es : flat es = true -> Forall (fun e => isDir (snd e) = false) es.
Proof.
  unfold flat. rewrite List.forallb_forall. intros H. apply Forall_forall. intros e He.
  apply negb_true_iff, H. by apply list_elem_of_In.
Qed.

Lemma walkEntries_once {A} (fn : filepath.WalkDirFunc A) sub fuel st st' ds :
  (forall p d st, Name d <> sub -> fn p (Some d) None st = (st, None)) ->
  NoDup (List.map Name ds) ->
  Forall (fun d => IsDir d = false) ds ->
  In sub (List.map Name ds) ->
  (forall d, In d ds -> Name d = sub ->
     fn (filepath.Join subtitlesDir sub) (Some d) None st = (st', None)) ->
  filepath.walkEntries (fun p d1 => filepath.walkDir (S fuel) p d1 fn) subtitlesDir ds st
  = Some (st', None).
Proof.
  intros Hother Hnd Hflat Hin Hhit. induction ds as [|d ds IH]; [done|].
  apply NoDup_cons in Hnd as [Hd Hnd]. apply Forall_cons in Hflat as [Hf Hflat].
  cbn [filepath.walkEntries]. rewrite walkDir_S.
  destruct (decide (Name d = sub)) as [Heq|Hne].
  - rewrite Heq, (Hhit d) by (done || by left). rewrite Hf. cbn [negb].
    apply (walkEntries_other _ sub); [done|].
    apply Forall_forall. intros x Hx. split; [by eapply Forall_forall in Hflat|].
    intros Hn. apply Hd. rewrite Heq, <- Hn. apply list_elem_of_In, in_map. by apply list_elem_of_In.
  - rewrite Hother by done. rewrite Hf. cbn [negb].
    apply IH; [done..| |].
    + destruct Hin as [?|?]; done.
    + intros d' Hd'. apply Hhit. by right.
Qed.

(** The walk of an output directory of regular files by a callback that
    acts on one name only. *)
Lemma WalkDir_flat_once {A} (fn : filepath.WalkDirFunc A) sub top es data a st' :
  (forall p d st, Name d <> sub -> fn p (Some d) None st = (st, None)) ->
  assoc subtitlesDir top = Some (Dir es) -> wf (Dir es) = true -> flat es = true ->
  sub <> subtitlesDir -> assoc sub es = Some (File data) ->
  fn (Join [subtitlesDir; sub]) (Some {| Name := sub; IsDir := false |}) None (Dir top, a)
    = (st', None) ->
  filepath.WalkDir subtitlesDir fn (Dir top, a) = Some (st', None).
Proof.
  intros Hother Htop Hwf Hflat%flat_Forall Hne Ha Hhit.
  pose proof (wf_Dir _ Hwf) as [Hnd Hval].
  assert (validName sub = true) as Hv.
  { apply assoc_Some in Ha. rewrite Forall_forall in Hval.
    by apply list_elem_of_In, Hval in Ha as [? _]. }
  unfold filepath.WalkDir. cbn [fst].
  unfold Lstat. rewrite (lookup_Join [subtitlesDir]) by (by repeat constructor).
  cbn [lookupAt]. rewrite Htop. cbn [isDir]. rewrite walkDir_S.
  rewrite Hother by (intros Hq; apply Hne; by rewrite <- Hq).
  cbn [IsDir negb fst]. unfold ReadDir.
  rewrite (lookup_Join [subtitlesDir]) by (by repeat constructor).
  cbn [lookupAt]. rewrite Htop. cbn [filepath.depth].
  apply (walkEntries_once fn sub); [done|..].
  - unfold sortByName. rewrite (sortBy_map fst Name entryOf) by done.
    rewrite List.map_map. cbn [entryOf Name].
    eapply NoDup_Permutation_proper; [|exact Hnd].
    change (fun x : string * node => x.1) with (@fst string node).
    apply fmap_Permutation, sortBy_Permutation.
  - apply Forall_forall. intros d Hd. apply list_elem_of_In, sortBy_In in Hd.
    apply in_map_iff in Hd as (e & <- & He). rewrite Forall_forall in Hflat.
    by apply list_elem_of_In, Hflat in He.
  - apply in_map_iff. exists (entryOf (sub, File data)). split; [done|].
    apply sortBy_In, in_map. by apply assoc_Some.
  - intros d Hd Hname. apply sortBy_In, in_map_iff in Hd as ([k n] & <- & He).
    cbn [entryOf Name fst snd] in *. subst k.
    rewrite (assoc_In _ _ _ Hnd He) in Ha. simplify_eq. cbn [isDir].
    change subtitlesDir with (Join [subtitlesDir]) at 1.
    rewrite filepath_Join_snoc by (done || by repeat constructor). exact Hhit.
Qed.

(** X13. From an output directory of regular files [subtitleFile]
    serves the file that bears the name: status 200, the subtitle content
    type, the name as the download name, and the bytes of the file.  The
    name is not the directory's own, and the URL has no [..] element and
    does not end in [/index.html], which [http.ServeFile] redirects. *)
Theorem subtitleFile_serves_the_file r top es data :
  assoc subtitlesDir top = Some (Dir es) -> wf (Dir es) = true -> flat es = true ->
  URLParam r <> subtitlesDir -> assoc (URLParam r) es = Some (File data) ->
  containsDotDot (URLPath r) = false -> HasSuffix (URLPath r) "/index.html" = false ->
  exists c,
    subtitleFile r (Dir top, newConn) = Some (Dir top, c)
    /\ logs c = []
    /\ Status (finish (w c)) = 200
    /\ Headers (finish (w c)) !! "Content-Type" = Some "application/x-subrip"
    /\ Headers (finish (w c)) !! "Content-Disposition"
       = Some ("attachment; filename=" +:+ URLParam r)
    /\ Body (finish (w c)) = [Bytes data].
Proof.
  intros Htop Hwf Hflat Hne Ha Hdd Hix.
  assert (validName (URLParam r) = true) as Hv.
  { pose proof (wf_Dir _ Hwf) as [_ Hval]. apply assoc_Some in Ha.
    rewrite Forall_forall in Hval. by apply list_elem_of_In, Hval in Ha as [? _]. }
  unfold subtitleFile.
  erewrite (WalkDir_flat_once (subtitleFileFn r (URLParam r)) (URLParam r) top es data);
    [| intros; by apply subtitleFileFn_other | done.. | ].
  2:{ unfold subtitleFileFn. cbn [Name]. rewrite String.eqb_refl. reflexivity. }
  eexists. split; [reflexivity|]. split; [done|].
  cbn [fst snd onWriter w newConn]. unfold ServeFile. rewrite Hdd, Hix.
  rewrite (lookup_Join [subtitlesDir; URLParam r]) by (done || by repeat constructor).
  cbn [lookupAt]. rewrite Htop, Ha.
  unfold finish. simpl. split; [done|]. split; [|split; [|done]].
  - by rewrite lookup_insert_ne, lookup_insert_eq.
  - by rewrite lookup_insert_eq.
Qed.
End ByNameFlat.

Section DeleteFlat.
Import GoOS GoString TreeDefs web http MoreDefs.

Lemma delEntry_sublist k es : sublist (delEntry k es) es.
Proof.
  induction es as [|[k' v] es IH]; [done|]. simpl.
  destruct (String.eqb k k'); [by apply sublist_cons|by apply sublist_skip].
Qed.

Lemma NoDup_nodupb l : NoDup l -> nodupb l = true.
Proof.
  induction 1 as [|x l Hx _ IH]; [done|]. simpl. rewrite IH, andb_true_r.
  apply negb_true_iff, not_true_is_false. intros (y & Hy & ->%String.eqb_eq)%List.existsb_exists.
  by apply Hx, list_elem_of_In.
Qed.

Lemma wf_sublist es' es : sublist es' es -> wf (Dir es) = true -> wf (Dir es') = true.
Proof.
  intros Hsub [Hnd Hall]%wf_Dir. cbn [wf]. apply andb_true_iff. split.
  - apply NoDup_nodupb. eapply sublist_NoDup; [done|]. by apply fmap_sublist.
  - apply List.forallb_forall. intros e He. apply andb_true_iff.
    eapply Forall_forall in Hall; [exact Hall|].
    eapply sublist_subseteq in Hsub. apply Hsub. by apply list_elem_of_In.
Qed.

Lemma flat_sublist es' es : sublist es' es -> flat es = true -> flat es' = true.
Proof.
  unfold flat. rewrite !List.forallb_forall. intros Hsub H e He. apply H.
  eapply sublist_subseteq in Hsub.
  apply list_elem_of_In, Hsub. by apply list_elem_of_In.
Qed.

Lemma delEntry_names k es :
  NoDup (List.map fst es) ->
  List.map fst (delEntry k es) = List.filter (fun c => negb (String.eqb c k)) (List.map fst es).
Proof.
  induction es as [|[k' v] es IH]; [done|]. simpl. intros [Hk Hnd]%NoDup_cons.
  rewrite (String.eqb_sym k' k). destruct (String.eqb_spec k k') as [->|Hne]; simpl.
  - symmetry. apply forallb_filter_id, List.forallb_forall. intros c Hc.
    apply negb_true_iff, String.eqb_neq. intros ->. by apply Hk, list_elem_of_In.
  - by rewrite IH.
Qed.

Lemma namedFiles_flat name es :
  flat es = true -> List.map fst (namedFiles name (Dir es)) = List.map fst es.
Proof.
  unfold namedFiles. cbn [filesUnder]. induction es as [|[k n] es IH]; [done|].
  cbn [flat List.forallb flat_map]. intros [Hn Hes]%andb_true_iff.
  rewrite !List.map_app, IH by done. destruct n; [done|done].
Qed.

Lemma filter_map_fst {A B} (P : A -> bool) (l : list (A * B)) :
  List.map fst (List.filter (fun x => P (fst x)) l) = List.filter P (List.map fst l).
Proof.
  induction l as [|x l IH]; [done|]. simpl. destruct (P x.1); simpl; by rewrite IH.
Qed.

Lemma filter_andb {A} (P Q : A -> bool) (l : list A) :
  List.filter P (List.filter Q l) = List.filter (fun x => Q x && P x) l.
Proof.
  induction l as [|x l IH]; [done|]. simpl. destruct (Q x); simpl; [|done].
  destruct (P x); by rewrite IH.
Qed.

Lemma srtFiles_flat name es :
  flat es = true -> List.map fst (srtFiles name (Dir es)) = List.filter isSrt (List.map fst es).
Proof. intros H. unfold srtFiles. by rewrite filter_map_fst, namedFiles_flat. Qed.

(** X14. From an output directory of regular files [deleteSubtitle]
    removes the file that bears the name and no other file, and answers
    with status 200 and an empty body. *)
Theorem deleteSubtitle_removes_that_file_only r top es data :
  assoc subtitlesDir top = Some (Dir es) -> wf (Dir es) = true -> flat es = true ->
  URLParam r <> subtitlesDir -> assoc (URLParam r) es = Some (File data) ->
  exists fs',
    deleteSubtitle r (Dir top, newConn) = Some (fs', newConn)
    /\ finish (w newConn) = {| Status := 200; Headers := ∅; Body := [] |}
    /\ lookupAt [subtitlesDir; URLParam r] fs' = None
    /\ forall cs x, cs <> [subtitlesDir; URLParam r] ->
         lookupAt cs (Dir top) = Some (File x) -> lookupAt cs fs' = Some (File x).
Proof.
  intros Htop Hwf Hflat Hne Ha. pose proof (wf_Dir _ Hwf) as [Hnd _].
  eexists. split.
  { apply (deleteSubtitle_removes_the_file r top es newConn data); try done.
    by apply flat_Forall. }
  split; [done|]. split.
  - cbn [lookupAt]. rewrite assoc_setEntry, assoc_delEntry by done. by rewrite String.eqb_refl.
  - intros [|c cs] x Hcs Hl; [done|]. cbn [lookupAt] in *.
    destruct (decide (c = subtitlesDir)) as [->|Hc].
    + rewrite assoc_setEntry. rewrite Htop in Hl.
      destruct cs as [|k cs]; [done|]. cbn [lookupAt] in *.
      rewrite assoc_delEntry by done.
      destruct (String.eqb_spec k (URLParam r)) as [->|Hk]; [|done].
      rewrite Ha in Hl. destruct cs; [done|done].
    + by rewrite assoc_setEntry_ne.
Qed.

(** X15. After [deleteSubtitle] has removed a file from an output
    directory of regular files, [listSubtitles] lists the [.srt] names
    that the directory held, without the name removed. *)
Theorem deleteSubtitle_then_listSubtitles r r' top es data :
  assoc subtitlesDir top = Some (Dir es) -> wf (Dir es) = true -> flat es = true ->
  URLParam r <> subtitlesDir -> assoc (URLParam r) es = Some (File data) ->
  exists fs' c names,
    deleteSubtitle r (Dir top, newConn) = Some (fs', newConn)
    /\ listSubtitles r' (fs', newConn) = Some (fs', c)
    /\ Status (finish (w c)) = 200
    /\ Body (finish (w c)) = [JSON (JObject [("subtitles", encodeSlice (sliceOf names))])]
    /\ names ≡ₚ List.filter (fun k => isSrt k && negb (String.eqb k (URLParam r)))
                  (List.map fst es).
Proof.
  intros Htop Hwf Hflat Hne Ha. pose proof (wf_Dir _ Hwf) as [Hnd _].
  pose proof (delEntry_sublist (URLParam r) es) as Hsub.
  pose proof (wf_sublist _ _ Hsub Hwf) as Hwf'.
  pose proof (flat_sublist _ _ Hsub Hflat) as Hflat'.
  eexists _, _, (List.map fst (srtFiles subtitlesDir (sortTree (Dir (delEntry (URLParam r) es))))).
  split.
  { apply (deleteSubtitle_removes_the_file r top es newConn data); try done.
    by apply flat_Forall. }
  split.
  { unfold listSubtitles.
    rewrite (listSubtitles_walk _ (Dir (delEntry (URLParam r) es))); [reflexivity| |done].
    cbn [lookupAt]. by rewrite assoc_setEntry. }
  split; [done|]. split; [done|].
  rewrite (Permutation_map fst (srtFiles_sortTree _ subtitlesDir)).
  rewrite srtFiles_flat, delEntry_names by done.
  rewrite filter_andb. apply reflexive_eq, List.filter_ext. intros k. apply andb_comm.
Qed.

(** X16. Deleting the same name again finds nothing: the second
    [deleteSubtitle] leaves the file system as the first left it and
    answers with status 200 as well. *)
Theorem deleteSubtitle_twice r top es data :
  assoc subtitlesDir top = Some (Dir es) -> wf (Dir es) = true -> flat es = true ->
  URLParam r <> subtitlesDir -> assoc (URLParam r) es = Some (File data) ->
  exists fs',
    deleteSubtitle r (Dir top, newConn) = Some (fs', newConn)
    /\ deleteSubtitle r (fs', newConn) = Some (fs', newConn).
Proof.
  intros Htop Hwf Hflat Hne Ha. pose proof (wf_Dir _ Hwf) as [Hnd _].
  pose proof (delEntry_sublist (URLParam r) es) as Hsub.
  eexists. split.
  { apply (deleteSubtitle_removes_the_file r top es newConn data); try done.
    by apply flat_Forall. }
  apply (deleteSubtitle_no_match r _ (Dir (delEntry (URLParam r) es))).
  - cbn [lookupAt]. by rewrite assoc_setEntry.
  - by eapply wf_sublist.
  - intros [Heq|Hin]; [done|].
    assert (entryNames (Dir (delEntry (URLParam r) es)) = List.map fst (delEntry (URLParam r) es)) as Hen.
    { pose proof (flat_sublist _ _ Hsub Hflat) as Hf. clear -Hf.
      induction (delEntry (URLParam r) es) as [|[k n] l IH]; [done|].
      cbn [flat List.forallb] in Hf. apply andb_true_iff in Hf as [Hn Hl].
      cbn [entryNames flat_map]. cbn [entryNames] in IH. rewrite IH by done.
      by destruct n. }
    rewrite Hen, delEntry_names in Hin by done.
    apply List.filter_In in Hin as [_ Hx]. by rewrite String.eqb_refl in Hx.
Qed.
End DeleteFlat.

(** ** From the Persist stage to the list *)

Section WrittenThenListed.
Import GoOS GoString GoPath TreeDefs subtitles web http MoreDefs.

Lemma namedFiles_In name k d es : In (k, File d) es -> In (k, d) (namedFiles name (Dir es)).
Proof.
  intros Hin. rewrite namedFiles_Dir. apply in_flat_map. exists (k, File d). split; [done|].
  by left.
Qed.

(** X17. What the Persist stage writes, [listSubtitles] finds: with the
    output directory that [main] gives to the subtitler, a subtitle
    written for a file name without a slash is listed under its name,
    provided that this name has the extension [.srt]. *)
Theorem written_subtitle_is_listed r name data fs fs' :
  ContainsByte "/" name = false ->
  isSrt (Replace1 name (Ext name) ".srt") = true ->
  writeFile (subtitlePath main.subtitlesDir name) data fs = (fs', None) ->
  wf fs' = true ->
  exists c names,
    listSubtitles r (fs', newConn) = Some (fs', c)
    /\ Status (finish (w c)) = 200
    /\ Body (finish (w c)) = [JSON (JObject [("subtitles", JArray (List.map JString names))])]
    /\ In (Replace1 name (Ext name) ".srt") names.
Proof.
  intros Hn Hsrt Hw Hwf.
  pose proof (Replace1_ext_plain name Hn) as Hx.
  apply writeFile_lookup in Hw. unfold subtitlePath in Hw.
  change main.subtitlesDir with subtitlesDir in Hw.
  rewrite Join2_plain in Hw by done.
  unfold lookup in Hw. rewrite components_plain in Hw by done.
  cbn [lookupAt] in Hw. destruct fs' as [|top]; [done|].
  destruct (assoc subtitlesDir top) as [out|] eqn:Htop; [|done].
  destruct out as [|es]; [done|].
  destruct (assoc _ es) as [n|] eqn:Ha; [|done]. simplify_eq.
  assert (wf (Dir es) = true) as Hwf'.
  { apply wf_Dir in Hwf as [_ Hall]. apply assoc_Some in Htop.
    rewrite Forall_forall in Hall. apply list_elem_of_In, Hall in Htop as [_ Hw']. exact Hw'. }
  assert (In (Replace1 name (Ext name) ".srt")
            (List.map fst (srtFiles subtitlesDir (sortTree (Dir es))))) as Hin.
  { apply list_elem_of_In. rewrite (Permutation_map fst (srtFiles_sortTree _ subtitlesDir)).
    apply list_elem_of_In, in_map_iff. exists (Replace1 name (Ext name) ".srt", data).
    split; [done|]. apply List.filter_In. split; [|done].
    by apply namedFiles_In, assoc_Some. }
  set (names := List.map fst (srtFiles subtitlesDir (sortTree (Dir es)))) in *.
  exists (onWriter (fun w => Write (JSON (encodeList {| Subtitles := sliceOf names |}))
            (SetHeader "Content-Type" "application/json" w)) newConn), names.
  split.
  { unfold listSubtitles. rewrite (listSubtitles_walk (Dir top) (Dir es)); [done| |done].
    cbn [lookupAt]. by rewrite Htop. }
  split; [done|]. split; [|done].
  clearbody names. destruct names as [|x0 l]; [by destruct Hin|done].
Qed.
End WrittenThenListed.

(** ** The start of the program *)

Section StartUp.
Import GoOS GoString TreeDefs subtitles web http.

Lemma statAt_lookupAt cs : forall n m, statAt cs n = Ok m <-> lookupAt cs n = Some m.
Proof.
  induction cs as [|c cs IH]; intros n m; simpl.
  - split; intros; by simplify_eq.
  - destruct n as [|es]; [done|]. destruct (assoc c es); [apply IH|done].
Qed.

Lemma mkdirAt_cons c c' cs es :
  mkdirAt (c :: c' :: cs) (Dir es)
  = match assoc c es with
    | Some ch => match mkdirAt (c' :: cs) ch with
                 | Ok ch' => Ok (Dir (setEntry c ch' es))
                 | Err e => Err e
                 end
    | None => Err ENOENT
    end.
Proof. reflexivity. Qed.

Lemma mkdirAt_statAt cs : forall n n', mkdirAt cs n = Ok n' -> statAt cs n' = Ok (Dir []).
Proof.
  induction cs as [|c cs IH]; intros n n' H; [by destruct n|].
  destruct n as [|es]; [by destruct cs|]. destruct cs as [|c' cs].
  - simpl in H. destruct (assoc c es); [done|]. simplify_eq. simpl. by rewrite assoc_setEntry.
  - rewrite mkdirAt_cons in H. destruct (assoc c es) as [ch|]; [|done].
    destruct (mkdirAt (c' :: cs) ch) as [ch'|] eqn:Hm; [|done]. simplify_eq.
    cbn [statAt]. rewrite assoc_setEntry. by eapply IH.
Qed.

Lemma mkdirAt_frame cs : forall n n' cs' x,
  mkdirAt cs n = Ok n' -> lookupAt cs' n = Some (File x) -> lookupAt cs' n' = Some (File x).
Proof.
  induction cs as [|c cs IH]; intros n n' cs' x H Hl; [by destruct n|].
  destruct n as [|es]; [by destruct cs|]. destruct cs' as [|c1 cs']; [done|].
  cbn [lookupAt] in Hl. destruct (assoc c1 es) as [ch1|] eqn:Ha1; [|done].
  destruct cs as [|c' cs].
  - simpl in H. destruct (assoc c es) eqn:Ha; [done|]. simplify_eq. cbn [lookupAt].
    rewrite assoc_setEntry_ne, Ha1; [done|]. intros ->. congruence.
  - rewrite mkdirAt_cons in H. destruct (assoc c es) as [ch|] eqn:Ha; [|done].
    destruct (mkdirAt (c' :: cs) ch) as [ch'|] eqn:Hm; [|done]. simplify_eq.
    cbn [lookupAt]. destruct (decide (c1 = c)) as [->|Hne].
    + rewrite assoc_setEntry. simplify_eq. by eapply IH.
    + by rewrite assoc_setEntry_ne, Ha1.
Qed.

(** X18. When [makeDir] returns, every file reads as it did before, and
    the path names an entry, unless it runs through a regular file; a
    second [makeDir] of the same path finds the entry and does nothing,
    not even write to the log. *)
Theorem makeDir_keeps_files_and_is_idempotent path st st' :
  main.makeDir path st = main.Returns tt st' ->
  (forall q x, readFile q (fst st) = Ok x -> readFile q (fst st') = Ok x)
  /\ ((exists d, Stat path (fst st') = Ok d) \/ Stat path (fst st) = Err ENOTDIR)
  /\ main.makeDir path st' = main.Returns tt st'.
Proof.
  unfold main.makeDir, Stat, Mkdir. destruct st as [f l]. cbn [fst snd main.logLine].
  destruct (components path) as [cs|] eqn:Hc.
  2:{ simpl. done. }
  destruct (statAt cs f) as [n|err] eqn:Hs.
  { simpl. intros [= <-]. cbn [fst]. rewrite Hs. split; [done|]. split; [|done]. left. eauto. }
  cbn [IsNotExist]. destruct (String.eqb_spec err ENOENT) as [->|Hne].
  - destruct (mkdirAt cs f) as [f'|e] eqn:Hm; [|done].
    intros [= <-]. cbn [fst]. rewrite (mkdirAt_statAt _ _ _ Hm). split; [|split; [|done]].
    + intros q x Hq. apply readFile_Ok in Hq. apply readFile_Ok. unfold lookup in *.
      destruct (components q) as [cs'|]; [|done]. by eapply mkdirAt_frame.
    + left. eauto.
  - intros [= <-]. cbn [fst]. rewrite Hs. cbn [IsNotExist].
    apply String.eqb_neq in Hne. rewrite Hne. split; [done|]. split; [|done].
    right. f_equal.
    clear -Hs Hne. apply String.eqb_neq in Hne. revert f Hs.
    induction cs as [|c cs IH]; intros f Hs; [done|]. simpl in Hs.
    destruct f as [|es]; [by simplify_eq|]. destruct (assoc c es); [by eapply IH|by simplify_eq].
Qed.

Lemma makeDir_top name es l :
  components name = Some [name] ->
  exists l',
    main.makeDir name (Dir es, l)
    = main.Returns tt (Dir (match assoc name es with
                       | Some _ => es
                       | None => setEntry name (Dir []) es
                       end), l').
Proof.
  intros Hc. unfold main.makeDir, Stat, Mkdir. cbn [fst snd main.logLine]. rewrite Hc. cbn [statAt mkdirAt].
  destruct (assoc name es); cbn; eauto.
Qed.

Section Main.
Context {E : Type}.
Variable audioStripper :
  audiostripper.ExtractAudioInput -> E * node -> (E * node) * result audiostripper.ExtractAudioOutput.
Variable whisperAIClient :
  string -> string -> whisperclient.TranscribeAudioInput -> E -> E * result bytes.

Lemma main_Returns openAIKey es l :
  openAIKey <> "" ->
  exists s l',
    main.main audioStripper whisperAIClient openAIKey (Dir es, l)
    = main.Returns s
        (Dir (let es1 := match assoc web.subtitlesDir es with
                         | Some _ => es
                         | None => setEntry web.subtitlesDir (Dir []) es
                         end in
              match assoc "tmp" es1 with
              | Some _ => es1
              | None => setEntry "tmp" (Dir []) es1
              end), l')
    /\ outputDir s = web.subtitlesDir /\ tmpDir s = "tmp".
Proof.
  intros Hk%String.eqb_neq. unfold main.main. rewrite Hk.
  destruct (makeDir_top main.subtitlesDir es l eq_refl) as (l1 & ->).
  change main.subtitlesDir with web.subtitlesDir.
  set (es1 := match assoc web.subtitlesDir es with
              | Some _ => es
              | None => setEntry web.subtitlesDir (Dir []) es
              end).
  destruct (makeDir_top main.tmpDir es1 l1 eq_refl) as (l2 & ->).
  cbn [New]. eexists _, _. split; [reflexivity|]. done.
Qed.

Lemma main_Returns_key openAIKey st s st' :
  main.main audioStripper whisperAIClient openAIKey st = main.Returns s st' -> openAIKey <> "".
Proof. unfold main.main. intros H ->. done. Qed.

(** X19. When [main] gets as far as the subtitler, the working directory
    holds the entries [subtitles] and [tmp], each the entry that was there
    or else a new, empty directory, and no other entry was touched; the
    subtitler writes to the directory that the handlers read, and puts its
    temporary files in [tmp]. *)
Theorem main_prepares_the_directories openAIKey es l s fs' l' :
  main.main audioStripper whisperAIClient openAIKey (Dir es, l) = main.Returns s (fs', l') ->
  openAIKey <> ""
  /\ outputDir s = web.subtitlesDir
  /\ tmpDir s = "tmp"
  /\ exists es', fs' = Dir es'
       /\ assoc web.subtitlesDir es' = Some (default (Dir []) (assoc web.subtitlesDir es))
       /\ assoc "tmp" es' = Some (default (Dir []) (assoc "tmp" es))
       /\ forall k, k <> "subtitles" -> k <> "tmp" -> assoc k es' = assoc k es.
Proof.
  intros H. pose proof (main_Returns_key _ _ _ _ H) as Hk. split; [done|].
  destruct (main_Returns openAIKey es l Hk) as (s1 & l1 & Hm & Ho & Ht).
  rewrite Hm in H. injection H as <- <- <-.
  split; [done|]. split; [done|]. eexists. split; [reflexivity|].
  cbn zeta.
  destruct (assoc web.subtitlesDir es) as [n1|] eqn:H1.
  - destruct (assoc "tmp" es) as [n2|] eqn:H2; cbn [default].
    + by rewrite H1, H2.
    + rewrite assoc_setEntry. rewrite assoc_setEntry_ne by done. rewrite H1.
      split; [done|]. split; [done|]. intros k _ Hk2. by rewrite assoc_setEntry_ne.
  - rewrite (assoc_setEntry_ne web.subtitlesDir "tmp") by done.
    destruct (assoc "tmp" es) as [n2|] eqn:H2; cbn [default].
    + rewrite assoc_setEntry, assoc_setEntry_ne, H2 by done.
      split; [done|]. split; [done|]. intros k Hk1 _. by rewrite assoc_setEntry_ne.
    + rewrite assoc_setEntry_ne, !assoc_setEntry by done.
      split; [done|]. split; [done|]. intros k Hk1 Hk2. by rewrite !assoc_setEntry_ne.
Qed.

(** X20. After [main] has got as far as the subtitler in a working
    directory that had no entry [subtitles], [listSubtitles] answers with
    status 200 and the JSON document of an empty list. *)
Theorem listSubtitles_after_main openAIKey es l s fs' l' r :
  main.main audioStripper whisperAIClient openAIKey (Dir es, l) = main.Returns s (fs', l') ->
  assoc web.subtitlesDir es = None ->
  exists c,
    listSubtitles r (fs', newConn) = Some (fs', c)
    /\ logs c = []
    /\ finish (w c) =
         {| Status := 200;
            Headers := {[ "Content-Type" := "application/json" ]};
            Body := [JSON (JObject [("subtitles", JNull)])] |}.
Proof.
  intros H Hno. pose proof (main_Returns_key _ _ _ _ H) as Hk.
  destruct (main_Returns openAIKey es l Hk) as (s1 & l1 & Hm & _).
  rewrite Hm in H. injection H as <- <- <-.
  rewrite Hno. cbn zeta.
  unfold listSubtitles. rewrite (listSubtitles_walk _ (Dir [])); [| |done].
  - eexists. split; [reflexivity|]. split; [done|]. unfold finish. simpl. by rewrite insert_empty.
  - cbn [lookupAt].
    destruct (assoc "tmp" _); [|rewrite assoc_setEntry_ne by done]; by rewrite assoc_setEntry.
Qed.
End Main.
End StartUp.

(** ** The temporary video file at the end of [processFile] *)

Section VideoRemoved.
Import GoOS GoString TreeDefs subtitles MoreDefs.
Context {E : Type}.
Implicit Types (w : world E) (s : Subtitler E).













End VideoRemoved.

(** ** The list and the archive *)

Section Agree.
Import GoOS GoString TreeDefs web http.

(** X22. [listSubtitles] and [subtitlesZip] agree: on an output
    directory with valid, distinct names the archive holds one entry per
    listed name, under that name and in the order of the list. *)
Theorem listSubtitles_and_subtitlesZip_agree r r' fs out :
  lookupAt [subtitlesDir] fs = Some out -> wf out = true ->
  exists c1 c2 entries,
    listSubtitles r (fs, newConn) = Some (fs, c1)
    /\ subtitlesZip r' (fs, newConn) = Some (fs, c2)
    /\ Body (finish (w c1))
       = [JSON (JObject [("subtitles", encodeSlice (sliceOf (List.map fst entries)))])]
    /\ Body (finish (w c2)) = [ZipArchive entries].
Proof.
  intros Hlook Hwf. unfold listSubtitles, subtitlesZip.
  rewrite (listSubtitles_walk fs out), (subtitlesZip_walk fs out) by done.
  eexists _, _, (srtFiles subtitlesDir (sortTree out)).
  split; [reflexivity|]. split; [reflexivity|]. split; [done|].
  unfold finish, onWriter, newConn, zip.archive. simpl. by rewrite rev_involutive.
Qed.
End Agree.

(** ** The further properties at concrete inputs *)

Section MoreWitnesses.
Import GoOS GoString GoPath TreeDefs subtitles web http Scenario MoreDefs MoreScenario.

(** X1 at the one-file output directory, overwriting [a.srt]. *)
Lemma writeFile_then_readFile_witness :
  readFile "subtitles/a.srt" (fst (writeFile "subtitles/a.srt" (b "new") fsOne)) = Ok (b "new")
  /\ forall q x, components q <> components "subtitles/a.srt" ->
       readFile q fsOne = Ok x ->
       readFile q (fst (writeFile "subtitles/a.srt" (b "new") fsOne)) = Ok x.
Proof.
  apply (writeFile_then_readFile "subtitles/a.srt" (b "new") fsOne). reflexivity.
Defined.

(** X2 for the upload [a.mp4]. *)
Lemma createVideoFile_creates_a_new_file_witness :
  ContainsByte "/" "a.mp4" = false
  /\ lookup "tmp/a.mp47" (fs w0) = None
  /\ readFile "tmp/a.mp47" (fs (fst (createVideoFile s0 "a.mp4" (reader "video a") w0)))
     = Ok (b "video a")
  /\ (tmpDir s0 <> "" -> HasPrefix "tmp/a.mp47" (tmpDir s0) = true)
  /\ forall q x, readFile q (fs w0) = Ok x ->
       readFile q (fs (fst (createVideoFile s0 "a.mp4" (reader "video a") w0))) = Ok x.
Proof.
  apply (createVideoFile_creates_a_new_file s0 "a.mp4" (reader "video a") w0
           (fst (createVideoFile s0 "a.mp4" (reader "video a") w0)) "tmp/a.mp47").
  vm_compute. reflexivity.
Defined.

(** X3 for the file name [x/y.mp4]. *)
Lemma processFile_rejects_a_name_with_a_slash_witness :
  fs (processFile s0 0 (job "x/y.mp4" "video y" "pt") w0) = fs w0
  /\ trace (processFile s0 0 (job "x/y.mp4" "video y" "pt") w0)
     = EvFailed 0 Materialize :: trace w0
  /\ exists e, errCh (processFile s0 0 (job "x/y.mp4" "video y" "pt") w0) = errCh w0 ++ [e].
Proof.
  apply (processFile_rejects_a_name_with_a_slash s0 0 (job "x/y.mp4" "video y" "pt") w0).
  reflexivity.
Defined.



(** X6 for a name whose extension occurs twice. *)
Lemma subtitlePath_stays_in_the_directory_witness :
  subtitlePath "subtitles" "a.mp4.mp4"
    = "subtitles" +:+ "/" +:+ Replace1 "a.mp4.mp4" (Ext "a.mp4.mp4") ".srt"
  /\ plainName (Replace1 "a.mp4.mp4" (Ext "a.mp4.mp4") ".srt") = true
  /\ components (subtitlePath "subtitles" "a.mp4.mp4")
     = Some ["subtitles"; Replace1 "a.mp4.mp4" (Ext "a.mp4.mp4") ".srt"].
Proof.
  apply (subtitlePath_stays_in_the_directory "subtitles" "a.mp4.mp4"); reflexivity.
Defined.

(** X7 for an upload of two files of the field ["file"] among other
    parts. *)
Lemma createSubtitles_hands_over_the_file_parts_witness :
  createSubtitles recorder upload ([], newConn)
  = match List.filter isFilePart (Parts upload) with
    | [] => ([], e newConn "No file part in request" None StatusBadRequest)
    | ps =>
        match recorder (List.map inputOf ps) [] with
        | (s', Some err) =>
            (s', e newConn "Failed to generate subtitles" (Some err) StatusInternalServerError)
        | (s', None) =>
            (s', onWriter (fun w =>
                   Write (JSON (JObject [("message", JString "Subtitles generated successfully")]))
                     (SetHeader "Content-Type" "application/json" w)) newConn)
        end
    end.
Proof.
  destruct (ParseMultipartForm upload maxFileSize) as [form|err] eqn:H.
  - exact (createSubtitles_hands_over_the_file_parts recorder upload form [] newConn H).
  - exfalso. vm_compute in H. discriminate H.
Defined.

(** X9 for the same upload. *)
Lemma createSubtitles_passes_base_names_witness :
  length (fst (createSubtitles recorder upload ([], newConn))) <= 1
  /\ forall inputs inp,
       In inputs (fst (createSubtitles recorder upload ([], newConn))) -> In inp inputs ->
       (FileName inp = "/" \/ ContainsByte "/" (FileName inp) = false)
       /\ Language inp = "pt".
Proof.
  apply (createSubtitles_passes_base_names upload newConn
           (fst (createSubtitles recorder upload ([], newConn)))
           (snd (createSubtitles recorder upload ([], newConn)))).
  by destruct (createSubtitles recorder upload ([], newConn)).
Defined.

(** X10, X11 and X12 in a working directory that holds [tmp] only. *)
Lemma listSubtitles_without_output_directory_witness :
  exists c,
    listSubtitles (get "") (fsNoOutput, newConn) = Some (fsNoOutput, c)
    /\ length (logs c) = 1
    /\ finish (w c) =
         {| Status := 500;
            Headers := {[ "X-Content-Type-Options" := "nosniff";
                          "Content-Type" := "text/plain; charset=utf-8" ]};
            Body := [Text ("Failed to compile zip file" +:+ String "010" EmptyString);
                     JSON (JObject [("subtitles", JNull)])] |}.
Proof. apply (listSubtitles_without_output_directory (get "") fsNoOutput). reflexivity. Defined.

Lemma subtitlesZip_without_output_directory_witness :
  exists c,
    subtitlesZip (get "zip") (fsNoOutput, newConn) = Some (fsNoOutput, c)
    /\ length (logs c) = 1
    /\ finish (w c) =
         {| Status := 500;
            Headers := {[ "X-Content-Type-Options" := "nosniff";
                          "Content-Type" := "text/plain; charset=utf-8" ]};
            Body := [Text ("Failed to compile zip file" +:+ String "010" EmptyString);
                     ZipArchive []] |}.
Proof. apply (subtitlesZip_without_output_directory (get "zip") fsNoOutput). reflexivity. Defined.

Lemma by_name_handlers_without_output_directory_witness :
  exists c,
    subtitleFile (get "a.srt") (fsNoOutput, newConn) = Some (fsNoOutput, c)
    /\ deleteSubtitle (get "a.srt") (fsNoOutput, newConn) = Some (fsNoOutput, c)
    /\ length (logs c) = 1
    /\ finish (w c) =
         {| Status := 500;
            Headers := {[ "X-Content-Type-Options" := "nosniff";
                          "Content-Type" := "text/plain; charset=utf-8" ]};
            Body := [Text ("Failed to compile zip file" +:+ String "010" EmptyString)] |}.
Proof.
  apply (by_name_handlers_without_output_directory (get "a.srt") fsNoOutput). reflexivity.
Defined.

(** X13 to X16 at the output directory that holds [a.srt]. *)
Lemma subtitleFile_serves_the_file_witness :
  exists c,
    subtitleFile (get "a.srt") (fsOne, newConn) = Some (fsOne, c)
    /\ logs c = []
    /\ Status (finish (w c)) = 200
    /\ Headers (finish (w c)) !! "Content-Type" = Some "application/x-subrip"
    /\ Headers (finish (w c)) !! "Content-Disposition"
       = Some ("attachment; filename=" +:+ "a.srt")
    /\ Body (finish (w c)) = [Bytes (b "A")].
Proof.
  apply (subtitleFile_serves_the_file (get "a.srt")
           [("subtitles", Dir [("a.srt", File (b "A"))]); ("tmp", Dir [])]
           [("a.srt", File (b "A"))] (b "A")); (reflexivity || discriminate).
Defined.

Lemma deleteSubtitle_removes_that_file_only_witness :
  exists fs',
    deleteSubtitle (get "a.srt") (fsOne, newConn) = Some (fs', newConn)
    /\ finish (w newConn) = {| Status := 200; Headers := ∅; Body := [] |}
    /\ lookupAt [subtitlesDir; "a.srt"] fs' = None
    /\ forall cs x, cs <> [subtitlesDir; "a.srt"] ->
         lookupAt cs fsOne = Some (File x) -> lookupAt cs fs' = Some (File x).
Proof.
  apply (deleteSubtitle_removes_that_file_only (get "a.srt")
           [("subtitles", Dir [("a.srt", File (b "A"))]); ("tmp", Dir [])]
           [("a.srt", File (b "A"))] (b "A")); (reflexivity || discriminate).
Defined.

Lemma deleteSubtitle_then_listSubtitles_witness :
  exists fs' c names,
    deleteSubtitle (get "a.srt") (fsOne, newConn) = Some (fs', newConn)
    /\ listSubtitles (get "") (fs', newConn) = Some (fs', c)
    /\ Status (finish (w c)) = 200
    /\ Body (finish (w c)) = [JSON (JObject [("subtitles", encodeSlice (sliceOf names))])]
    /\ names ≡ₚ List.filter (fun k => isSrt k && negb (String.eqb k "a.srt")) ["a.srt"].
Proof.
  apply (deleteSubtitle_then_listSubtitles (get "a.srt") (get "")
           [("subtitles", Dir [("a.srt", File (b "A"))]); ("tmp", Dir [])]
           [("a.srt", File (b "A"))] (b "A")); (reflexivity || discriminate).
Defined.

Lemma deleteSubtitle_twice_witness :
  exists fs',
    deleteSubtitle (get "a.srt") (fsOne, newConn) = Some (fs', newConn)
    /\ deleteSubtitle (get "a.srt") (fs', newConn) = Some (fs', newConn).
Proof.
  apply (deleteSubtitle_twice (get "a.srt")
           [("subtitles", Dir [("a.srt", File (b "A"))]); ("tmp", Dir [])]
           [("a.srt", File (b "A"))] (b "A")); (reflexivity || discriminate).
Defined.

(** X17 for the subtitle of [a.mp4], written into the empty output
    directory. *)
Lemma written_subtitle_is_listed_witness :
  exists c names,
    listSubtitles (get "")
      (fst (writeFile (subtitlePath main.subtitlesDir "a.mp4") (b "SRT") fs0), newConn)
    = Some (fst (writeFile (subtitlePath main.subtitlesDir "a.mp4") (b "SRT") fs0), c)
    /\ Status (finish (w c)) = 200
    /\ Body (finish (w c)) = [JSON (JObject [("subtitles", JArray (List.map JString names))])]
    /\ In (Replace1 "a.mp4" (Ext "a.mp4") ".srt") names.
Proof.
  apply (written_subtitle_is_listed (get "") "a.mp4" (b "SRT") fs0
           (fst (writeFile (subtitlePath main.subtitlesDir "a.mp4") (b "SRT") fs0)));
    reflexivity.
Defined.

(** X18 for the directory [subtitles] in an empty working directory. *)
Lemma makeDir_keeps_files_and_is_idempotent_witness :
  (forall q x, readFile q (Dir []) = Ok x ->
     readFile q (Dir [("subtitles", Dir [])]) = Ok x)
  /\ ((exists d, Stat "subtitles" (Dir [("subtitles", Dir [])]) = Ok d)
      \/ Stat "subtitles" (Dir []) = Err ENOTDIR)
  /\ main.makeDir "subtitles" (Dir [("subtitles", Dir [])], [("INFO", "Creating directory")])
     = main.Returns tt (Dir [("subtitles", Dir [])], [("INFO", "Creating directory")]).
Proof.
  apply (makeDir_keeps_files_and_is_idempotent "subtitles" (Dir [], [])
           (Dir [("subtitles", Dir [])], [("INFO", "Creating directory")])).
  reflexivity.
Defined.

(** X19 and X20 for a start in an empty working directory. *)
Lemma main_prepares_the_directories_witness :
  "sk-key" <> ""
  /\ outputDir (E := unit) s0 = web.subtitlesDir
  /\ tmpDir (E := unit) s0 = "tmp"
  /\ exists es', Dir [("subtitles", Dir []); ("tmp", Dir [])] = Dir es'
       /\ assoc web.subtitlesDir es' = Some (default (Dir []) (assoc web.subtitlesDir []))
       /\ assoc "tmp" es' = Some (default (Dir []) (assoc "tmp" []))
       /\ forall k, k <> "subtitles" -> k <> "tmp" -> assoc k es' = assoc k [].
Proof.
  apply (main_prepares_the_directories strip whisperWith "sk-key" [] []
           s0 (Dir [("subtitles", Dir []); ("tmp", Dir [])])
           [("INFO", "Creating directory"); ("INFO", "Creating directory")]).
  reflexivity.
Defined.

Lemma listSubtitles_after_main_witness :
  exists c,
    listSubtitles (get "") (fs0, newConn) = Some (fs0, c)
    /\ logs c = []
    /\ finish (w c) =
         {| Status := 200;
            Headers := {[ "Content-Type" := "application/json" ]};
            Body := [JSON (JObject [("subtitles", JNull)])] |}.
Proof.
  apply (listSubtitles_after_main strip whisperWith "sk-key" [] [] s0 fs0
           [("INFO", "Creating directory"); ("INFO", "Creating directory")] (get ""));
    reflexivity.
Defined.



(** X22 at the nested output directory. *)
Lemma listSubtitles_and_subtitlesZip_agree_witness :
  exists c1 c2 entries,
    listSubtitles (get "") (fsNested, newConn) = Some (fsNested, c1)
    /\ subtitlesZip (get "zip") (fsNested, newConn) = Some (fsNested, c2)
    /\ Body (finish (w c1))
       = [JSON (JObject [("subtitles", encodeSlice (sliceOf (List.map fst entries)))])]
    /\ Body (finish (w c2)) = [ZipArchive entries].
Proof.
  apply (listSubtitles_and_subtitlesZip_agree (get "") (get "zip") fsNested outNested);
    reflexivity.
Defined.


(** C6 for an upload that asks for English: the client is called once,
    for Portuguese, with the bytes of the audio file. *)
Lemma transcribe_input_is_fixed_witness :
  exists new,
    trace (processFile s0 0 (job "a.mp4" "video a" "en") w0) = new ++ trace w0
    /\ transcribeCalls new
       = [{| whisperclient.Name := "a.mp4";
             whisperclient.Language_ := whisperclient.LanguagePortuguese;
             whisperclient.Format_ := whisperclient.FormatSrt;
             whisperclient.Data := b "video a" |}].
Proof.
  destruct (transcribe_input_is_fixed s0 0 (job "a.mp4" "video a" "en") w0)
    as [_ (new & Ht & _ & Hlive)].
  exists new. split; [exact Ht|].
  apply (Hlive (fst (createVideoFile s0 "a.mp4" (reader "video a") w0)) "tmp/a.mp47"
               (fst (extractAudio s0 "tmp/a.mp47" "3800"
                       (fst (createVideoFile s0 "a.mp4" (reader "video a") w0))))
               "tmp/a.mp47.wav" (b "video a"));
    vm_compute; reflexivity.
Defined.
End MoreWitnesses.
